(** * libscca: the prefetch (SCCA) file handle and its section decoders

    A shallow embedding of [libscca_file.c] (the file handle: initialize,
    open, close, open_read and the query functions) and of
    [libscca_io_handle.c] (the header, metrics array, trace chain array,
    filename strings and volumes information decoders), followed by the
    properties of the specification that are settled on it.

    The embedding is of the build without [HAVE_DEBUG_OUTPUT]: the code
    between [#if defined( HAVE_DEBUG_OUTPUT )] and [#endif] only prints,
    except for the two places singled out below (the calls of the metrics
    and trace chain decoders in [libscca_file_open_read], which that build
    does not make, and the loop over the file references in
    [libscca_io_handle_read_volumes_information], whose body is empty
    without it and is embedded on its own as [debug_file_references]).

    Conventions.
    - A C function that returns 1 or -1 and takes a [libcerror_error_t **]
      is a computation in the monad [M]: [Returned] is the return value 1
      (with the values written through out-parameters), [Failed e] is the
      return value -1 with the error [e] set.
    - A pointer is an [option]: [None] is [NULL]. A pointer to a pointer
      ([libscca_file_t **file]) is an [option (option _)].
    - Unsigned 32-bit arithmetic is written out with [mod 2^32].
    - Reading a buffer outside of its bounds is undefined behaviour in C;
      the embedding stops there with the outcome [OutOfBounds]. *)

From Stdlib Require Import ZArith Lia Bool String DecimalString.
From stdpp Require Import base option list.
Local Open Scope Z_scope.

(** ** Errors (libcerror) *)

Inductive libcerror_domain : Type :=
| LIBCERROR_ERROR_DOMAIN_ARGUMENTS
| LIBCERROR_ERROR_DOMAIN_IO
| LIBCERROR_ERROR_DOMAIN_MEMORY
| LIBCERROR_ERROR_DOMAIN_RUNTIME.

Inductive libcerror_code : Type :=
| LIBCERROR_ARGUMENT_ERROR_INVALID_VALUE
| LIBCERROR_ARGUMENT_ERROR_UNSUPPORTED_VALUE
| LIBCERROR_ARGUMENT_ERROR_VALUE_EXCEEDS_MAXIMUM
| LIBCERROR_IO_ERROR_OPEN_FAILED
| LIBCERROR_IO_ERROR_CLOSE_FAILED
| LIBCERROR_IO_ERROR_SEEK_FAILED
| LIBCERROR_IO_ERROR_READ_FAILED
| LIBCERROR_MEMORY_ERROR_INSUFFICIENT
| LIBCERROR_RUNTIME_ERROR_VALUE_MISSING
| LIBCERROR_RUNTIME_ERROR_VALUE_ALREADY_SET
| LIBCERROR_RUNTIME_ERROR_INITIALIZE_FAILED
| LIBCERROR_RUNTIME_ERROR_RESIZE_FAILED
| LIBCERROR_RUNTIME_ERROR_FINALIZE_FAILED
| LIBCERROR_RUNTIME_ERROR_GET_FAILED
| LIBCERROR_RUNTIME_ERROR_SET_FAILED
| LIBCERROR_RUNTIME_ERROR_APPEND_FAILED
| LIBCERROR_RUNTIME_ERROR_UNSUPPORTED_VALUE
| LIBCERROR_RUNTIME_ERROR_VALUE_OUT_OF_BOUNDS.

Record libcerror_entry : Type := mk_error {
  error_domain : libcerror_domain;
  error_code : libcerror_code;
  error_message : string
}.

(** An error is the chain of the messages set on it, the cause first. *)
Definition libcerror_error_t : Type := list libcerror_entry.

(** [libcerror_error_set( error, domain, code, message )] on an error that
    may already hold the messages of the callee. *)
Definition libcerror_error_set (error : libcerror_error_t)
    (domain : libcerror_domain) (code : libcerror_code) (message : string)
  : libcerror_error_t :=
  error ++ [mk_error domain code message].

(** The entry set last: the one of the function that returned -1. *)
Definition last_error (error : libcerror_error_t) : option libcerror_entry :=
  last error.

(** ** Outcomes and the state-and-error monad *)

Inductive outcome (A : Type) : Type :=
| Returned (a : A)
| Failed (error : libcerror_error_t)
| OutOfBounds (offset size buffer_size : Z).
Arguments Returned {A} a.
Arguments Failed {A} error.
Arguments OutOfBounds {A} offset size buffer_size.

Definition M (S A : Type) : Type := S -> outcome A * S.

Global Instance M_ret {S} : MRet (M S) := fun A a s => (Returned a, s).

Global Instance M_bind {S} : MBind (M S) := fun A B k m s =>
  match m s with
  | (Returned a, s') => k a s'
  | (Failed e, s') => (Failed e, s')
  | (OutOfBounds o n b, s') => (OutOfBounds o n b, s')
  end.

Global Instance M_fmap {S} : FMap (M S) := fun A B f m =>
  mbind (fun a => mret (f a)) m.

Definition get {S} : M S S := fun s => (Returned s, s).
Definition put {S} (s : S) : M S unit := fun _ => (Returned tt, s).
Definition modify {S} (f : S -> S) : M S unit := fun s => (Returned tt, f s).

(** [libcerror_error_set( error, ... ); return( -1 );] on a fresh error. *)
Definition fail {S A} (domain : libcerror_domain) (code : libcerror_code)
    (message : string) : M S A :=
  fun s => (Failed (libcerror_error_set [] domain code message), s).

(** [if( callee( ..., error ) != 1 ) { libcerror_error_set( error, ... );
    return( -1 ) or goto on_error; }]: the caller's message is added to the
    error of the callee. *)
Definition checked {S A} (callee : M S A) (domain : libcerror_domain)
    (code : libcerror_code) (message : string) : M S A :=
  fun s =>
    match callee s with
    | (Failed e, s') => (Failed (libcerror_error_set e domain code message), s')
    | r => r
    end.

(** The statements after which a failure jumps to the label [on_error]:
    the clean-up runs on the state at the failure, with its own errors
    discarded (its calls pass [NULL] for the error). *)
Definition on_error {S A} (body : M S A) (cleanup : S -> S) : M S A :=
  fun s =>
    match body s with
    | (Failed e, s') => (Failed e, cleanup s')
    | r => r
    end.

(** A call whose return value is not looked at, as in the clean-up code. *)
Definition ignoring {S A} (m : M S A) : S -> S := fun s => snd (m s).

(** [stable R m]: whenever [m] returns, with 1 or with -1, the state it
    leaves is related by [R] to the state it started from. *)
Definition stable {S A} (R : S -> S -> Prop) (m : M S A) : Prop :=
  forall s,
    match m s with
    | (OutOfBounds _ _ _, _) => True
    | (_, s') => R s s'
    end.

(** The value returned to a C caller: 1, or -1 on error. *)
Definition return_value {A} (o : outcome A) : option Z :=
  match o with
  | Returned _ => Some 1
  | Failed _ => Some (-1)
  | OutOfBounds _ _ _ => None
  end.

(** ** The world outside of the file handle: heap and byte sources *)

(** A Basic File IO handle of libbfio, the byte source. [bfio_source] is the
    content of the object the handle is bound to, [None] while it is bound to
    nothing that can be opened. *)
Record libbfio_handle_t : Type := mk_bfio {
  bfio_source : option (list Z);
  bfio_is_open : bool;
  bfio_offset : Z
}.

Inductive libbfio_name : Type :=
| narrow_name (filename : string)
| wide_name (filename : list Z).

(** [heap_live] counts the blocks allocated and not yet freed; an allocation
    succeeds while it is below [heap_capacity]. [handles] is the store of the
    libbfio handles, a handle pointer being an index into it. *)
Record world : Type := mk_world {
  heap_live : Z;
  heap_capacity : Z;
  handles : list (option libbfio_handle_t);
  filesystem : libbfio_name -> option (list Z)
}.

Definition set_heap_live (n : Z) (w : world) : world :=
  mk_world n (heap_capacity w) (handles w) (filesystem w).

Definition set_handles (hs : list (option libbfio_handle_t)) (w : world) : world :=
  mk_world (heap_live w) (heap_capacity w) hs (filesystem w).

(** [memory_allocate]: [NULL] when the heap is exhausted. *)
Definition memory_allocate : M world unit := fun w =>
  if decide (heap_live w < heap_capacity w)
  then (Returned tt, set_heap_live (heap_live w + 1) w)
  else (Failed [], w).

Definition memory_free : world -> world := fun w =>
  set_heap_live (heap_live w - 1) w.

(** The two worlds have the same number of live blocks. *)
Definition same_heap (w w' : world) : Prop := heap_live w' = heap_live w.

Definition handle_lookup (w : world) (handle : option nat) : option libbfio_handle_t :=
  match handle with
  | None => None
  | Some i => default None (handles w !! i)
  end.

Definition handle_store (i : nat) (h : option libbfio_handle_t) (w : world) : world :=
  set_handles (<[i := h]> (handles w)) w.

(** The error set by a function of one of the libraries (libbfio, libfvalue,
    libcdata) that returns -1. *)
Definition library_error (function : string) : libcerror_error_t :=
  [mk_error LIBCERROR_ERROR_DOMAIN_RUNTIME LIBCERROR_RUNTIME_ERROR_GET_FAILED function].

(** [libbfio_file_initialize( &file_io_handle, error )] *)
Definition libbfio_file_initialize : M world nat := fun w =>
  match memory_allocate w with
  | (Returned _, w') =>
      (Returned (length (handles w')),
       set_handles (handles w' ++ [Some (mk_bfio None false 0)]) w')
  | (_, w') => (Failed (library_error "libbfio_file_initialize"), w')
  end.

(** [libbfio_file_set_name] and [libbfio_file_set_name_wide]: binds the
    handle to the file of that name. *)
Definition libbfio_file_set_name (handle : option nat) (name : libbfio_name)
  : M world unit := fun w =>
  match handle, handle_lookup w handle with
  | Some i, Some h =>
      (Returned tt,
       handle_store i (Some (mk_bfio (filesystem w name) (bfio_is_open h) (bfio_offset h))) w)
  | _, _ => (Failed (library_error "libbfio_file_set_name"), w)
  end.

(** [libbfio_handle_is_open]: 1, 0, or -1 on error. *)
Definition libbfio_handle_is_open (handle : option nat) : M world Z := fun w =>
  match handle_lookup w handle with
  | Some h => (Returned (if bfio_is_open h then 1 else 0), w)
  | None => (Failed (library_error "libbfio_handle_is_open"), w)
  end.

(** [libbfio_handle_open( handle, access_flags, error )] *)
Definition libbfio_handle_open (handle : option nat) (access_flags : Z)
  : M world unit := fun w =>
  match handle, handle_lookup w handle with
  | Some i, Some h =>
      match bfio_source h, bfio_is_open h with
      | Some _, false =>
          (Returned tt, handle_store i (Some (mk_bfio (bfio_source h) true 0)) w)
      | _, _ => (Failed (library_error "libbfio_handle_open"), w)
      end
  | _, _ => (Failed (library_error "libbfio_handle_open"), w)
  end.

(** [libbfio_handle_close]: [Returned] is its return value 0. *)
Definition libbfio_handle_close (handle : option nat) : M world unit := fun w =>
  match handle, handle_lookup w handle with
  | Some i, Some h =>
      if bfio_is_open h
      then (Returned tt, handle_store i (Some (mk_bfio (bfio_source h) false 0)) w)
      else (Failed (library_error "libbfio_handle_close"), w)
  | _, _ => (Failed (library_error "libbfio_handle_close"), w)
  end.

(** [libbfio_handle_free( &handle, error )] *)
Definition libbfio_handle_free (handle : option nat) : M world unit := fun w =>
  match handle, handle_lookup w handle with
  | Some i, Some h => (Returned tt, memory_free (handle_store i None w))
  | _, _ => (Failed (library_error "libbfio_handle_free"), w)
  end.

(** [libbfio_handle_get_size( handle, &size, error )] *)
Definition libbfio_handle_get_size (handle : option nat) : M world Z := fun w =>
  match handle_lookup w handle with
  | Some (mk_bfio (Some data) true _) => (Returned (Z.of_nat (length data)), w)
  | _ => (Failed (library_error "libbfio_handle_get_size"), w)
  end.

(** [libbfio_handle_seek_offset( handle, offset, SEEK_SET, error )] *)
Definition libbfio_handle_seek_offset (handle : option nat) (offset : Z)
  : M world Z := fun w =>
  match handle, handle_lookup w handle with
  | Some i, Some (mk_bfio (Some data) true _) =>
      if decide (0 <= offset)
      then (Returned offset, handle_store i (Some (mk_bfio (Some data) true offset)) w)
      else (Failed (library_error "libbfio_handle_seek_offset"), w)
  | _, _ => (Failed (library_error "libbfio_handle_seek_offset"), w)
  end.

(** [libbfio_handle_read_buffer( handle, buffer, size, error )]: the bytes
    read, fewer than [size] at the end of the source; the read count is
    their number. *)
Definition libbfio_handle_read_buffer (handle : option nat) (size : Z)
  : M world (list Z) := fun w =>
  match handle, handle_lookup w handle with
  | Some i, Some (mk_bfio (Some data) true offset) =>
      let buffer := take (Z.to_nat size) (drop (Z.to_nat offset) data) in
      (Returned buffer,
       handle_store i
         (Some (mk_bfio (Some data) true (offset + Z.of_nat (length buffer)))) w)
  | _, _ => (Failed (library_error "libbfio_handle_read_buffer"), w)
  end.

(** ** Byte streams *)

Definition byte_at (byte_stream : list Z) (index : nat) : Z :=
  default 0 (byte_stream !! index).

(** The macro [byte_stream_copy_to_uint32_little_endian]: the value is the
    last byte, shifted and or-ed with the bytes before it. *)
Definition byte_stream_copy_to_uint32_little_endian (byte_stream : list Z) : Z :=
  Z.lor (Z.shiftl
    (Z.lor (Z.shiftl
      (Z.lor (Z.shiftl (byte_at byte_stream 3) 8) (byte_at byte_stream 2)) 8)
      (byte_at byte_stream 1)) 8)
    (byte_at byte_stream 0).

Definition byte_stream_copy_to_uint64_little_endian (byte_stream : list Z) : Z :=
  Z.lor (Z.shiftl (byte_stream_copy_to_uint32_little_endian (drop 4 byte_stream)) 32)
        (byte_stream_copy_to_uint32_little_endian byte_stream).

(** The bytes [offset .. offset + size) of a buffer that holds them. *)
Definition slice (offset size : nat) (data : list Z) : list Z :=
  take size (drop offset data).

Definition uint32_max : Z := 2 ^ 32.

(** ** Values of strings (libfvalue) and arrays (libcdata) *)

(** A libfvalue value of type [LIBFVALUE_VALUE_TYPE_STRING_UTF16]: its value
    entries are the strings, each the bytes of its UTF-16 little-endian code
    units. *)
Record libfvalue_value_t : Type := mk_value {
  value_entries : list (list Z)
}.

(** [libfvalue_value_type_initialize( &value, type, error )], given what
    [value] points to. *)
Definition libfvalue_value_type_initialize (value : option libfvalue_value_t)
  : M world libfvalue_value_t :=
  match value with
  | Some _ => fun w => (Failed (library_error "libfvalue_value_type_initialize"), w)
  | None => fun w =>
      match memory_allocate w with
      | (Returned _, w') => (Returned (mk_value []), w')
      | (_, w') => (Failed (library_error "libfvalue_value_type_initialize"), w')
      end
  end.

(** [libfvalue_value_free( &value, error )]: the value pointed to is freed
    and the pointer set to [NULL]. *)
Definition libfvalue_value_free (value : option libfvalue_value_t) : world -> world :=
  match value with
  | Some _ => memory_free
  | None => fun w => w
  end.

(** The strings of a table of UTF-16 little-endian strings, each ended by a
    NUL code unit: a table of odd length is malformed, and no entry is made
    for the empty rest after the last separator. [current] holds the bytes
    of the string being read. *)
Fixpoint utf16_strings (data current : list Z) : option (list (list Z)) :=
  match data with
  | [] => Some (match current with [] => [] | _ => [current] end)
  | [_] => None
  | low :: high :: rest =>
      if decide (low = 0 /\ high = 0)
      then cons current <$> utf16_strings rest []
      else utf16_strings rest (current ++ [low; high])
  end.

(** [libfvalue_value_type_set_data_strings_array( value, data, data_size,
    LIBFVALUE_CODEPAGE_UTF16_LITTLE_ENDIAN, error )]: the value with the
    strings of [data] as its entries. *)
Definition libfvalue_value_type_set_data_strings_array {S}
    (value : option libfvalue_value_t) (data : list Z) : M S libfvalue_value_t :=
  fun s =>
    match value, utf16_strings data [] with
    | Some _, Some strings => (Returned (mk_value strings), s)
    | _, _ => (Failed (library_error "libfvalue_value_type_set_data_strings_array"), s)
    end.

(** [libfvalue_value_get_number_of_value_entries( value, &number, error )] *)
Definition libfvalue_value_get_number_of_value_entries
    (value : option libfvalue_value_t) : outcome Z :=
  match value with
  | None => Failed (library_error "libfvalue_value_get_number_of_value_entries")
  | Some v => Returned (Z.of_nat (length (value_entries v)))
  end.

(** A libcdata array is the list of its entries; the array itself is one
    block of the heap. *)
Abbreviation libcdata_array_t A := (list A) (only parsing).

(** [libcdata_array_initialize( &array, 0, error )] *)
Definition libcdata_array_initialize {A} : M world (libcdata_array_t A) := fun w =>
  match memory_allocate w with
  | (Returned _, w') => (Returned [], w')
  | (_, w') => (Failed (library_error "libcdata_array_initialize"), w')
  end.

(** [libcdata_array_append_entry( array, &entry_index, entry, error )] *)
Definition libcdata_array_append_entry {S A} (array : option (libcdata_array_t A))
    (entry : A) : M S (libcdata_array_t A * Z) := fun s =>
  match array with
  | Some entries => (Returned (entries ++ [entry], Z.of_nat (length entries)), s)
  | None => (Failed (library_error "libcdata_array_append_entry"), s)
  end.

(** [libcdata_array_resize( array, 0, entry_free_function, error )]: every
    entry is freed with the function and the array left empty. *)
Definition libcdata_array_resize {A} (array : option (libcdata_array_t A))
    (entry_free_function : A -> world -> world) : M world (libcdata_array_t A) :=
  fun w =>
    match array with
    | Some entries => (Returned [], foldr entry_free_function w entries)
    | None => (Failed (library_error "libcdata_array_resize"), w)
    end.

(** [libcdata_array_free( &array, entry_free_function, error )] *)
Definition libcdata_array_free {A} (array : option (libcdata_array_t A))
    (entry_free_function : A -> world -> world) : world -> world :=
  fun w =>
    match array with
    | Some entries => memory_free (foldr entry_free_function w entries)
    | None => w
    end.

(** [libcdata_array_get_number_of_entries( array, &number, error )] *)
Definition libcdata_array_get_number_of_entries {A}
    (array : option (libcdata_array_t A)) : outcome Z :=
  match array with
  | None => Failed (library_error "libcdata_array_get_number_of_entries")
  | Some entries => Returned (Z.of_nat (length entries))
  end.

(** [libcdata_array_get_entry_by_index( array, index, &entry, error )] *)
Definition libcdata_array_get_entry_by_index {A}
    (array : option (libcdata_array_t A)) (index : Z) : outcome A :=
  match array with
  | None => Failed (library_error "libcdata_array_get_entry_by_index")
  | Some entries =>
      if decide (0 <= index)
      then match entries !! Z.to_nat index with
           | Some entry => Returned entry
           | None => Failed (library_error "libcdata_array_get_entry_by_index")
           end
      else Failed (library_error "libcdata_array_get_entry_by_index")
  end.

(** ** The IO handle ([libscca_io_handle.c]) *)

(** The fields of [libscca_io_handle_t] that the two files use. *)
Record libscca_io_handle_t : Type := mk_io_handle {
  format_version : Z;
  file_size : Z;
  abort : Z
}.

(** [memory_set( io_handle, 0, sizeof( libscca_io_handle_t ) )] *)
Definition zeroed_io_handle : libscca_io_handle_t := mk_io_handle 0 0 0.

Definition scca_file_signature : list Z := [83; 67; 67; 65].

(** Modelled from the spec: the layout of [scca_file_header_t], declared in
    [scca_file_header.h]: 84 bytes, the format version at 0, the signature
    at 4, the file size at 12 and the prefetch hash at 76. *)
Definition sizeof_scca_file_header_t : Z := 84.
Definition file_header_format_version (file_header : list Z) : list Z := slice 0 4 file_header.
Definition file_header_signature (file_header : list Z) : list Z := slice 4 4 file_header.
Definition file_header_file_size (file_header : list Z) : list Z := slice 12 4 file_header.
Definition file_header_prefetch_hash (file_header : list Z) : list Z := slice 76 4 file_header.

(** Modelled from the spec: the sizes of the entries of the metrics array,
    declared in [scca_metrics_array.h], and of the volume information
    records, declared in [scca_volume_information.h]. *)
Definition sizeof_scca_metrics_array_entry_v17_t : Z := 20.
Definition sizeof_scca_metrics_array_entry_v23_t : Z := 32.
Definition sizeof_scca_volume_information_v17_t : Z := 104.
Definition sizeof_scca_volume_information_v23_t : Z := 96.

(** [libscca_io_handle_initialize( &io_handle, error )], given what
    [io_handle] points to when it is not [NULL]; the result is what it
    points to afterwards. *)
Definition libscca_io_handle_initialize
    (io_handle : option (option libscca_io_handle_t)) : M world libscca_io_handle_t :=
  match io_handle with
  | None =>
      fail LIBCERROR_ERROR_DOMAIN_ARGUMENTS LIBCERROR_ARGUMENT_ERROR_INVALID_VALUE
        "libscca_io_handle_initialize: invalid IO handle."
  | Some (Some _) =>
      fail LIBCERROR_ERROR_DOMAIN_RUNTIME LIBCERROR_RUNTIME_ERROR_VALUE_ALREADY_SET
        "libscca_io_handle_initialize: invalid IO handle value already set."
  | Some None =>
      checked memory_allocate
        LIBCERROR_ERROR_DOMAIN_MEMORY LIBCERROR_MEMORY_ERROR_INSUFFICIENT
        "libscca_io_handle_initialize: unable to create IO handle.";;
      mret zeroed_io_handle
  end.

(** [libscca_io_handle_free( &io_handle, error )] on a pointer that is not
    [NULL]: what it points to is freed. *)
Definition libscca_io_handle_free (io_handle : option libscca_io_handle_t)
  : world -> world :=
  match io_handle with
  | Some _ => memory_free
  | None => fun w => w
  end.

(** [libscca_io_handle_clear( io_handle, error )] *)
Definition libscca_io_handle_clear {S} (io_handle : option libscca_io_handle_t)
  : M S libscca_io_handle_t :=
  match io_handle with
  | None =>
      fail LIBCERROR_ERROR_DOMAIN_ARGUMENTS LIBCERROR_ARGUMENT_ERROR_INVALID_VALUE
        "libscca_io_handle_clear: invalid IO handle."
  | Some _ => mret zeroed_io_handle
  end.

(** [libscca_io_handle_read_file_header( io_handle, file_io_handle,
    &prefetch_hash, error )]: the IO handle and the prefetch hash as the
    function leaves them. [source_size] is the local [size64_t file_size],
    the size that the byte source reports. *)
Definition libscca_io_handle_read_file_header
    (io_handle : option libscca_io_handle_t) (file_io_handle : option nat)
  : M world (libscca_io_handle_t * Z) :=
  match io_handle with
  | None =>
      fail LIBCERROR_ERROR_DOMAIN_ARGUMENTS LIBCERROR_ARGUMENT_ERROR_INVALID_VALUE
        "libscca_io_handle_read_file_header: invalid IO handle."
  | Some io_handle =>
      source_size ← checked (libbfio_handle_get_size file_io_handle)
        LIBCERROR_ERROR_DOMAIN_RUNTIME LIBCERROR_RUNTIME_ERROR_GET_FAILED
        "libscca_io_handle_read_file_header: unable to retrieve file size.";
      checked (libbfio_handle_seek_offset file_io_handle 0)
        LIBCERROR_ERROR_DOMAIN_IO LIBCERROR_IO_ERROR_SEEK_FAILED
        "libscca_io_handle_read_file_header: unable to seek file header offset: 0.";;
      file_header ← checked
        (libbfio_handle_read_buffer file_io_handle sizeof_scca_file_header_t)
        LIBCERROR_ERROR_DOMAIN_IO LIBCERROR_IO_ERROR_READ_FAILED
        "libscca_io_handle_read_file_header: unable to read file header data.";
      if decide (Z.of_nat (length file_header) ≠ sizeof_scca_file_header_t) then
        fail LIBCERROR_ERROR_DOMAIN_IO LIBCERROR_IO_ERROR_READ_FAILED
          "libscca_io_handle_read_file_header: unable to read file header data."
      else if decide (file_header_signature file_header ≠ scca_file_signature) then
        fail LIBCERROR_ERROR_DOMAIN_RUNTIME LIBCERROR_RUNTIME_ERROR_UNSUPPORTED_VALUE
          "libscca_io_handle_read_file_header: invalid signature."
      else
        let io_handle := mk_io_handle
          (byte_stream_copy_to_uint32_little_endian (file_header_format_version file_header))
          (byte_stream_copy_to_uint32_little_endian (file_header_file_size file_header))
          (abort io_handle) in
        let prefetch_hash :=
          byte_stream_copy_to_uint32_little_endian (file_header_prefetch_hash file_header) in
        (* if( file_size != (size64_t) io_handle->file_size )
           { TODO flag mismatch and file as corrupted? } *)
        let _ := if decide (source_size ≠ file_size io_handle) then tt else tt in
        mret (io_handle, prefetch_hash)
  end.

(** [libscca_io_handle_read_metrics_array( io_handle, file_io_handle,
    file_offset, number_of_entries, error )], for a [size_t] of 64 bits. The
    loop over the entries only advances [entry_data]. *)
Definition libscca_io_handle_read_metrics_array
    (io_handle : option libscca_io_handle_t) (file_io_handle : option nat)
    (file_offset number_of_entries : Z) : M world unit :=
  match io_handle with
  | None =>
      fail LIBCERROR_ERROR_DOMAIN_ARGUMENTS LIBCERROR_ARGUMENT_ERROR_INVALID_VALUE
        "libscca_io_handle_read_metrics_array: invalid IO handle."
  | Some io_handle =>
      if decide (format_version io_handle ≠ 17
                 ∧ format_version io_handle ≠ 23
                 ∧ format_version io_handle ≠ 26) then
        fail LIBCERROR_ERROR_DOMAIN_ARGUMENTS LIBCERROR_ARGUMENT_ERROR_UNSUPPORTED_VALUE
          "libscca_io_handle_read_metrics_array: invalid IO handle - unsupported format version."
      else
        let entry_data_size :=
          if decide (format_version io_handle = 17)
          then sizeof_scca_metrics_array_entry_v17_t
          else sizeof_scca_metrics_array_entry_v23_t in
        checked (libbfio_handle_seek_offset file_io_handle file_offset)
          LIBCERROR_ERROR_DOMAIN_IO LIBCERROR_IO_ERROR_SEEK_FAILED
          "libscca_io_handle_read_metrics_array: unable to seek metrics array offset.";;
        let read_size := number_of_entries * entry_data_size in
        checked memory_allocate
          LIBCERROR_ERROR_DOMAIN_MEMORY LIBCERROR_MEMORY_ERROR_INSUFFICIENT
          "libscca_io_handle_read_metrics_array: unable to create metrics array data.";;
        on_error
          (metrics_array_data ← checked
             (libbfio_handle_read_buffer file_io_handle read_size)
             LIBCERROR_ERROR_DOMAIN_IO LIBCERROR_IO_ERROR_READ_FAILED
             "libscca_io_handle_read_metrics_array: unable to read metrics array data.";
           if decide (Z.of_nat (length metrics_array_data) ≠ read_size) then
             fail LIBCERROR_ERROR_DOMAIN_IO LIBCERROR_IO_ERROR_READ_FAILED
               "libscca_io_handle_read_metrics_array: unable to read metrics array data."
           else modify memory_free)
          memory_free
  end.

(** [libscca_io_handle_read_trace_chain_array]: the loop decodes the next
    table index of every entry of 12 bytes and does nothing with it. *)
Definition libscca_io_handle_read_trace_chain_array
    (io_handle : option libscca_io_handle_t) (file_io_handle : option nat)
    (file_offset number_of_entries : Z) : M world unit :=
  match io_handle with
  | None =>
      fail LIBCERROR_ERROR_DOMAIN_ARGUMENTS LIBCERROR_ARGUMENT_ERROR_INVALID_VALUE
        "libscca_io_handle_read_trace_chain_array: invalid IO handle."
  | Some io_handle =>
      checked (libbfio_handle_seek_offset file_io_handle file_offset)
        LIBCERROR_ERROR_DOMAIN_IO LIBCERROR_IO_ERROR_SEEK_FAILED
        "libscca_io_handle_read_trace_chain_array: unable to seek trace chain array offset.";;
      let read_size := number_of_entries * 12 in
      checked memory_allocate
        LIBCERROR_ERROR_DOMAIN_MEMORY LIBCERROR_MEMORY_ERROR_INSUFFICIENT
        "libscca_io_handle_read_trace_chain_array: unable to create trace chain array data.";;
      on_error
        (trace_chain_array_data ← checked
           (libbfio_handle_read_buffer file_io_handle read_size)
           LIBCERROR_ERROR_DOMAIN_IO LIBCERROR_IO_ERROR_READ_FAILED
           "libscca_io_handle_read_trace_chain_array: unable to read trace chain array data.";
         if decide (Z.of_nat (length trace_chain_array_data) ≠ read_size) then
           fail LIBCERROR_ERROR_DOMAIN_IO LIBCERROR_IO_ERROR_READ_FAILED
             "libscca_io_handle_read_trace_chain_array: unable to read trace chain array data."
         else
           let next_table_index := fun entry_index : nat =>
             byte_stream_copy_to_uint32_little_endian
               (drop (entry_index * 12) trace_chain_array_data) in
           let _ := next_table_index <$> seq 0 (Z.to_nat number_of_entries) in
           modify memory_free)
        memory_free
  end.

(** [libscca_io_handle_read_filename_strings( io_handle, file_io_handle,
    filename_string_offset, filename_string_size, filename_strings, error )]:
    the value that [filename_strings] points to afterwards. *)
Definition libscca_io_handle_read_filename_strings
    (io_handle : option libscca_io_handle_t) (file_io_handle : option nat)
    (filename_string_offset filename_string_size : Z)
    (filename_strings : option libfvalue_value_t) : M world libfvalue_value_t :=
  match io_handle with
  | None =>
      fail LIBCERROR_ERROR_DOMAIN_ARGUMENTS LIBCERROR_ARGUMENT_ERROR_INVALID_VALUE
        "libscca_io_handle_read_filename_strings: invalid IO handle."
  | Some io_handle =>
      checked (libbfio_handle_seek_offset file_io_handle filename_string_offset)
        LIBCERROR_ERROR_DOMAIN_IO LIBCERROR_IO_ERROR_SEEK_FAILED
        "libscca_io_handle_read_filename_strings: unable to seek filename strings header offset.";;
      checked memory_allocate
        LIBCERROR_ERROR_DOMAIN_MEMORY LIBCERROR_MEMORY_ERROR_INSUFFICIENT
        "libscca_io_handle_read_filename_strings: unable to create filename strings data.";;
      on_error
        (filename_strings_data ← checked
           (libbfio_handle_read_buffer file_io_handle filename_string_size)
           LIBCERROR_ERROR_DOMAIN_IO LIBCERROR_IO_ERROR_READ_FAILED
           "libscca_io_handle_read_filename_strings: unable to read filename strings data.";
         if decide (Z.of_nat (length filename_strings_data) ≠ filename_string_size) then
           fail LIBCERROR_ERROR_DOMAIN_IO LIBCERROR_IO_ERROR_READ_FAILED
             "libscca_io_handle_read_filename_strings: unable to read filename strings data."
         else
           value ← checked
             (libfvalue_value_type_set_data_strings_array filename_strings
                filename_strings_data)
             LIBCERROR_ERROR_DOMAIN_RUNTIME LIBCERROR_RUNTIME_ERROR_SET_FAILED
             "libscca_io_handle_read_filename_strings: unable to set data of filename strings value.";
           modify memory_free;;
           mret value)
        memory_free
  end.

(** ** Volume information *)

(** The fields of [libscca_internal_volume_information_t] that the decoder
    sets. The record has no field for file references. *)
Record libscca_internal_volume_information_t : Type := mk_volume_information {
  creation_time : Z;
  serial_number : Z;
  device_path : option (list Z);
  device_path_size : Z;
  directory_strings : option libfvalue_value_t
}.

Definition with_creation_time (value : Z) (v : libscca_internal_volume_information_t) :=
  mk_volume_information value (serial_number v) (device_path v)
    (device_path_size v) (directory_strings v).

Definition with_serial_number (value : Z) (v : libscca_internal_volume_information_t) :=
  mk_volume_information (creation_time v) value (device_path v)
    (device_path_size v) (directory_strings v).

Definition with_device_path (data : option (list Z))
    (v : libscca_internal_volume_information_t) :=
  mk_volume_information (creation_time v) (serial_number v) data
    (device_path_size v) (directory_strings v).

Definition with_device_path_size (size : Z) (v : libscca_internal_volume_information_t) :=
  mk_volume_information (creation_time v) (serial_number v) (device_path v)
    size (directory_strings v).

Definition with_directory_strings (value : option libfvalue_value_t)
    (v : libscca_internal_volume_information_t) :=
  mk_volume_information (creation_time v) (serial_number v) (device_path v)
    (device_path_size v) value.

(** Modelled from the spec: [libscca_volume_information_initialize] of
    [libscca_volume_information.c], which is not among the sources: the
    entity is created, as every entity of the model, during the parse of its
    owning section; it is one block, cleared as the IO handle is. *)
Definition libscca_volume_information_initialize
    (volume_information : option libscca_internal_volume_information_t)
  : M world libscca_internal_volume_information_t :=
  match volume_information with
  | Some _ =>
      fail LIBCERROR_ERROR_DOMAIN_RUNTIME LIBCERROR_RUNTIME_ERROR_VALUE_ALREADY_SET
        "libscca_volume_information_initialize: invalid volume information value already set."
  | None =>
      checked memory_allocate
        LIBCERROR_ERROR_DOMAIN_MEMORY LIBCERROR_MEMORY_ERROR_INSUFFICIENT
        "libscca_volume_information_initialize: unable to create volume information.";;
      mret (mk_volume_information 0 0 None 0 None)
  end.

(** Modelled from the spec: [libscca_internal_volume_information_free] of
    [libscca_volume_information.c], which is not among the sources: the
    model owns its volumes exclusively, so the device path, the directory
    strings and the volume information itself are released. *)
Definition libscca_internal_volume_information_free
    (volume_information : libscca_internal_volume_information_t) : world -> world :=
  fun w =>
    let w := match device_path volume_information with
             | Some _ => memory_free w
             | None => w
             end in
    let w := libfvalue_value_free (directory_strings volume_information) w in
    memory_free w.

(** The locals of [libscca_io_handle_read_volumes_information] that its
    label [on_error] looks at, the volumes array that it appends to, the
    world, and the reads of [volumes_information_data] made so far, each
    with its offset and size. *)
Record volumes_state : Type := mk_volumes_state {
  vs_world : world;
  vs_volumes_array : option (libcdata_array_t libscca_internal_volume_information_t);
  vs_volume_information : option libscca_internal_volume_information_t;
  vs_volumes_information_data : option (list Z);
  vs_reads : list (Z * Z)
}.

Definition vs_set_world (w : world) (s : volumes_state) : volumes_state :=
  mk_volumes_state w (vs_volumes_array s) (vs_volume_information s)
    (vs_volumes_information_data s) (vs_reads s).

Definition vs_set_volumes_array
    (array : option (libcdata_array_t libscca_internal_volume_information_t))
    (s : volumes_state) : volumes_state :=
  mk_volumes_state (vs_world s) array (vs_volume_information s)
    (vs_volumes_information_data s) (vs_reads s).

Definition vs_set_volume_information
    (volume_information : option libscca_internal_volume_information_t)
    (s : volumes_state) : volumes_state :=
  mk_volumes_state (vs_world s) (vs_volumes_array s) volume_information
    (vs_volumes_information_data s) (vs_reads s).

Definition vs_set_volumes_information_data (data : option (list Z))
    (s : volumes_state) : volumes_state :=
  mk_volumes_state (vs_world s) (vs_volumes_array s) (vs_volume_information s)
    data (vs_reads s).

Definition vs_add_read (offset size : Z) (s : volumes_state) : volumes_state :=
  mk_volumes_state (vs_world s) (vs_volumes_array s) (vs_volume_information s)
    (vs_volumes_information_data s) (vs_reads s ++ [(offset, size)]).

Definition in_world {A} (m : M world A) : M volumes_state A := fun s =>
  let '(r, w) := m (vs_world s) in (r, vs_set_world w s).

Definition set_volumes_array
    (array : option (libcdata_array_t libscca_internal_volume_information_t))
  : M volumes_state unit :=
  modify (vs_set_volumes_array array).

Definition set_volume_information
    (volume_information : option libscca_internal_volume_information_t)
  : M volumes_state unit :=
  modify (vs_set_volume_information volume_information).

Definition set_volumes_information_data (data : option (list Z))
  : M volumes_state unit :=
  modify (vs_set_volumes_information_data data).

(** The [size] bytes at [&( volumes_information_data[ offset ] )]. *)
Definition read_data (offset size : Z) : M volumes_state (list Z) := fun s =>
  let data := default [] (vs_volumes_information_data s) in
  if decide (0 <= size ∧ 0 <= offset ∧ offset + size <= Z.of_nat (length data))
  then (Returned (slice (Z.to_nat offset) (Z.to_nat size) data), vs_add_read offset size s)
  else (OutOfBounds offset size (Z.of_nat (length data)), s).

Definition read_uint32 (offset : Z) : M volumes_state Z :=
  byte_stream_copy_to_uint32_little_endian <$> read_data offset 4.

Definition read_uint64 (offset : Z) : M volumes_state Z :=
  byte_stream_copy_to_uint64_little_endian <$> read_data offset 8.

Definition update_volume_information
    (f : libscca_internal_volume_information_t -> libscca_internal_volume_information_t)
  : M volumes_state unit :=
  modify (fun s => vs_set_volume_information (f <$> vs_volume_information s) s).

(** Modelled from the spec: the offsets of the fields of
    [scca_volume_information_v17_t], declared in
    [scca_volume_information.h]; the records of all versions share them. *)
Definition offsetof_device_path_offset : Z := 0.
Definition offsetof_device_path_number_of_characters : Z := 4.
Definition offsetof_creation_time : Z := 8.
Definition offsetof_serial_number : Z := 16.
Definition offsetof_file_references_offset : Z := 20.
Definition offsetof_file_references_size : Z := 24.
Definition offsetof_directory_strings_array_offset : Z := 28.
Definition offsetof_number_of_directory_strings : Z := 32.

(** The block [if( file_references_offset != 0 )] of the loop: the version
    and the number of file references are decoded; the loop
    [for( file_references_index = 1; file_references_index <
    number_of_file_references; file_references_index++ )] that follows has
    an empty body. *)
Definition read_file_references (file_references_offset : Z) : M volumes_state (Z * Z) :=
  version ← read_uint32 file_references_offset;
  number_of_file_references ← read_uint32 ((file_references_offset + 4) mod uint32_max);
  mret (version, number_of_file_references).

(** The body that the loop over the file references has with
    [HAVE_DEBUG_OUTPUT] defined and [libcnotify_verbose] set: the values
    decoded at [file_references_offset + 8 + ( file_references_index * 8 )]
    for the [count] indexes from [file_references_index] on, which it
    prints. *)
Fixpoint debug_file_references (file_references_offset file_references_index : Z)
    (count : nat) : M volumes_state (list Z) :=
  match count with
  | O => mret []
  | S count =>
      value_64bit ← read_uint64
        ((file_references_offset + 8 + file_references_index * 8) mod uint32_max);
      rest ← debug_file_references file_references_offset
        ((file_references_index + 1) mod uint32_max) count;
      mret (value_64bit :: rest)
  end.

(** The number of iterations of [for( index = 1; index < number; index++ )]. *)
Definition file_references_iterations (number_of_file_references : Z) : nat :=
  Z.to_nat (number_of_file_references - 1).

(** The block [if( ( device_path_offset != 0 ) && ( device_path_size != 0 ) )]. *)
Definition read_device_path (device_path_offset device_path_size : Z)
  : M volumes_state unit :=
  let device_path_size := (device_path_size * 2) mod uint32_max in
  in_world (checked memory_allocate
    LIBCERROR_ERROR_DOMAIN_MEMORY LIBCERROR_MEMORY_ERROR_INSUFFICIENT
    "libscca_io_handle_read_volumes_information: unable to create device path.");;
  update_volume_information (with_device_path (Some []));;
  update_volume_information (with_device_path_size device_path_size);;
  data ← read_data device_path_offset device_path_size;
  update_volume_information (with_device_path (Some data)).

(** The block [if( directory_strings_array_offset != 0 )]. *)
Definition read_directory_strings (volumes_information_size
    directory_strings_array_offset : Z) : M volumes_state unit :=
  let directory_strings_array_size :=
    (volumes_information_size - directory_strings_array_offset) mod uint32_max in
  s ← get;
  value ← in_world (checked
    (libfvalue_value_type_initialize (vs_volume_information s ≫= directory_strings))
    LIBCERROR_ERROR_DOMAIN_RUNTIME LIBCERROR_RUNTIME_ERROR_INITIALIZE_FAILED
    "libscca_io_handle_read_volumes_information: unable to create directory strings value.");
  update_volume_information (with_directory_strings (Some value));;
  data ← read_data directory_strings_array_offset directory_strings_array_size;
  value ← checked (libfvalue_value_type_set_data_strings_array (Some value) data)
    LIBCERROR_ERROR_DOMAIN_RUNTIME LIBCERROR_RUNTIME_ERROR_SET_FAILED
    "libscca_io_handle_read_volumes_information: unable to set data of directory strings value.";
  update_volume_information (with_directory_strings (Some value)).

(** The first statements of the body of the loop over the volumes: the
    volume information is created and the fields of the record at
    [volume_information_offset] are decoded. It returns the device path
    offset, the device path number of characters, the file references offset
    and the directory strings array offset. *)
Definition read_volume_information_record (volume_information_offset : Z)
  : M volumes_state (Z * Z * Z * Z) :=
  s ← get;
  volume_information ← in_world (checked
    (libscca_volume_information_initialize (vs_volume_information s))
    LIBCERROR_ERROR_DOMAIN_RUNTIME LIBCERROR_RUNTIME_ERROR_INITIALIZE_FAILED
    "libscca_io_handle_read_volumes_information: unable to create volume information.");
  set_volume_information (Some volume_information);;
  (* TODO check bounds of volume_information_offset *)
  device_path_offset ←
    read_uint32 (volume_information_offset + offsetof_device_path_offset);
  device_path_size ←
    read_uint32 (volume_information_offset + offsetof_device_path_number_of_characters);
  creation_time ← read_uint64 (volume_information_offset + offsetof_creation_time);
  update_volume_information (with_creation_time creation_time);;
  serial_number ← read_uint32 (volume_information_offset + offsetof_serial_number);
  update_volume_information (with_serial_number serial_number);;
  file_references_offset ←
    read_uint32 (volume_information_offset + offsetof_file_references_offset);
  file_references_size ←
    read_uint32 (volume_information_offset + offsetof_file_references_size);
  directory_strings_array_offset ←
    read_uint32 (volume_information_offset + offsetof_directory_strings_array_offset);
  number_of_directory_strings ←
    read_uint32 (volume_information_offset + offsetof_number_of_directory_strings);
  mret (device_path_offset, device_path_size, file_references_offset,
        directory_strings_array_offset).

(** The last statements of the body: the volume information is appended to
    the volumes array and the local set to [NULL]. *)
Definition append_volume_information : M volumes_state unit :=
  s ← get;
  match vs_volume_information s with
  | Some volume_information =>
      '(array, entry_index) ← checked
        (libcdata_array_append_entry (vs_volumes_array s) volume_information)
        LIBCERROR_ERROR_DOMAIN_RUNTIME LIBCERROR_RUNTIME_ERROR_APPEND_FAILED
        "libscca_io_handle_read_volumes_information: unable to append volume information to array.";
      set_volumes_array (Some array);;
      set_volume_information None
  | None => mret tt
  end.

(** The body of the loop over the volumes, at the volume information at
    [volume_information_offset]; it returns the offset of the next one. *)
Definition read_volume_information (volumes_information_size volume_information_size
    volume_information_offset : Z) : M volumes_state Z :=
  '(device_path_offset, device_path_size, file_references_offset,
    directory_strings_array_offset) ←
    read_volume_information_record volume_information_offset;
  let volume_information_offset :=
    (volume_information_offset + volume_information_size) mod uint32_max in
  (* TODO add bounds check file_references_offset and file_references_size *)
  (if decide (file_references_offset ≠ 0)
   then read_file_references file_references_offset;; mret tt
   else mret tt);;
  (* TODO add bounds check device_path_offset and device_path_size *)
  (if decide (device_path_offset ≠ 0 ∧ device_path_size ≠ 0)
   then read_device_path device_path_offset device_path_size
   else mret tt);;
  (* TODO add bounds check directory_strings_array_offset *)
  (if decide (directory_strings_array_offset ≠ 0)
   then read_directory_strings volumes_information_size directory_strings_array_offset
   else mret tt);;
  append_volume_information;;
  mret volume_information_offset.

(** [for( volume_index = 0; volume_index < number_of_volumes; volume_index++ )],
    with [count] volumes to go. *)
Fixpoint read_volumes (volumes_information_size volume_information_size
    volume_information_offset : Z) (count : nat) : M volumes_state unit :=
  match count with
  | O => mret tt
  | S count =>
      volume_information_offset ← read_volume_information volumes_information_size
        volume_information_size volume_information_offset;
      read_volumes volumes_information_size volume_information_size
        volume_information_offset count
  end.

(** The statements at the label [on_error]. *)
Definition read_volumes_information_on_error (s : volumes_state) : volumes_state :=
  let w := match vs_volume_information s with
           | Some volume_information =>
               libscca_internal_volume_information_free volume_information (vs_world s)
           | None => vs_world s
           end in
  let w := match vs_volumes_information_data s with
           | Some _ => memory_free w
           | None => w
           end in
  vs_set_volumes_information_data None
    (vs_set_volume_information None (vs_set_world w s)).

(** [libscca_io_handle_read_volumes_information( io_handle, file_io_handle,
    volumes_information_offset, volumes_information_size, number_of_volumes,
    volumes_array, error )], for a [size_t] of 64 bits; the volumes array is
    [vs_volumes_array] of the state. *)
Definition libscca_io_handle_read_volumes_information
    (io_handle : option libscca_io_handle_t) (file_io_handle : option nat)
    (volumes_information_offset volumes_information_size number_of_volumes : Z)
  : M volumes_state unit :=
  match io_handle with
  | None =>
      fail LIBCERROR_ERROR_DOMAIN_ARGUMENTS LIBCERROR_ARGUMENT_ERROR_INVALID_VALUE
        "libscca_io_handle_read_volumes_information: invalid IO handle."
  | Some io_handle =>
      on_error
        (in_world (checked
           (libbfio_handle_seek_offset file_io_handle volumes_information_offset)
           LIBCERROR_ERROR_DOMAIN_IO LIBCERROR_IO_ERROR_SEEK_FAILED
           "libscca_io_handle_read_volumes_information: unable to seek volumes information offset.");;
         in_world (checked memory_allocate
           LIBCERROR_ERROR_DOMAIN_MEMORY LIBCERROR_MEMORY_ERROR_INSUFFICIENT
           "libscca_io_handle_read_volumes_information: unable to create volumes information data.");;
         set_volumes_information_data (Some []);;
         volumes_information_data ← in_world (checked
           (libbfio_handle_read_buffer file_io_handle volumes_information_size)
           LIBCERROR_ERROR_DOMAIN_IO LIBCERROR_IO_ERROR_READ_FAILED
           "libscca_io_handle_read_volumes_information: unable to read volumes information data.");
         if decide (Z.of_nat (length volumes_information_data) ≠ volumes_information_size) then
           fail LIBCERROR_ERROR_DOMAIN_IO LIBCERROR_IO_ERROR_READ_FAILED
             "libscca_io_handle_read_volumes_information: unable to read volumes information data."
         else
           set_volumes_information_data (Some volumes_information_data);;
           let volume_information_size :=
             if decide (format_version io_handle = 17)
             then sizeof_scca_volume_information_v17_t
             else sizeof_scca_volume_information_v23_t in
           read_volumes volumes_information_size volume_information_size 0
             (Z.to_nat number_of_volumes);;
           in_world (modify memory_free);;
           set_volumes_information_data None)
        read_volumes_information_on_error
  end.

(** ** The file handle ([libscca_file.c]) *)

(** The fields of [libscca_file_information_t] that [libscca_file.c] uses. *)
Record libscca_file_information_t : Type := mk_file_information {
  metrics_array_offset : Z;
  number_of_metrics_entries : Z;
  trace_chain_array_offset : Z;
  number_of_trace_chain_array_entries : Z;
  filename_strings_offset : Z;
  filename_strings_size : Z;
  volumes_information_offset : Z;
  number_of_volumes : Z;
  volumes_information_size : Z
}.

(** Modelled from the spec: [libscca_file_information_initialize] and
    [libscca_file_information_free] of [libscca_file_information.c], which
    is not among the sources: the file information is an entity created
    during the parse and destroyed with the model; it is one block, cleared
    as the IO handle is. *)
Definition libscca_file_information_initialize
    (file_information : option libscca_file_information_t)
  : M world libscca_file_information_t :=
  match file_information with
  | Some _ =>
      fail LIBCERROR_ERROR_DOMAIN_RUNTIME LIBCERROR_RUNTIME_ERROR_VALUE_ALREADY_SET
        "libscca_file_information_initialize: invalid file information value already set."
  | None =>
      checked memory_allocate
        LIBCERROR_ERROR_DOMAIN_MEMORY LIBCERROR_MEMORY_ERROR_INSUFFICIENT
        "libscca_file_information_initialize: unable to create file information.";;
      mret (mk_file_information 0 0 0 0 0 0 0 0 0)
  end.

Definition libscca_file_information_free
    (file_information : option libscca_file_information_t) : world -> world :=
  match file_information with
  | Some _ => memory_free
  | None => fun w => w
  end.

(** What the two files take from declarations and functions that are not
    among the sources: the access flags of [libscca_definitions.h] and of
    libbfio, and [libscca_file_information_read] of
    [libscca_file_information.c], the decoder of the file information, of
    which only this is assumed: it returns with every block that it
    allocated freed. *)
Class Declarations : Type := {
  LIBSCCA_ACCESS_FLAG_READ : Z;
  LIBSCCA_ACCESS_FLAG_WRITE : Z;
  LIBBFIO_ACCESS_FLAG_READ : Z;
  libscca_file_information_read :
    libscca_file_information_t -> option nat -> option libscca_io_handle_t ->
    M world libscca_file_information_t;
  libscca_file_information_read_heap :
    forall file_information file_io_handle io_handle,
      stable same_heap
        (libscca_file_information_read file_information file_io_handle io_handle)
}.

Module Internal_file.
(** [libscca_internal_file_t] *)
Record t : Type := mk {
  io_handle : option libscca_io_handle_t;
  file_io_handle : option nat;
  file_io_handle_created_in_library : Z;
  file_io_handle_opened_in_library : Z;
  prefetch_hash : Z;
  file_information : option libscca_file_information_t;
  filename_strings : option libfvalue_value_t;
  volumes_array : option (libcdata_array_t libscca_internal_volume_information_t)
}.

Definition set_io_handle v f :=
  mk v (file_io_handle f) (file_io_handle_created_in_library f)
    (file_io_handle_opened_in_library f) (prefetch_hash f) (file_information f)
    (filename_strings f) (volumes_array f).
Definition set_file_io_handle v f :=
  mk (io_handle f) v (file_io_handle_created_in_library f)
    (file_io_handle_opened_in_library f) (prefetch_hash f) (file_information f)
    (filename_strings f) (volumes_array f).
Definition set_file_io_handle_created_in_library v f :=
  mk (io_handle f) (file_io_handle f) v
    (file_io_handle_opened_in_library f) (prefetch_hash f) (file_information f)
    (filename_strings f) (volumes_array f).
Definition set_file_io_handle_opened_in_library v f :=
  mk (io_handle f) (file_io_handle f) (file_io_handle_created_in_library f)
    v (prefetch_hash f) (file_information f)
    (filename_strings f) (volumes_array f).
Definition set_prefetch_hash v f :=
  mk (io_handle f) (file_io_handle f) (file_io_handle_created_in_library f)
    (file_io_handle_opened_in_library f) v (file_information f)
    (filename_strings f) (volumes_array f).
Definition set_file_information v f :=
  mk (io_handle f) (file_io_handle f) (file_io_handle_created_in_library f)
    (file_io_handle_opened_in_library f) (prefetch_hash f) v
    (filename_strings f) (volumes_array f).
Definition set_filename_strings v f :=
  mk (io_handle f) (file_io_handle f) (file_io_handle_created_in_library f)
    (file_io_handle_opened_in_library f) (prefetch_hash f) (file_information f)
    v (volumes_array f).
Definition set_volumes_array v f :=
  mk (io_handle f) (file_io_handle f) (file_io_handle_created_in_library f)
    (file_io_handle_opened_in_library f) (prefetch_hash f) (file_information f)
    (filename_strings f) v.
End Internal_file.

Abbreviation libscca_internal_file_t := Internal_file.t.

(** The caller's variable [libscca_file_t *file] with what it points to
    ([None] when it is [NULL]), and the world. A function that takes
    [libscca_file_t *file] is called on the variable's value; one that takes
    [libscca_file_t **file] is called on its address, or on [NULL]. *)
Record session : Type := mk_session {
  s_file : option libscca_internal_file_t;
  s_world : world
}.

Definition in_session {A} (m : M world A) : M session A := fun s =>
  let '(r, w) := m (s_world s) in (r, mk_session (s_file s) w).

Definition update_file (f : libscca_internal_file_t -> libscca_internal_file_t)
  : M session unit :=
  modify (fun s => mk_session (f <$> s_file s) (s_world s)).

Definition update_world (f : world -> world) : session -> session :=
  fun s => mk_session (s_file s) (f (s_world s)).

(** The memory that [memory_set( internal_file, 0, ... )] leaves. *)
Definition zeroed_file : libscca_internal_file_t :=
  Internal_file.mk None None 0 0 0 None None None.

(** The file handle that [libscca_file_initialize] makes. *)
Definition initialized_file : libscca_internal_file_t :=
  Internal_file.mk (Some zeroed_io_handle) None 0 0 0 None None (Some []).

(** [libscca_file_initialize( file, error )]: [file] is [None] for [NULL]
    and [Some tt] for the address of the session's variable. *)
Definition libscca_file_initialize (file : option unit) : M session unit :=
  match file with
  | None =>
      fail LIBCERROR_ERROR_DOMAIN_ARGUMENTS LIBCERROR_ARGUMENT_ERROR_INVALID_VALUE
        "libscca_file_initialize: invalid file."
  | Some _ =>
      s ← get;
      match s_file s with
      | Some _ =>
          fail LIBCERROR_ERROR_DOMAIN_RUNTIME LIBCERROR_RUNTIME_ERROR_VALUE_ALREADY_SET
            "libscca_file_initialize: invalid file value already set."
      | None =>
          in_session (checked memory_allocate
            LIBCERROR_ERROR_DOMAIN_MEMORY LIBCERROR_MEMORY_ERROR_INSUFFICIENT
            "libscca_file_initialize: unable to create file.");;
          let internal_file := zeroed_file in
          on_error
            (volumes_array ← in_session (checked libcdata_array_initialize
               LIBCERROR_ERROR_DOMAIN_RUNTIME LIBCERROR_RUNTIME_ERROR_INITIALIZE_FAILED
               "libscca_file_initialize: unable to create volumes array.");
             let internal_file :=
               Internal_file.set_volumes_array (Some volumes_array) internal_file in
             on_error
               (io_handle ← in_session (checked
                  (libscca_io_handle_initialize (Some (Internal_file.io_handle internal_file)))
                  LIBCERROR_ERROR_DOMAIN_RUNTIME LIBCERROR_RUNTIME_ERROR_INITIALIZE_FAILED
                  "libscca_file_initialize: unable to create IO handle.");
                let internal_file :=
                  Internal_file.set_io_handle (Some io_handle) internal_file in
                s ← get;
                put (mk_session (Some internal_file) (s_world s)))
               (update_world (libcdata_array_free
                  (Internal_file.volumes_array internal_file) (fun _ w => w))))
            (update_world memory_free)
      end
  end.

(** The session's file handle, once [file] is known not to be [NULL]. *)
Definition get_file : M session libscca_internal_file_t := fun s =>
  match s_file s with
  | Some internal_file => (Returned internal_file, s)
  | None => (Failed [], s)
  end.

(** A call of [libscca_io_handle_read_volumes_information] on the volumes
    array of the file handle. *)
Definition on_volumes_array {A} (m : M volumes_state A) : M session A := fun s =>
  let '(r, vs) :=
    m (mk_volumes_state (s_world s) (s_file s ≫= Internal_file.volumes_array)
         None None []) in
  (r, mk_session (Internal_file.set_volumes_array (vs_volumes_array vs) <$> s_file s)
        (vs_world vs)).

(** The statements at the label [on_error] of [libscca_file_open_read]. *)
Definition open_read_on_error (s : session) : session :=
  match s_file s with
  | None => s
  | Some internal_file =>
      let w := libfvalue_value_free (Internal_file.filename_strings internal_file)
                 (s_world s) in
      let internal_file := Internal_file.set_filename_strings None internal_file in
      let w := libscca_file_information_free
                 (Internal_file.file_information internal_file) w in
      let internal_file := Internal_file.set_file_information None internal_file in
      match libcdata_array_resize (Internal_file.volumes_array internal_file)
              libscca_internal_volume_information_free w with
      | (Returned volumes_array, w) =>
          mk_session
            (Some (Internal_file.set_volumes_array (Some volumes_array) internal_file)) w
      | (_, w) => mk_session (Some internal_file) w
      end
  end.

Section File_functions.
Context {D : Declarations}.

(** [libscca_file_open_read( internal_file, file_io_handle, error )]; the
    file handle is the session's. *)
Definition libscca_file_open_read (file_io_handle : option nat) : M session unit :=
  s ← get;
  match s_file s with
  | None =>
      fail LIBCERROR_ERROR_DOMAIN_ARGUMENTS LIBCERROR_ARGUMENT_ERROR_INVALID_VALUE
        "libscca_file_open_read: invalid file."
  | Some internal_file =>
      match Internal_file.io_handle internal_file with
      | None =>
          fail LIBCERROR_ERROR_DOMAIN_RUNTIME LIBCERROR_RUNTIME_ERROR_VALUE_MISSING
            "libscca_file_open_read: invalid file - missing IO handle."
      | Some io_handle =>
          if decide (Internal_file.file_information internal_file ≠ None) then
            fail LIBCERROR_ERROR_DOMAIN_RUNTIME LIBCERROR_RUNTIME_ERROR_VALUE_ALREADY_SET
              "libscca_file_open_read: invalid file - file information value already set."
          else if decide (Internal_file.filename_strings internal_file ≠ None) then
            fail LIBCERROR_ERROR_DOMAIN_RUNTIME LIBCERROR_RUNTIME_ERROR_VALUE_ALREADY_SET
              "libscca_file_open_read: invalid file - filename strings value already set."
          else
            (if decide (abort io_handle ≠ 0)
             then update_file (Internal_file.set_io_handle
                    (Some (mk_io_handle (format_version io_handle) (file_size io_handle) 0)))
             else mret tt);;
            on_error
              (internal_file ← get_file;
               '(io_handle, prefetch_hash) ← in_session (checked
                 (libscca_io_handle_read_file_header
                    (Internal_file.io_handle internal_file) file_io_handle)
                 LIBCERROR_ERROR_DOMAIN_IO LIBCERROR_IO_ERROR_READ_FAILED
                 "libscca_file_open_read: unable to read file header.");
               update_file (Internal_file.set_io_handle (Some io_handle));;
               update_file (Internal_file.set_prefetch_hash prefetch_hash);;
               internal_file ← get_file;
               file_information ← in_session (checked
                 (libscca_file_information_initialize
                    (Internal_file.file_information internal_file))
                 LIBCERROR_ERROR_DOMAIN_RUNTIME LIBCERROR_RUNTIME_ERROR_INITIALIZE_FAILED
                 "libscca_file_open_read: unable to create file information.");
               update_file (Internal_file.set_file_information (Some file_information));;
               file_information ← in_session (checked
                 (libscca_file_information_read file_information file_io_handle
                    (Internal_file.io_handle internal_file))
                 LIBCERROR_ERROR_DOMAIN_IO LIBCERROR_IO_ERROR_READ_FAILED
                 "libscca_file_open_read: unable to read file information.");
               update_file (Internal_file.set_file_information (Some file_information));;
               (if decide (filename_strings_offset file_information ≠ 0) then
                  (* TODO check bounds filename_strings_offset < file_header,
                     filename_strings_offset > file_size *)
                  filename_strings ← in_session (checked
                    (libfvalue_value_type_initialize
                       (Internal_file.filename_strings internal_file))
                    LIBCERROR_ERROR_DOMAIN_RUNTIME LIBCERROR_RUNTIME_ERROR_INITIALIZE_FAILED
                    "libscca_file_open_read: unable to create filename strings value.");
                  update_file (Internal_file.set_filename_strings (Some filename_strings));;
                  filename_strings ← in_session (checked
                    (libscca_io_handle_read_filename_strings
                       (Internal_file.io_handle internal_file) file_io_handle
                       (filename_strings_offset file_information)
                       (filename_strings_size file_information)
                       (Some filename_strings))
                    LIBCERROR_ERROR_DOMAIN_IO LIBCERROR_IO_ERROR_READ_FAILED
                    "libscca_file_open_read: unable to read filename strings.");
                  update_file (Internal_file.set_filename_strings (Some filename_strings))
                else mret tt);;
               (if decide (volumes_information_offset file_information ≠ 0) then
                  checked
                    (on_volumes_array (libscca_io_handle_read_volumes_information
                       (Internal_file.io_handle internal_file)
                       (Internal_file.file_io_handle internal_file)
                       (volumes_information_offset file_information)
                       (volumes_information_size file_information)
                       (number_of_volumes file_information)))
                    LIBCERROR_ERROR_DOMAIN_IO LIBCERROR_IO_ERROR_READ_FAILED
                    "libscca_file_open_read: unable to read volumes information."
                else mret tt))
              open_read_on_error
      end
  end.

(** The two checks of the access flags that every open function makes. *)
Definition check_access_flags {A} (function : string) (access_flags : Z)
    (continue : M session A) : M session A :=
  if decide (Z.land access_flags LIBSCCA_ACCESS_FLAG_READ = 0
             ∧ Z.land access_flags LIBSCCA_ACCESS_FLAG_WRITE = 0) then
    fail LIBCERROR_ERROR_DOMAIN_ARGUMENTS LIBCERROR_ARGUMENT_ERROR_UNSUPPORTED_VALUE
      (function ++ ": unsupported access flags.")
  else if decide (Z.land access_flags LIBSCCA_ACCESS_FLAG_WRITE ≠ 0) then
    fail LIBCERROR_ERROR_DOMAIN_ARGUMENTS LIBCERROR_ARGUMENT_ERROR_UNSUPPORTED_VALUE
      (function ++ ": write access currently not supported.")
  else continue.

(** The statements at the label [on_error] of
    [libscca_file_open_file_io_handle]. *)
Definition open_file_io_handle_on_error (file_io_handle : option nat)
    (file_io_handle_is_open : Z) (s : session) : session :=
  match s_file s with
  | None => s
  | Some internal_file =>
      let '(internal_file, w) :=
        if decide (file_io_handle_is_open = 0
                   ∧ Internal_file.file_io_handle_opened_in_library internal_file ≠ 0)
        then (Internal_file.set_file_io_handle_opened_in_library 0 internal_file,
              ignoring (libbfio_handle_close file_io_handle) (s_world s))
        else (internal_file, s_world s) in
      mk_session (Some (Internal_file.set_file_io_handle None internal_file)) w
  end.

(** [libscca_file_open_file_io_handle( file, file_io_handle, access_flags,
    error )] *)
Definition libscca_file_open_file_io_handle (file_io_handle : option nat)
    (access_flags : Z) : M session unit :=
  s ← get;
  match s_file s with
  | None =>
      fail LIBCERROR_ERROR_DOMAIN_ARGUMENTS LIBCERROR_ARGUMENT_ERROR_INVALID_VALUE
        "libscca_file_open_file_io_handle: invalid file."
  | Some internal_file =>
      if decide (Internal_file.file_io_handle internal_file ≠ None) then
        fail LIBCERROR_ERROR_DOMAIN_RUNTIME LIBCERROR_RUNTIME_ERROR_VALUE_ALREADY_SET
          "libscca_file_open_file_io_handle: invalid file - file IO handle already set."
      else if decide (file_io_handle = None) then
        fail LIBCERROR_ERROR_DOMAIN_ARGUMENTS LIBCERROR_ARGUMENT_ERROR_INVALID_VALUE
          "libscca_file_open_file_io_handle: invalid file IO handle."
      else
        check_access_flags "libscca_file_open_file_io_handle" access_flags
          (let bfio_access_flags :=
             if decide (Z.land access_flags LIBSCCA_ACCESS_FLAG_READ ≠ 0)
             then LIBBFIO_ACCESS_FLAG_READ else 0 in
           update_file (Internal_file.set_file_io_handle file_io_handle);;
           on_error
             (in_session (checked (libbfio_handle_is_open file_io_handle)
                LIBCERROR_ERROR_DOMAIN_IO LIBCERROR_IO_ERROR_OPEN_FAILED
                "libscca_file_open_file_io_handle: unable to determine if file IO handle is open."))
             (open_file_io_handle_on_error file_io_handle (-1)) ≫= fun file_io_handle_is_open =>
           on_error
             ((if decide (file_io_handle_is_open = 0) then
                 in_session (checked (libbfio_handle_open file_io_handle bfio_access_flags)
                   LIBCERROR_ERROR_DOMAIN_IO LIBCERROR_IO_ERROR_OPEN_FAILED
                   "libscca_file_open_file_io_handle: unable to open file IO handle.");;
                 update_file (Internal_file.set_file_io_handle_opened_in_library 1)
               else mret tt);;
              checked (libscca_file_open_read file_io_handle)
                LIBCERROR_ERROR_DOMAIN_IO LIBCERROR_IO_ERROR_READ_FAILED
                "libscca_file_open_file_io_handle: unable to read from file handle.";;
              update_file (Internal_file.set_file_io_handle file_io_handle))
             (open_file_io_handle_on_error file_io_handle file_io_handle_is_open))
  end.

(** The part that [libscca_file_open] and [libscca_file_open_wide] share
    once the arguments are checked: the statements from
    [libbfio_file_initialize] on, with the label [on_error]. *)
Definition open_named (function : string) (name : libbfio_name) (access_flags : Z)
  : M session unit :=
  file_io_handle ← in_session (checked libbfio_file_initialize
    LIBCERROR_ERROR_DOMAIN_RUNTIME LIBCERROR_RUNTIME_ERROR_INITIALIZE_FAILED
    (function ++ ": unable to create file IO handle."));
  on_error
    (in_session (checked (libbfio_file_set_name (Some file_io_handle) name)
       LIBCERROR_ERROR_DOMAIN_RUNTIME LIBCERROR_RUNTIME_ERROR_SET_FAILED
       (function ++ ": unable to set filename in file IO handle."));;
     checked (libscca_file_open_file_io_handle (Some file_io_handle) access_flags)
       LIBCERROR_ERROR_DOMAIN_IO LIBCERROR_IO_ERROR_OPEN_FAILED
       (function ++ ": unable to open file.");;
     update_file (Internal_file.set_file_io_handle_created_in_library 1))
    (update_world (ignoring (libbfio_handle_free (Some file_io_handle)))).

(** [libscca_file_open( file, filename, access_flags, error )] *)
Definition libscca_file_open (filename : option string) (access_flags : Z)
  : M session unit :=
  s ← get;
  match s_file s, filename with
  | None, _ =>
      fail LIBCERROR_ERROR_DOMAIN_ARGUMENTS LIBCERROR_ARGUMENT_ERROR_INVALID_VALUE
        "libscca_file_open: invalid file."
  | Some _, None =>
      fail LIBCERROR_ERROR_DOMAIN_ARGUMENTS LIBCERROR_ARGUMENT_ERROR_INVALID_VALUE
        "libscca_file_open: invalid filename."
  | Some _, Some filename =>
      check_access_flags "libscca_file_open" access_flags
        (open_named "libscca_file_open" (narrow_name filename) access_flags)
  end.

(** [libscca_file_open_wide( file, filename, access_flags, error )], of the
    builds with [HAVE_WIDE_CHARACTER_TYPE]. *)
Definition libscca_file_open_wide (filename : option (list Z)) (access_flags : Z)
  : M session unit :=
  s ← get;
  match s_file s, filename with
  | None, _ =>
      fail LIBCERROR_ERROR_DOMAIN_ARGUMENTS LIBCERROR_ARGUMENT_ERROR_INVALID_VALUE
        "libscca_file_open_wide: invalid file."
  | Some _, None =>
      fail LIBCERROR_ERROR_DOMAIN_ARGUMENTS LIBCERROR_ARGUMENT_ERROR_INVALID_VALUE
        "libscca_file_open_wide: invalid filename."
  | Some _, Some filename =>
      check_access_flags "libscca_file_open_wide" access_flags
        (open_named "libscca_file_open_wide" (wide_name filename) access_flags)
  end.

(** [libscca_file_signal_abort( file, error )] *)
Definition libscca_file_signal_abort : M session unit :=
  s ← get;
  match s_file s with
  | None =>
      fail LIBCERROR_ERROR_DOMAIN_ARGUMENTS LIBCERROR_ARGUMENT_ERROR_INVALID_VALUE
        "libscca_file_signal_abort: invalid file."
  | Some internal_file =>
      match Internal_file.io_handle internal_file with
      | None =>
          fail LIBCERROR_ERROR_DOMAIN_RUNTIME LIBCERROR_RUNTIME_ERROR_VALUE_MISSING
            "libscca_file_signal_abort: invalid file - missing IO handle."
      | Some io_handle =>
          update_file (Internal_file.set_io_handle
            (Some (mk_io_handle (format_version io_handle) (file_size io_handle) 1)))
      end
  end.

(** The local [result] of [libscca_file_close], the error, and the session:
    the function goes on after a call that fails, with [result] set to -1. *)
Record close_state : Type := mk_close_state {
  cs_result : Z;
  cs_error : libcerror_error_t;
  cs_session : session
}.

(** [if( call( ... ) != success ) { libcerror_error_set( ... ); result = -1; }] *)
Definition attempt {A} (call : M session A)
    (domain : libcerror_domain) (code : libcerror_code) (message : string)
    (c : close_state) : close_state :=
  match call (cs_session c) with
  | (Failed e, s) =>
      mk_close_state (-1) (libcerror_error_set (cs_error c ++ e) domain code message) s
  | (_, s) => mk_close_state (cs_result c) (cs_error c) s
  end.

Definition proceed (f : libscca_internal_file_t -> libscca_internal_file_t)
    (c : close_state) : close_state :=
  mk_close_state (cs_result c) (cs_error c)
    (mk_session (f <$> s_file (cs_session c)) (s_world (cs_session c))).

Definition close_file (c : close_state) : option libscca_internal_file_t :=
  s_file (cs_session c).

(** The statements of [libscca_file_close] after the checks of its
    argument, one definition for each; [f] is the file handle when the
    statement is reached. *)
Definition close_file_io_handle (f : libscca_internal_file_t) (c : close_state)
  : close_state :=
  if decide (Internal_file.file_io_handle_opened_in_library f ≠ 0) then
    proceed (Internal_file.set_file_io_handle_opened_in_library 0)
      (attempt (in_session (libbfio_handle_close (Internal_file.file_io_handle f)))
         LIBCERROR_ERROR_DOMAIN_IO LIBCERROR_IO_ERROR_CLOSE_FAILED
         "libscca_file_close: unable to close file IO handle." c)
  else c.

Definition close_free_file_io_handle (f : libscca_internal_file_t) (c : close_state)
  : close_state :=
  if decide (Internal_file.file_io_handle_created_in_library f ≠ 0) then
    proceed (Internal_file.set_file_io_handle_created_in_library 0)
      (attempt
         (in_session (libbfio_handle_free (Internal_file.file_io_handle f));;
          update_file (Internal_file.set_file_io_handle None))
         LIBCERROR_ERROR_DOMAIN_RUNTIME LIBCERROR_RUNTIME_ERROR_FINALIZE_FAILED
         "libscca_file_close: unable to free file IO handle." c)
  else c.

Definition close_clear_io_handle (f : libscca_internal_file_t) (c : close_state)
  : close_state :=
  attempt
    (io_handle ← libscca_io_handle_clear (Internal_file.io_handle f);
     update_file (Internal_file.set_io_handle (Some io_handle)))
    LIBCERROR_ERROR_DOMAIN_RUNTIME LIBCERROR_RUNTIME_ERROR_FINALIZE_FAILED
    "libscca_file_close: unable to clear IO handle." c.

Definition close_free_file_information (f : libscca_internal_file_t) (c : close_state)
  : close_state :=
  match Internal_file.file_information f with
  | Some file_information =>
      attempt
        (in_session (modify (libscca_file_information_free (Some file_information)));;
         update_file (Internal_file.set_file_information None))
        LIBCERROR_ERROR_DOMAIN_RUNTIME LIBCERROR_RUNTIME_ERROR_FINALIZE_FAILED
        "libscca_file_close: unable to free file information." c
  | None => c
  end.

Definition close_free_filename_strings (f : libscca_internal_file_t) (c : close_state)
  : close_state :=
  match Internal_file.filename_strings f with
  | Some filename_strings =>
      attempt
        (in_session (modify (libfvalue_value_free (Some filename_strings)));;
         update_file (Internal_file.set_filename_strings None))
        LIBCERROR_ERROR_DOMAIN_RUNTIME LIBCERROR_RUNTIME_ERROR_FINALIZE_FAILED
        "libscca_file_close: unable to free filename strings." c
  | None => c
  end.

Definition close_resize_volumes_array (f : libscca_internal_file_t) (c : close_state)
  : close_state :=
  attempt
    (volumes_array ← in_session (libcdata_array_resize
       (Internal_file.volumes_array f) libscca_internal_volume_information_free);
     update_file (Internal_file.set_volumes_array (Some volumes_array)))
    LIBCERROR_ERROR_DOMAIN_RUNTIME LIBCERROR_RUNTIME_ERROR_RESIZE_FAILED
    "libscca_file_close: unable to resize volumes array." c.

(** A statement of [libscca_file_close], run on the file handle as it is. *)
Definition then_close (statement : libscca_internal_file_t -> close_state -> close_state)
    (c : close_state) : close_state :=
  match close_file c with
  | Some f => statement f c
  | None => c
  end.

(** [libscca_file_close( file, error )]: [Returned 0] is the return value 0,
    [Failed] the return value -1. *)
Definition libscca_file_close : M session Z := fun s =>
  match s_file s with
  | None =>
      fail LIBCERROR_ERROR_DOMAIN_ARGUMENTS LIBCERROR_ARGUMENT_ERROR_INVALID_VALUE
        "libscca_file_close: invalid file." s
  | Some internal_file =>
      if decide (Internal_file.file_io_handle internal_file = None) then
        fail LIBCERROR_ERROR_DOMAIN_RUNTIME LIBCERROR_RUNTIME_ERROR_VALUE_MISSING
          "libscca_file_close: invalid file - missing file IO handle." s
      else
        let c := mk_close_state 0 [] s in
        let c := then_close close_file_io_handle c in
        let c := then_close close_free_file_io_handle c in
        let c := proceed (Internal_file.set_file_io_handle None) c in
        let c := then_close close_clear_io_handle c in
        let c := proceed (Internal_file.set_prefetch_hash 0) c in
        let c := then_close close_free_file_information c in
        let c := then_close close_free_filename_strings c in
        let c := then_close close_resize_volumes_array c in
        if decide (cs_result c = 0)
        then (Returned 0, cs_session c)
        else (Failed (cs_error c), cs_session c)
  end.

(** [libscca_file_get_format_version( file, &format_version, error )] *)
Definition libscca_file_get_format_version : M session Z :=
  s ← get;
  match s_file s with
  | None =>
      fail LIBCERROR_ERROR_DOMAIN_ARGUMENTS LIBCERROR_ARGUMENT_ERROR_INVALID_VALUE
        "libscca_file_get_format_version: invalid file."
  | Some internal_file =>
      match Internal_file.io_handle internal_file with
      | None =>
          fail LIBCERROR_ERROR_DOMAIN_RUNTIME LIBCERROR_RUNTIME_ERROR_VALUE_MISSING
            "libscca_file_get_format_version: invalid internal file - missing IO handle."
      | Some io_handle => mret (format_version io_handle)
      end
  end.

(** [libscca_file_get_number_of_filenames( file, &number_of_filenames, error )] *)
Definition libscca_file_get_number_of_filenames : M session Z :=
  s ← get;
  match s_file s with
  | None =>
      fail LIBCERROR_ERROR_DOMAIN_ARGUMENTS LIBCERROR_ARGUMENT_ERROR_INVALID_VALUE
        "libscca_file_get_number_of_filenames: invalid file."
  | Some internal_file =>
      checked
        (fun s => (libfvalue_value_get_number_of_value_entries
                     (Internal_file.filename_strings internal_file), s))
        LIBCERROR_ERROR_DOMAIN_RUNTIME LIBCERROR_RUNTIME_ERROR_GET_FAILED
        "libscca_file_get_number_of_filenames: unable to retrieve number of filename strings."
  end.

(** [libscca_file_get_number_of_volumes( file, &number_of_volumes, error )] *)
Definition libscca_file_get_number_of_volumes : M session Z :=
  s ← get;
  match s_file s with
  | None =>
      fail LIBCERROR_ERROR_DOMAIN_ARGUMENTS LIBCERROR_ARGUMENT_ERROR_INVALID_VALUE
        "libscca_file_get_number_of_volumes: invalid file."
  | Some internal_file =>
      checked
        (fun s => (libcdata_array_get_number_of_entries
                     (Internal_file.volumes_array internal_file), s))
        LIBCERROR_ERROR_DOMAIN_RUNTIME LIBCERROR_RUNTIME_ERROR_GET_FAILED
        "libscca_file_get_number_of_volumes: unable to retrieve number of volumes."
  end.

End File_functions.

(** [libscca_file_get_prefetch_hash( file, &prefetch_hash, error )] *)
Definition libscca_file_get_prefetch_hash : M session Z :=
  s ← get;
  match s_file s with
  | None =>
      fail LIBCERROR_ERROR_DOMAIN_ARGUMENTS LIBCERROR_ARGUMENT_ERROR_INVALID_VALUE
        "libscca_file_get_prefetch_hash: invalid file."
  | Some internal_file =>
      match Internal_file.io_handle internal_file with
      | None =>
          fail LIBCERROR_ERROR_DOMAIN_RUNTIME LIBCERROR_RUNTIME_ERROR_VALUE_MISSING
            "libscca_file_get_prefetch_hash: invalid internal file - missing IO handle."
      | Some _ => mret (Internal_file.prefetch_hash internal_file)
      end
  end.

(** [libscca_file_get_volume_information( file, volume_index,
    &volume_information, error )]: the entry of the volumes array itself is
    returned, not a copy. *)
Definition libscca_file_get_volume_information (volume_index : Z)
  : M session libscca_internal_volume_information_t :=
  s ← get;
  match s_file s with
  | None =>
      fail LIBCERROR_ERROR_DOMAIN_ARGUMENTS LIBCERROR_ARGUMENT_ERROR_INVALID_VALUE
        "libscca_file_get_volume_information: invalid file."
  | Some internal_file =>
      match Internal_file.io_handle internal_file with
      | None =>
          fail LIBCERROR_ERROR_DOMAIN_RUNTIME LIBCERROR_RUNTIME_ERROR_VALUE_MISSING
            "libscca_file_get_volume_information: invalid internal file - missing file information."
      | Some _ =>
          checked
            (fun s => (libcdata_array_get_entry_by_index
                         (Internal_file.volumes_array internal_file) volume_index, s))
            LIBCERROR_ERROR_DOMAIN_RUNTIME LIBCERROR_RUNTIME_ERROR_GET_FAILED
            ("libscca_file_get_volume_information: unable to retrieve volume: "
             ++ NilZero.string_of_int (Z.to_int volume_index) ++ " information.")
      end
  end.

(** [libscca_file_free( file, error )]: [file] is [None] for [NULL] and
    [Some tt] for the address of the session's variable. The result starts
    at 1 and becomes -1 when [libscca_file_close] does not return 0; the
    local [internal_file] still points to the file handle after
    [*file = NULL], and the volumes array, the IO handle and the file handle
    itself are freed whatever the result is. *)
Definition libscca_file_free (file : option unit) : M session unit :=
  match file with
  | None =>
      fail LIBCERROR_ERROR_DOMAIN_ARGUMENTS LIBCERROR_ARGUMENT_ERROR_INVALID_VALUE
        "libscca_file_free: invalid file."
  | Some _ => fun s =>
      match s_file s with
      | None => (Returned tt, s)
      | Some internal_file =>
          let c := mk_close_state 1 [] s in
          let c :=
            if decide (Internal_file.file_io_handle internal_file ≠ None) then
              attempt libscca_file_close
                LIBCERROR_ERROR_DOMAIN_IO LIBCERROR_IO_ERROR_CLOSE_FAILED
                "libscca_file_free: unable to close file." c
            else c in
          let w := libcdata_array_free (close_file c ≫= Internal_file.volumes_array)
                     libscca_internal_volume_information_free
                     (s_world (cs_session c)) in
          let w := libscca_io_handle_free (close_file c ≫= Internal_file.io_handle) w in
          let w := memory_free w in
          if decide (cs_result c = 1)
          then (Returned tt, mk_session None w)
          else (Failed (cs_error c), mk_session None w)
      end
  end.

(** ** The decoder of the file information, from the specification *)

(** Modelled from the spec: the size of the file information that follows
    the header: 156 bytes for version 17, 224 bytes for versions 23 and 26. *)
Definition file_information_data_size (format_version : Z) : option Z :=
  if decide (format_version = 17) then Some 156
  else if decide (format_version = 23) then Some 224
  else if decide (format_version = 26) then Some 224
  else None.

(** Modelled from the spec: a non-zero offset is checked against
    [[84, file_size_declared]]. *)
Definition offset_in_bounds (file_size offset : Z) : bool :=
  bool_decide (offset = 0 ∨ (sizeof_scca_file_header_t <= offset ∧ offset <= file_size)).

(** Modelled from the spec: [libscca_file_information_read] of
    [libscca_file_information.c], which is not among the sources: it reads
    the file information immediately after the header into one buffer that
    it releases before returning, decodes the nine fields that all versions
    share, in their order, and checks each offset. *)
Definition spec_file_information_read (file_information : libscca_file_information_t)
    (file_io_handle : option nat) (io_handle : option libscca_io_handle_t)
  : M world libscca_file_information_t :=
  match io_handle ≫= fun io_handle =>
          pair io_handle <$> file_information_data_size (format_version io_handle) with
  | None =>
      fail LIBCERROR_ERROR_DOMAIN_ARGUMENTS LIBCERROR_ARGUMENT_ERROR_UNSUPPORTED_VALUE
        "libscca_file_information_read: unsupported format version."
  | Some (io_handle, read_size) =>
      checked (libbfio_handle_seek_offset file_io_handle sizeof_scca_file_header_t)
        LIBCERROR_ERROR_DOMAIN_IO LIBCERROR_IO_ERROR_SEEK_FAILED
        "libscca_file_information_read: unable to seek file information offset.";;
      checked memory_allocate
        LIBCERROR_ERROR_DOMAIN_MEMORY LIBCERROR_MEMORY_ERROR_INSUFFICIENT
        "libscca_file_information_read: unable to create file information data.";;
      on_error
        (data ← checked (libbfio_handle_read_buffer file_io_handle read_size)
           LIBCERROR_ERROR_DOMAIN_IO LIBCERROR_IO_ERROR_READ_FAILED
           "libscca_file_information_read: unable to read file information data.";
         if decide (Z.of_nat (length data) ≠ read_size) then
           fail LIBCERROR_ERROR_DOMAIN_IO LIBCERROR_IO_ERROR_READ_FAILED
             "libscca_file_information_read: unable to read file information data."
         else
           let field := fun index : nat =>
             byte_stream_copy_to_uint32_little_endian (slice (4 * index) 4 data) in
           let decoded := mk_file_information (field 0%nat) (field 1%nat) (field 2%nat)
             (field 3%nat) (field 4%nat) (field 5%nat) (field 6%nat) (field 7%nat)
             (field 8%nat) in
           if forallb (offset_in_bounds (file_size io_handle))
                [metrics_array_offset decoded; trace_chain_array_offset decoded;
                 filename_strings_offset decoded; volumes_information_offset decoded]
           then modify memory_free;; mret decoded
           else
             fail LIBCERROR_ERROR_DOMAIN_RUNTIME LIBCERROR_RUNTIME_ERROR_VALUE_OUT_OF_BOUNDS
               "libscca_file_information_read: offset out of bounds.")
        memory_free
  end.

(** ** Prefetch files to run the decoders on *)

Module Example.

Definition uint32_bytes (n : Z) : list Z :=
  [n mod 256; (n / 2 ^ 8) mod 256; (n / 2 ^ 16) mod 256; (n / 2 ^ 24) mod 256].

Definition uint64_bytes (n : Z) : list Z :=
  uint32_bytes (n mod 2 ^ 32) ++ uint32_bytes (n / 2 ^ 32).

Definition zeros (n : nat) : list Z := replicate n 0.

(** A file header: the format version, the signature, the file size, the
    executable filename [A.EXE] and the prefetch hash [0xdeadbeef]. *)
Definition file_header_with (signature : list Z) (format_version file_size : Z) : list Z :=
  uint32_bytes format_version ++ signature ++ zeros 4 ++ uint32_bytes file_size
  ++ [65; 0; 46; 0; 69; 0; 88; 0; 69; 0] ++ zeros 50
  ++ uint32_bytes 3735928559 ++ zeros 4.

Definition file_header (format_version file_size : Z) : list Z :=
  file_header_with scca_file_signature format_version file_size.

(** A file information of [size] bytes with no metrics and no trace chain. *)
Definition file_information (size : nat) (filename_strings_offset filename_strings_size
    volumes_information_offset number_of_volumes volumes_information_size : Z) : list Z :=
  zeros 16 ++ uint32_bytes filename_strings_offset ++ uint32_bytes filename_strings_size
  ++ uint32_bytes volumes_information_offset ++ uint32_bytes number_of_volumes
  ++ uint32_bytes volumes_information_size ++ zeros (size - 36).

(** A volume information record of version 23, of 96 bytes. *)
Definition volume_information (device_path_offset device_path_number_of_characters
    creation_time serial_number file_references_offset file_references_size
    directory_strings_array_offset number_of_directory_strings : Z) : list Z :=
  uint32_bytes device_path_offset ++ uint32_bytes device_path_number_of_characters
  ++ uint64_bytes creation_time ++ uint32_bytes serial_number
  ++ uint32_bytes file_references_offset ++ uint32_bytes file_references_size
  ++ uint32_bytes directory_strings_array_offset
  ++ uint32_bytes number_of_directory_strings ++ zeros 60.

(** The file references of a volume: the version, their number, 8 bytes,
    and the references after the first. *)
Definition file_references (number_of_file_references : Z) (references : list Z) : list Z :=
  uint32_bytes 3 ++ uint32_bytes number_of_file_references ++ zeros 8
  ++ concat (uint64_bytes <$> references).

(** The minimal file of version 17: a header and a file information with
    every offset zero and no volume. *)
Definition minimal_file : list Z :=
  file_header 17 240 ++ file_information 156 0 0 0 0 0.

(** A file of version 23 with [number_of_volumes] volumes in the volumes
    information [block], which follows the file information. *)
Definition file_with_volumes (number_of_volumes : Z) (block : list Z) : list Z :=
  file_header 23 (308 + Z.of_nat (length block))
  ++ file_information 224 0 0 308 number_of_volumes (Z.of_nat (length block))
  ++ block.

(** One volume with the device path [C:], the file references [0x42] and
    [0x43] after the first, and the directory string [A]. *)
Definition volume_block : list Z :=
  volume_information 128 2 130000000000000000 305419896 96 32 132 1
  ++ file_references 3 [281474976710722; 562949953421379]
  ++ [67; 0; 58; 0] ++ [65; 0; 0; 0].

(** The same volume with the file references said to be at offset 1000. *)
Definition volume_block_file_references_outside : list Z :=
  volume_information 128 2 130000000000000000 305419896 1000 32 132 1
  ++ file_references 3 [281474976710722; 562949953421379]
  ++ [67; 0; 58; 0] ++ [65; 0; 0; 0].

(** The same volume with a device path of 100 characters at offset 128. *)
Definition volume_block_device_path_outside : list Z :=
  volume_information 128 100 130000000000000000 305419896 96 32 132 1
  ++ file_references 3 [281474976710722; 562949953421379]
  ++ [67; 0; 58; 0] ++ [65; 0; 0; 0].

(** The same volume with the directory strings said to be at offset 200. *)
Definition volume_block_directory_strings_outside : list Z :=
  volume_information 128 2 130000000000000000 305419896 96 32 200 1
  ++ file_references 3 [281474976710722; 562949953421379]
  ++ [67; 0; 58; 0] ++ [65; 0; 0; 0].

(** One volume without device path, file references or directory strings. *)
Definition volume_block_one_record : list Z :=
  volume_information 0 0 130000000000000000 305419896 0 0 0 0.

(** Two volumes, the first with the device path [A], the second with
    directory strings of an odd number of bytes. *)
Definition volume_block_malformed_strings : list Z :=
  volume_information 192 1 130000000000000000 305419896 0 0 0 0
  ++ volume_information 0 0 130000000000000000 305419896 0 0 192 1
  ++ [65; 0; 0].

(** A world with room for 100 blocks and one handle, not yet open, on a
    source with the content [data]. *)
Definition world_with (data : list Z) : world :=
  mk_world 0 100 [Some (mk_bfio (Some data) false 0)] (fun _ => None).

(** The session of a caller whose variable [file] is [NULL]. *)
Definition session_with (data : list Z) : session :=
  mk_session None (world_with data).

(** The session after [libscca_file_initialize( &file, &error )]. *)
Definition initialized (data : list Z) : session :=
  snd (libscca_file_initialize (Some tt) (session_with data)).

(** The session in which [libscca_file_open_file_io_handle] calls
    [libscca_file_open_read]: the handle open and set in the file handle. *)
Definition ready_to_read (data : list Z) : session :=
  mk_session
    (Some (Internal_file.set_file_io_handle_opened_in_library 1
             (Internal_file.set_file_io_handle (Some 0%nat) initialized_file)))
    (mk_world 3 100 [Some (mk_bfio (Some data) true 0)] (fun _ => None)).

(** The state in which [libscca_file_open_read] calls the decoder of the
    volumes information of [file_with_volumes]: the handle open, and the
    file's volumes array empty. *)
Definition volumes_state_with (data : list Z) : volumes_state :=
  mk_volumes_state
    (mk_world 0 100 [Some (mk_bfio (Some data) true 0)] (fun _ => None))
    (Some []) None None [].

(** The state of the decoder of the volumes information in its loop, the
    volumes information data [block] read. *)
Definition volumes_state_with_data (block : list Z) : volumes_state :=
  mk_volumes_state (mk_world 1 100 [] (fun _ => None)) (Some []) None (Some block) [].

End Example.

(** ** What the state of the volumes decoder holds of the heap *)

(** The blocks that a volume information holds: itself, its device path and
    its directory strings. *)
Definition volume_information_blocks (v : libscca_internal_volume_information_t) : Z :=
  1 + (match device_path v with Some _ => 1 | None => 0 end)
    + (match directory_strings v with Some _ => 1 | None => 0 end).

Definition volumes_array_blocks
    (array : option (libcdata_array_t libscca_internal_volume_information_t)) : Z :=
  foldr (fun v n => volume_information_blocks v + n) 0 (default [] array).

(** The blocks that the state of the decoder holds: those of the volumes
    in the array, those of the volume information being decoded, and the
    buffer. *)
Definition volumes_state_blocks (s : volumes_state) : Z :=
  volumes_array_blocks (vs_volumes_array s)
  + from_option volume_information_blocks 0 (vs_volume_information s)
  + (match vs_volumes_information_data s with Some _ => 1 | None => 0 end).

(** From [s0] to [s] every block allocated is held by the state, every block
    no longer held is freed, and the volumes array is still there. *)
Definition volumes_balanced (s0 s : volumes_state) : Prop :=
  heap_live (vs_world s) - volumes_state_blocks s
  = heap_live (vs_world s0) - volumes_state_blocks s0
  ∧ (is_Some (vs_volumes_array s0) -> is_Some (vs_volumes_array s)).

(** The same, with the buffer of [s0] still the buffer. *)
Definition volumes_kept (s0 s : volumes_state) : Prop :=
  volumes_balanced s0 s
  ∧ vs_volumes_information_data s = vs_volumes_information_data s0.

(** Only the list of the reads differs. *)
Definition same_but_reads (s s' : volumes_state) : Prop :=
  vs_world s' = vs_world s
  ∧ vs_volumes_array s' = vs_volumes_array s
  ∧ vs_volume_information s' = vs_volume_information s
  ∧ vs_volumes_information_data s' = vs_volumes_information_data s.

(** The volume information being decoded holds neither a device path nor
    directory strings yet. *)
Definition bare (s : volumes_state) : Prop :=
  exists v, vs_volume_information s = Some v
            ∧ device_path v = None ∧ directory_strings v = None.

(** The volume information being decoded holds no directory strings yet. *)
Definition without_directory_strings (s : volumes_state) : Prop :=
  exists v, vs_volume_information s = Some v ∧ directory_strings v = None.

(** The blocks that the parse has hung on the file handle: the file
    information, the filename strings and the volumes. *)
Definition file_blocks (f : libscca_internal_file_t) : Z :=
  (match Internal_file.file_information f with Some _ => 1 | None => 0 end)
  + (match Internal_file.filename_strings f with Some _ => 1 | None => 0 end)
  + volumes_array_blocks (Internal_file.volumes_array f).

(** Nothing of a parse hangs on the file handle, and [live] blocks are
    allocated. *)
Definition nothing_parsed (live : Z) (s : session) : Prop :=
  exists f, s_file s = Some f
    ∧ Internal_file.file_information f = None
    ∧ Internal_file.filename_strings f = None
    ∧ Internal_file.volumes_array f = Some []
    ∧ heap_live (s_world s) = live.

(** Apart from what hangs on the file handle, [live] blocks are allocated. *)
Definition parsing (live : Z) (s : session) : Prop :=
  exists f, s_file s = Some f
    ∧ is_Some (Internal_file.volumes_array f)
    ∧ heap_live (s_world s) - file_blocks f = live.

(** ** Outcomes and states that the properties speak of *)

(** The function returned -1. *)
Definition failed {A} (o : outcome A) : bool :=
  match o with
  | Failed _ => true
  | _ => false
  end.

(** The function returned 1 (0 for [libscca_file_close]). *)
Definition returned {A} (o : outcome A) : bool :=
  match o with
  | Returned _ => true
  | _ => false
  end.

(** The file handle of the session is as [libscca_file_initialize] and
    [libscca_file_close] leave it: no file IO handle is set and nothing of a
    parse hangs on it. *)
Definition unopened (s : session) : Prop :=
  exists f, s_file s = Some f
    ∧ Internal_file.file_io_handle f = None
    ∧ Internal_file.file_information f = None
    ∧ Internal_file.filename_strings f = None
    ∧ Internal_file.volumes_array f = Some [].

(** Nothing of a parse hangs on the file handle of the session. *)
Definition not_parsed (s : session) : Prop :=
  exists f, s_file s = Some f
    ∧ Internal_file.file_information f = None
    ∧ Internal_file.filename_strings f = None
    ∧ Internal_file.volumes_array f = Some [].



(** The value of 64 bits that the loop over the file references decodes at
    the index [index], in its body for debug output. *)
Definition file_reference_at (data : list Z) (file_references_offset index : Z) : Z :=
  byte_stream_copy_to_uint64_little_endian
    (slice (Z.to_nat (file_references_offset + 8 + index * 8)) 8 data).

(** The access flags that the open functions reject. *)
Definition rejected_access_flags {D : Declarations} (access_flags : Z) : Prop :=
  Z.land access_flags LIBSCCA_ACCESS_FLAG_WRITE ≠ 0
  ∨ (Z.land access_flags LIBSCCA_ACCESS_FLAG_READ = 0
     ∧ Z.land access_flags LIBSCCA_ACCESS_FLAG_WRITE = 0).

(** What one statement does to the file handle and to the heap: there is
    still a file handle after it, and when the result is 0 after it, the
    result was 0 before it, the handle [f] has become [g f], and [blocks f]
    blocks are freed. *)
Definition closes (statement : close_state -> close_state)
    (g : libscca_internal_file_t -> libscca_internal_file_t)
    (blocks : libscca_internal_file_t -> Z) : Prop :=
  forall c f, close_file c = Some f ->
    is_Some (close_file (statement c))
    ∧ (cs_result (statement c) = 0 ->
       cs_result c = 0
       ∧ close_file (statement c) = Some (g f)
       ∧ heap_live (s_world (cs_session (statement c)))
         = heap_live (s_world (cs_session c)) - blocks f).

(** ** What the further properties speak of *)

(** The volumes array of [s] is that of [s0], and a volume information being
    decoded in [s0] is still being decoded in [s]. *)
Definition array_kept (s0 s : volumes_state) : Prop :=
  vs_volumes_array s = vs_volumes_array s0
  ∧ (is_Some (vs_volume_information s0) -> is_Some (vs_volume_information s)).

(** What [libscca_file_open_read] leaves when it returns 1, started on the
    file handle [f] with [live] blocks allocated and a source that starts
    with the file header [file_header]: the IO handle and the prefetch hash
    are those of the header, the file IO handle and its two flags are those
    of [f], the filename strings are there when their offset is not 0, the
    volumes are as many as the file information says, and the blocks added
    are those of the file information, the filename strings and the
    volumes. *)
Definition parsed (f : libscca_internal_file_t) (file_header : list Z) (live : Z)
    (s' : session) : Prop :=
  exists file_information filename_strings volumes,
    s_file s'
    = Some (Internal_file.mk
              (Some (mk_io_handle
                       (byte_stream_copy_to_uint32_little_endian
                          (file_header_format_version file_header))
                       (byte_stream_copy_to_uint32_little_endian
                          (file_header_file_size file_header))
                       0))
              (Internal_file.file_io_handle f)
              (Internal_file.file_io_handle_created_in_library f)
              (Internal_file.file_io_handle_opened_in_library f)
              (byte_stream_copy_to_uint32_little_endian
                 (file_header_prefetch_hash file_header))
              (Some file_information) filename_strings (Some volumes))
    ∧ (filename_strings = None <-> filename_strings_offset file_information = 0)
    ∧ length volumes
      = (if decide (volumes_information_offset file_information ≠ 0)
         then Z.to_nat (number_of_volumes file_information) else 0%nat)
    ∧ heap_live (s_world s') - 1
        - (match filename_strings with Some _ => 1 | None => 0 end)
        - volumes_array_blocks (Some volumes)
      = live.

(** The values of a buffer are bytes. *)
Definition bytes (data : list Z) : Prop := Forall (fun b => 0 <= b < 256) data.

(** The unsigned integer of 32 bits that the four bytes at [offset] are in
    little-endian order. *)
Definition little_endian_uint32 (data : list Z) (offset : nat) : Z :=
  byte_at data offset + 2 ^ 8 * byte_at data (offset + 1)
  + 2 ^ 16 * byte_at data (offset + 2) + 2 ^ 24 * byte_at data (offset + 3).

(** The session's file handle is [f], an initialized handle on which nothing
    is parsed, and the file IO handle [i] of the world has a source with the
    content [data], long enough for a file header. *)
Definition ready_to_open (s : session) (f : libscca_internal_file_t) (i : nat)
    (data : list Z) : Prop :=
  s_file s = Some f
  ∧ is_Some (Internal_file.io_handle f)
  ∧ Internal_file.file_information f = None
  ∧ Internal_file.filename_strings f = None
  ∧ Internal_file.volumes_array f = Some []
  ∧ (84 <= length data)%nat
  ∧ exists is_open offset,
      handles (s_world s) !! i = Some (Some (mk_bfio (Some data) is_open offset)).

(** The [size] bytes at [offset] lie inside of a source of [length] bytes,
    or there is none of them to read. *)
Definition readable (offset size length : Z) : Prop :=
  size = 0 ∨ offset + size <= length.
#[global] Instance readable_dec offset size length :
  Decision (readable offset size length).
Proof. unfold readable. apply _. Defined.

(** The session's file handle is [f], an initialized handle on which nothing
    is parsed, and the file of the name [name] has the content [data], long
    enough for a file header. *)
Definition ready_to_open_named (s : session) (f : libscca_internal_file_t)
    (name : libbfio_name) (data : list Z) : Prop :=
  s_file s = Some f
  ∧ is_Some (Internal_file.io_handle f)
  ∧ Internal_file.file_information f = None
  ∧ Internal_file.filename_strings f = None
  ∧ Internal_file.volumes_array f = Some []
  ∧ (84 <= length data)%nat
  ∧ filesystem (s_world s) name = Some data.

(** The volume information [v] is what the record at [offset] of the volumes
    information [data], of [size] bytes, says: the creation time and the
    serial number of the record, the device path of twice as many bytes as
    the record counts characters, at the device path offset, when neither is
    0, and the strings of the bytes from the directory strings array offset
    to the end of the volumes information, when that offset is not 0. *)
Definition volume_of_record (data : list Z) (size offset : Z)
    (v : libscca_internal_volume_information_t) : Prop :=
  let field := fun field_offset : Z =>
    byte_stream_copy_to_uint32_little_endian
      (slice (Z.to_nat (offset + field_offset)) 4 data) in
  let device_path_offset := field offsetof_device_path_offset in
  let path_size :=
    (field offsetof_device_path_number_of_characters * 2) mod uint32_max in
  let directory_strings_array_offset := field offsetof_directory_strings_array_offset in
  creation_time v
  = byte_stream_copy_to_uint64_little_endian
      (slice (Z.to_nat (offset + offsetof_creation_time)) 8 data)
  ∧ serial_number v = field offsetof_serial_number
  ∧ (if decide (device_path_offset ≠ 0
                ∧ field offsetof_device_path_number_of_characters ≠ 0)
     then device_path v
          = Some (slice (Z.to_nat device_path_offset) (Z.to_nat path_size) data)
          ∧ device_path_size v = path_size
     else device_path v = None ∧ device_path_size v = 0)
  ∧ (if decide (directory_strings_array_offset ≠ 0)
     then exists strings,
            utf16_strings
              (slice (Z.to_nat directory_strings_array_offset)
                 (Z.to_nat ((size - directory_strings_array_offset) mod uint32_max))
                 data) []
            = Some strings
            ∧ directory_strings v = Some (mk_value strings)
     else directory_strings v = None).
(** The reads of the volumes information [data], of [size] bytes, for the
    record at [offset], each with its offset and size: the eight fields of
    the record; the version and the number of file references, of 4 bytes
    each, at the file references offset, when that offset is not 0; the
    device path; the directory strings. *)
Definition reads_of_record (data : list Z) (size offset : Z) : list (Z * Z) :=
  let field := fun field_offset : Z =>
    byte_stream_copy_to_uint32_little_endian
      (slice (Z.to_nat (offset + field_offset)) 4 data) in
  let device_path_offset := field offsetof_device_path_offset in
  let number_of_characters := field offsetof_device_path_number_of_characters in
  let file_references_offset := field offsetof_file_references_offset in
  let directory_strings_array_offset := field offsetof_directory_strings_array_offset in
  [(offset + offsetof_device_path_offset, 4);
   (offset + offsetof_device_path_number_of_characters, 4);
   (offset + offsetof_creation_time, 8);
   (offset + offsetof_serial_number, 4);
   (offset + offsetof_file_references_offset, 4);
   (offset + offsetof_file_references_size, 4);
   (offset + offsetof_directory_strings_array_offset, 4);
   (offset + offsetof_number_of_directory_strings, 4)]
  ++ (if decide (file_references_offset ≠ 0)
      then [(file_references_offset, 4);
            ((file_references_offset + 4) mod uint32_max, 4)]
      else [])
  ++ (if decide (device_path_offset ≠ 0 ∧ number_of_characters ≠ 0)
      then [(device_path_offset, (number_of_characters * 2) mod uint32_max)]
      else [])
  ++ (if decide (directory_strings_array_offset ≠ 0)
      then [(directory_strings_array_offset,
             (size - directory_strings_array_offset) mod uint32_max)]
      else []).

(** The reads for the [count] records that follow each other from the start
    of the volumes information on, each of [record_size] bytes. *)
Definition reads_of_records (data : list Z) (size record_size : Z) (count : nat)
  : list (Z * Z) :=
  concat ((fun k : nat =>
             reads_of_record data size ((Z.of_nat k * record_size) mod uint32_max))
            <$> seq 0 count).

(** * Reasoning about computations *)

(** [wp m Q E s]: started in [s], [m] either returns 1 with a value and a
    state that satisfy [Q], or returns -1 in a state that satisfies [E], or
    reads outside of a buffer. *)
Definition wp {S A} (m : M S A) (Q : A -> S -> Prop) (E : S -> Prop) (s : S) : Prop :=
  match m s with
  | (Returned a, s') => Q a s'
  | (Failed _, s') => E s'
  | (OutOfBounds _ _ _, _) => True
  end.

Section Wp.
Context {S : Type}.
Implicit Types (s : S) (E : S -> Prop).

Lemma wp_ret {A} (a : A) (Q : A -> S -> Prop) E s :
  Q a s -> wp (mret a) Q E s.
Proof. done. Qed.

Lemma wp_bind {A B} (m : M S A) (k : A -> M S B) (Q : B -> S -> Prop) E s :
  wp m (fun a s' => wp (k a) Q E s') E s -> wp (m ≫= k) Q E s.
Proof.
  unfold wp, mbind, M_bind. destruct (m s) as [[a|e|o n b] s']; done.
Qed.

Lemma wp_fmap {A B} (f : A -> B) (m : M S A) (Q : B -> S -> Prop) E s :
  wp m (fun a s' => Q (f a) s') E s -> wp (f <$> m) Q E s.
Proof.
  intros H. unfold fmap, M_fmap. apply wp_bind.
  unfold wp in *. destruct (m s) as [[a|e|o n b] s']; done.
Qed.

Lemma wp_fail {A} domain code message (Q : A -> S -> Prop) E s :
  E s -> wp (fail domain code message) Q E s.
Proof. done. Qed.

Lemma wp_checked {A} (m : M S A) domain code message (Q : A -> S -> Prop) E s :
  wp m Q E s -> wp (checked m domain code message) Q E s.
Proof.
  unfold wp, checked. destruct (m s) as [[a|e|o n b] s']; done.
Qed.

Lemma wp_on_error {A} (m : M S A) cleanup (Q : A -> S -> Prop) E s :
  wp m Q (fun s' => E (cleanup s')) s -> wp (on_error m cleanup) Q E s.
Proof.
  unfold wp, on_error. destruct (m s) as [[a|e|o n b] s']; done.
Qed.

Lemma wp_get (Q : S -> S -> Prop) E s : Q s s -> wp get Q E s.
Proof. done. Qed.

Lemma wp_put s0 (Q : unit -> S -> Prop) E s : Q tt s0 -> wp (put s0) Q E s.
Proof. done. Qed.

Lemma wp_modify f (Q : unit -> S -> Prop) E s : Q tt (f s) -> wp (modify f) Q E s.
Proof. done. Qed.

Lemma wp_mono {A} (m : M S A) (Q Q' : A -> S -> Prop) E E' s :
  wp m Q E s -> (forall a s', Q a s' -> Q' a s') -> (forall s', E s' -> E' s') ->
  wp m Q' E' s.
Proof.
  unfold wp. destruct (m s) as [[a|e|o n b] s']; auto.
Qed.

Lemma wp_stable {A} (R : S -> S -> Prop) (m : M S A) (Q : A -> S -> Prop) E s :
  stable R m -> (forall a s', R s s' -> Q a s') -> (forall s', R s s' -> E s') ->
  wp m Q E s.
Proof.
  intros H HQ HE. specialize (H s). unfold wp.
  destruct (m s) as [[a|e|o n b] s']; auto.
Qed.

Lemma stable_wp {A} (R : S -> S -> Prop) (m : M S A) :
  (forall s, wp m (fun _ s' => R s s') (fun s' => R s s') s) -> stable R m.
Proof.
  intros H s. specialize (H s). unfold wp in H.
  destruct (m s) as [[a|e|o n b] s']; auto.
Qed.

(** The three ways in which a computation ends, read off its [wp]. *)
Lemma wp_returned {A} (m : M S A) (Q : A -> S -> Prop) E s a s' :
  wp m Q E s -> m s = (Returned a, s') -> Q a s'.
Proof. unfold wp. intros H Heq. by rewrite Heq in H. Qed.

Lemma wp_failed {A} (m : M S A) (Q : A -> S -> Prop) E s e s' :
  wp m Q E s -> m s = (Failed e, s') -> E s'.
Proof. unfold wp. intros H Heq. by rewrite Heq in H. Qed.

End Wp.

(** The heap after an allocation, when it succeeds and when it fails. *)
Lemma wp_memory_allocate (Q : unit -> world -> Prop) E w :
  Q tt (set_heap_live (heap_live w + 1) w) -> E w -> wp memory_allocate Q E w.
Proof.
  intros HQ HE. unfold wp, memory_allocate. by case_decide.
Qed.

Lemma wp_in_world {A} (m : M world A) (Q : A -> volumes_state -> Prop) E s :
  wp m (fun a w => Q a (vs_set_world w s)) (fun w => E (vs_set_world w s)) (vs_world s) ->
  wp (in_world m) Q E s.
Proof.
  unfold wp, in_world. destruct (m (vs_world s)) as [[a|e|o n b] w]; done.
Qed.

Lemma wp_in_session {A} (m : M world A) (Q : A -> session -> Prop) E s :
  wp m (fun a w => Q a (mk_session (s_file s) w))
       (fun w => E (mk_session (s_file s) w)) (s_world s) ->
  wp (in_session m) Q E s.
Proof.
  unfold wp, in_session. destruct (m (s_world s)) as [[a|e|o n b] w]; done.
Qed.

Ltac wp_step :=
  lazymatch goal with
  | |- wp (mret _) _ _ _ => apply wp_ret
  | |- wp (mbind _ _) _ _ _ => apply wp_bind
  | |- wp (fmap _ _) _ _ _ => apply wp_fmap
  | |- wp (checked _ _ _ _) _ _ _ => apply wp_checked
  | |- wp (fail _ _ _) _ _ _ => apply wp_fail
  | |- wp (on_error _ _) _ _ _ => apply wp_on_error
  | |- wp (modify _) _ _ _ => apply wp_modify
  | |- wp (put _) _ _ _ => apply wp_put
  | |- wp get _ _ _ => apply wp_get
  | |- wp (in_world _) _ _ _ => apply wp_in_world
  | |- wp (in_session _) _ _ _ => apply wp_in_session
  | |- wp memory_allocate _ _ _ => apply wp_memory_allocate
  | |- wp (if decide _ then _ else _) _ _ _ => case_decide
  | |- wp (if ?b then _ else _) _ _ _ => destruct b eqn:?
  end.

(** ** The heap under the functions of the libraries *)

Lemma same_heap_refl w : same_heap w w.
Proof. done. Qed.

Lemma same_heap_handle_store i h w : same_heap w (handle_store i h w).
Proof. done. Qed.

Ltac heap_of_handle_function :=
  intros [live capacity hs fs];
  repeat (simpl; unfold handle_lookup; case_match; simplify_eq/=; try done).

Lemma libbfio_handle_get_size_heap handle :
  stable same_heap (libbfio_handle_get_size handle).
Proof. unfold stable, libbfio_handle_get_size. heap_of_handle_function. Qed.

Lemma libbfio_handle_seek_offset_heap handle offset :
  stable same_heap (libbfio_handle_seek_offset handle offset).
Proof. unfold stable, libbfio_handle_seek_offset. heap_of_handle_function. Qed.

Lemma libbfio_handle_read_buffer_heap handle size :
  stable same_heap (libbfio_handle_read_buffer handle size).
Proof. unfold stable, libbfio_handle_read_buffer. heap_of_handle_function. Qed.

Lemma libbfio_handle_is_open_heap handle :
  stable same_heap (libbfio_handle_is_open handle).
Proof. unfold stable, libbfio_handle_is_open. heap_of_handle_function. Qed.

Lemma libbfio_handle_open_heap handle access_flags :
  stable same_heap (libbfio_handle_open handle access_flags).
Proof. unfold stable, libbfio_handle_open. heap_of_handle_function. Qed.

Lemma libbfio_handle_close_heap handle :
  stable same_heap (libbfio_handle_close handle).
Proof. unfold stable, libbfio_handle_close. heap_of_handle_function. Qed.

Lemma libfvalue_value_type_set_data_strings_array_stable {S} (R : S -> S -> Prop)
    value data :
  (forall s, R s s) ->
  stable R (libfvalue_value_type_set_data_strings_array value data).
Proof.
  intros HR s. unfold libfvalue_value_type_set_data_strings_array.
  destruct value, (utf16_strings data []); simpl; apply HR.
Qed.

(** A step of a computation on the world that leaves the heap as it is. *)
Ltac wp_heap_step :=
  lazymatch goal with
  | |- wp (libbfio_handle_get_size _) _ _ _ =>
      eapply wp_stable; [apply libbfio_handle_get_size_heap| |]
  | |- wp (libbfio_handle_seek_offset _ _) _ _ _ =>
      eapply wp_stable; [apply libbfio_handle_seek_offset_heap| |]
  | |- wp (libbfio_handle_read_buffer _ _) _ _ _ =>
      eapply wp_stable; [apply libbfio_handle_read_buffer_heap| |]
  | |- wp (libfvalue_value_type_set_data_strings_array _ _) _ _ _ =>
      eapply wp_stable;
      [apply (libfvalue_value_type_set_data_strings_array_stable same_heap), same_heap_refl| |]
  | _ => wp_step
  end.

Ltac heap_neutral :=
  apply stable_wp; intros ?;
  repeat (first [wp_heap_step | progress intros | progress unfold same_heap in * ]);
  simpl in *; try done; try lia.

Lemma libscca_io_handle_read_file_header_heap io_handle file_io_handle :
  stable same_heap (libscca_io_handle_read_file_header io_handle file_io_handle).
Proof.
  unfold libscca_io_handle_read_file_header. destruct io_handle; heap_neutral.
Qed.

Lemma libscca_io_handle_read_filename_strings_heap io_handle file_io_handle
    filename_string_offset filename_string_size filename_strings :
  stable same_heap (libscca_io_handle_read_filename_strings io_handle file_io_handle
    filename_string_offset filename_string_size filename_strings).
Proof.
  unfold libscca_io_handle_read_filename_strings. destruct io_handle; heap_neutral.
Qed.

Lemma libscca_io_handle_read_metrics_array_heap io_handle file_io_handle
    file_offset number_of_entries :
  stable same_heap (libscca_io_handle_read_metrics_array io_handle file_io_handle
    file_offset number_of_entries).
Proof.
  unfold libscca_io_handle_read_metrics_array. destruct io_handle; heap_neutral.
Qed.

Lemma libscca_io_handle_read_trace_chain_array_heap io_handle file_io_handle
    file_offset number_of_entries :
  stable same_heap (libscca_io_handle_read_trace_chain_array io_handle file_io_handle
    file_offset number_of_entries).
Proof.
  unfold libscca_io_handle_read_trace_chain_array. destruct io_handle; heap_neutral.
Qed.

Lemma spec_file_information_read_heap file_information file_io_handle io_handle :
  stable same_heap (spec_file_information_read file_information file_io_handle io_handle).
Proof.
  unfold spec_file_information_read.
  destruct (io_handle ≫= _) as [[io read_size]|]; heap_neutral.
Qed.

(** The declarations with the decoder of the specification, and with the
    read and the write flag as two different bits. *)
Definition spec_declarations : Declarations :=
  {| LIBSCCA_ACCESS_FLAG_READ := 1;
     LIBSCCA_ACCESS_FLAG_WRITE := 2;
     LIBBFIO_ACCESS_FLAG_READ := 1;
     libscca_file_information_read := spec_file_information_read;
     libscca_file_information_read_heap := spec_file_information_read_heap |}.

(** ** The heap under the decoder of the volumes information *)

Ltac kept_solver :=
  repeat match goal with
         | H : volumes_kept _ _ |- _ => destruct H as [? ?]
         | H : volumes_balanced _ _ |- _ => destruct H as [? ?]
         | H : same_heap _ _ |- _ => unfold same_heap in H
         | H : _ ∧ _ |- _ => destruct H as [? ?]
         end;
  unfold volumes_kept, volumes_balanced, volumes_state_blocks,
    volume_information_blocks in *;
  simpl in *;
  repeat match goal with
         | H : device_path _ = _ |- _ => rewrite H in *; clear H
         | H : directory_strings _ = _ |- _ => rewrite H in *; clear H
         | H : vs_volume_information _ = _ |- _ => rewrite H in *; clear H
         | H : vs_volumes_information_data _ = _ |- _ => rewrite H in *; clear H
         end;
  subst; simpl in *; repeat split; try done; try lia; auto.

Lemma volumes_kept_refl s : volumes_kept s s.
Proof. done. Qed.

Lemma volumes_kept_reads s0 s s' :
  same_but_reads s s' -> volumes_kept s0 s -> volumes_kept s0 s'.
Proof.
  intros (Hw & Ha & Hl & Hd) [[H K] D].
  unfold volumes_kept, volumes_balanced, volumes_state_blocks in *.
  by rewrite Hw, Ha, Hl, Hd.
Qed.

Lemma bare_reads s s' : same_but_reads s s' -> bare s -> bare s'.
Proof. intros (_ & _ & Hl & _) (v & Hv & H). exists v. by rewrite Hl. Qed.

Lemma same_but_reads_trans s0 s1 s2 :
  same_but_reads s0 s1 -> same_but_reads s1 s2 -> same_but_reads s0 s2.
Proof.
  intros (? & ? & ? & ?) (? & ? & ? & ?). repeat split; congruence.
Qed.

Lemma read_data_reads offset size : stable same_but_reads (read_data offset size).
Proof. intros s. unfold read_data. by case_decide. Qed.

Lemma read_uint32_reads offset : stable same_but_reads (read_uint32 offset).
Proof.
  apply stable_wp; intros s. unfold read_uint32. wp_step.
  eapply wp_stable; [apply read_data_reads|done..].
Qed.

Lemma read_uint64_reads offset : stable same_but_reads (read_uint64 offset).
Proof.
  apply stable_wp; intros s. unfold read_uint64. wp_step.
  eapply wp_stable; [apply read_data_reads|done..].
Qed.

Lemma read_file_references_reads offset :
  stable same_but_reads (read_file_references offset).
Proof.
  apply stable_wp; intros s. unfold read_file_references.
  wp_step. eapply wp_stable; [apply read_uint32_reads| |done].
  intros version s1 H1. wp_step.
  eapply wp_stable; [apply read_uint32_reads| |];
    intros; try wp_step; by eapply same_but_reads_trans.
Qed.

Lemma volumes_array_blocks_nil : volumes_array_blocks (Some []) = 0.
Proof. done. Qed.

Lemma volumes_array_blocks_app l v :
  volumes_array_blocks (Some (l ++ [v]))
  = volumes_array_blocks (Some l) + volume_information_blocks v.
Proof.
  unfold volumes_array_blocks. simpl. induction l as [|x l IH]; simpl; lia.
Qed.

Lemma libscca_internal_volume_information_free_heap v w :
  heap_live (libscca_internal_volume_information_free v w)
  = heap_live w - volume_information_blocks v.
Proof.
  unfold libscca_internal_volume_information_free, volume_information_blocks,
    libfvalue_value_free.
  destruct (device_path v), (directory_strings v); simpl; lia.
Qed.

Lemma volumes_array_free_heap l w :
  heap_live (foldr libscca_internal_volume_information_free w l)
  = heap_live w - volumes_array_blocks (Some l).
Proof.
  induction l as [|v l IH]; [unfold volumes_array_blocks; simpl; lia|].
  cbn [foldr]. rewrite libscca_internal_volume_information_free_heap, IH.
  unfold volumes_array_blocks. simpl. lia.
Qed.

Lemma wp_read_kept {A} (m : M volumes_state A) s0
    (Q : A -> volumes_state -> Prop) E s :
  stable same_but_reads m ->
  volumes_kept s0 s ∧ bare s ->
  (forall a s', volumes_kept s0 s' ∧ bare s' -> Q a s') ->
  (forall s', volumes_kept s0 s' -> E s') ->
  wp m Q E s.
Proof.
  intros Hm [Hk Hb] HQ HE. eapply wp_stable; [done|..].
  - intros a s' H. apply HQ. eauto using volumes_kept_reads, bare_reads.
  - intros s' H. apply HE. eauto using volumes_kept_reads.
Qed.

Lemma wp_read_data offset size (Q : list Z -> volumes_state -> Prop) E s :
  (forall data, Q data (vs_add_read offset size s)) ->
  wp (read_data offset size) Q E s.
Proof.
  intros H. unfold wp, read_data. case_decide; [apply H|done].
Qed.

Lemma wp_set_data_strings_array {S} value data
    (Q : libfvalue_value_t -> S -> Prop) (E : S -> Prop) s :
  (forall value', Q value' s) -> E s ->
  wp (libfvalue_value_type_set_data_strings_array value data) Q E s.
Proof.
  intros HQ HE. unfold wp, libfvalue_value_type_set_data_strings_array.
  destruct value, (utf16_strings data []); simpl; auto.
Qed.

Lemma wp_libfvalue_value_type_initialize value
    (Q : libfvalue_value_t -> world -> Prop) E w :
  (value = None -> forall value', Q value' (set_heap_live (heap_live w + 1) w)) ->
  E w ->
  wp (libfvalue_value_type_initialize value) Q E w.
Proof.
  intros HQ HE. unfold wp, libfvalue_value_type_initialize, memory_allocate.
  destruct value; [done|]. case_decide; simpl; auto.
Qed.

(** The volume information being decoded is updated without a change of
    the blocks that it holds. *)
Lemma update_kept f s0 s :
  (forall v, device_path (f v) = device_path v) ->
  (forall v, directory_strings (f v) = directory_strings v) ->
  volumes_kept s0 s ∧ bare s ->
  volumes_kept s0 (vs_set_volume_information (f <$> vs_volume_information s) s)
  ∧ bare (vs_set_volume_information (f <$> vs_volume_information s) s).
Proof.
  intros Hp Hd [[[H K] D] (v & Hv & Hpath & Hdirs)]. split.
  - repeat split; [|done..]. unfold volumes_state_blocks in *. simpl.
    rewrite Hv in *. simpl. unfold volume_information_blocks in *.
    by rewrite Hp, Hd.
  - exists (f v). simpl. rewrite Hv. simpl. by rewrite Hp, Hd.
Qed.

Lemma wp_update_volume_information f (Q : unit -> volumes_state -> Prop) E s :
  Q tt (vs_set_volume_information (f <$> vs_volume_information s) s) ->
  wp (update_volume_information f) Q E s.
Proof. done. Qed.

Ltac wp_read_step :=
  lazymatch goal with
  | |- wp (mbind _ _) _ _ _ => apply wp_bind
  | |- wp (read_uint32 _) _ _ _ =>
      eapply wp_read_kept; [apply read_uint32_reads|eassumption|intros ? ? ?|auto]
  | |- wp (read_uint64 _) _ _ _ =>
      eapply wp_read_kept; [apply read_uint64_reads|eassumption|intros ? ? ?|auto]
  | |- wp (update_volume_information ?f) _ _ ?s1 =>
      apply wp_update_volume_information;
      match goal with
      | H : _ ∧ bare s1 |- _ => apply (update_kept f) in H; [|done..]
      end
  end.

Lemma read_volume_information_record_kept s0 s offset :
  volumes_kept s0 s ->
  wp (read_volume_information_record offset)
     (fun _ s' => volumes_kept s0 s' ∧ bare s') (volumes_kept s0) s.
Proof.
  intros Hs. unfold read_volume_information_record.
  wp_step. wp_step. wp_step. wp_step. wp_step.
  unfold libscca_volume_information_initialize.
  destruct s as [w array [local|] data reads]; simpl; [by wp_step|].
  wp_step. wp_step. wp_step; [|exact Hs].
  wp_step. wp_step. unfold set_volume_information. wp_step.
  match goal with
  | |- wp _ _ _ ?s1 => assert (volumes_kept s0 s1 ∧ bare s1) as H1
  end.
  { split; [|by eexists]. kept_solver. }
  repeat wp_read_step. by wp_step.
Qed.

Lemma read_device_path_kept s0 s offset size :
  volumes_kept s0 s ∧ bare s ->
  wp (read_device_path offset size)
     (fun _ s' => volumes_kept s0 s' ∧ without_directory_strings s') (volumes_kept s0) s.
Proof.
  intros [Hs (v & Hv & Hpath & Hdirs)]. unfold read_device_path.
  destruct s as [w array local data reads]; simpl in *; subst local.
  wp_step. wp_step. wp_step. wp_step; [|exact Hs].
  wp_step. apply wp_update_volume_information. simpl.
  wp_step. apply wp_update_volume_information. simpl.
  wp_step. apply wp_read_data; intros bytes.
  apply wp_update_volume_information. simpl. split.
  - kept_solver.
  - by eexists.
Qed.

Lemma read_directory_strings_kept s0 s size offset :
  volumes_kept s0 s ∧ without_directory_strings s ->
  wp (read_directory_strings size offset)
     (fun _ s' => volumes_kept s0 s' ∧ is_Some (vs_volume_information s'))
     (volumes_kept s0) s.
Proof.
  intros [Hs (v & Hv & Hdirs)]. unfold read_directory_strings.
  destruct s as [w array local data reads]; simpl in *; subst local.
  wp_step. wp_step. wp_step. wp_step. wp_step. simpl. rewrite Hdirs.
  apply wp_libfvalue_value_type_initialize; [intros _ value|exact Hs].
  wp_step. apply wp_update_volume_information. simpl.
  wp_step. apply wp_read_data; intros bytes.
  wp_step. wp_step. apply wp_set_data_strings_array.
  - intros value'. apply wp_update_volume_information. simpl. kept_solver.
  - simpl. kept_solver.
Qed.

Lemma append_volume_information_kept s0 s :
  volumes_kept s0 s ->
  wp append_volume_information
     (fun _ s' => volumes_kept s0 s' ∧ vs_volume_information s' = None)
     (volumes_kept s0) s.
Proof.
  intros Hs. unfold append_volume_information.
  destruct s as [w array [v|] data reads]; simpl in *.
  - wp_step. wp_step. simpl. wp_step. wp_step.
    unfold wp, libcdata_array_append_entry. destruct array as [l|]; simpl; [|done].
    destruct Hs as [[H K] D]. repeat split; [|done..].
    unfold volumes_state_blocks in *. simpl in *.
    rewrite volumes_array_blocks_app. lia.
  - by repeat wp_step.
Qed.

Lemma read_volume_information_kept s0 s a b c :
  volumes_kept s0 s ->
  wp (read_volume_information a b c)
     (fun _ s' => volumes_kept s0 s' ∧ vs_volume_information s' = None)
     (volumes_kept s0) s.
Proof.
  intros Hs. unfold read_volume_information. wp_step.
  eapply wp_mono; [by apply read_volume_information_record_kept| |done].
  intros [[[device_path_offset device_size] references_offset] strings_offset] s1 H1.
  simpl. wp_step.
  eapply (wp_mono _ (fun _ s' => volumes_kept s0 s' ∧ bare s')); [| |done].
  { case_decide; [|by wp_step]. wp_step.
    eapply wp_read_kept; [apply read_file_references_reads|done| |done].
    intros ? ? ?. by wp_step. }
  intros ? s2 H2. wp_step.
  eapply (wp_mono _ (fun _ s' => volumes_kept s0 s' ∧ without_directory_strings s'));
    [| |done].
  { case_decide; [by apply read_device_path_kept|].
    wp_step. destruct H2 as [? (v & ? & ? & ?)]. split; [done|by exists v]. }
  intros ? s3 H3. wp_step.
  eapply (wp_mono _ (fun _ s' => volumes_kept s0 s')); [| |done].
  { case_decide.
    - eapply wp_mono; [by apply read_directory_strings_kept| |done].
      by intros ? ? [? ?].
    - wp_step. by destruct H3. }
  intros ? s4 H4. wp_step.
  eapply wp_mono; [by apply append_volume_information_kept| |done].
  intros ? s5 H5. by wp_step.
Qed.

Lemma read_volumes_kept s0 s a b c count :
  volumes_kept s0 s -> vs_volume_information s = None ->
  wp (read_volumes a b c count)
     (fun _ s' => volumes_kept s0 s' ∧ vs_volume_information s' = None)
     (volumes_kept s0) s.
Proof.
  revert s c. induction count as [|count IH]; intros s c Hs Hlocal; simpl.
  - by wp_step.
  - wp_step. eapply wp_mono; [by apply read_volume_information_kept| |done].
    intros c' s' [Hs' Hlocal']. by apply IH.
Qed.

(** Whether it returns 1 or -1, the decoder of the volumes information
    leaves allocated the blocks of the volumes in the array, and no other. *)
Lemma libscca_io_handle_read_volumes_information_balanced io_handle file_io_handle
    offset size number s :
  vs_volume_information s = None -> vs_volumes_information_data s = None ->
  wp (libscca_io_handle_read_volumes_information io_handle file_io_handle
        offset size number)
     (fun _ s' => volumes_balanced s s' ∧ vs_volume_information s' = None
                  ∧ vs_volumes_information_data s' = None)
     (fun s' => volumes_balanced s s' ∧ vs_volume_information s' = None
                ∧ vs_volumes_information_data s' = None) s.
Proof.
  intros Hlocal Hdata. unfold libscca_io_handle_read_volumes_information.
  destruct io_handle as [io|]; [|by wp_step].
  destruct s as [w array local data reads]; simpl in *; subst local data.
  wp_step.
  match goal with
  | |- wp _ _ _ ?s =>
      apply (wp_mono _
        (fun _ s' => volumes_balanced s s' ∧ vs_volume_information s' = None
                     ∧ vs_volumes_information_data s' = None) _
        (volumes_balanced s))
  end.
  2: done.
  2: { intros [w' array' local' data' reads'] [H K]. repeat split; [|done].
       unfold read_volumes_information_on_error, volumes_state_blocks in *.
       destruct local' as [v|], data';
         cbn -[libscca_internal_volume_information_free] in *;
         rewrite ?libscca_internal_volume_information_free_heap; lia. }
  wp_step. wp_step. wp_step.
  eapply wp_stable; [apply libbfio_handle_seek_offset_heap| |];
    [|intros; kept_solver].
  intros ? w1 Hw1. wp_step. wp_step. wp_step. wp_step; [|kept_solver].
  wp_step. unfold set_volumes_information_data. wp_step. simpl.
  wp_step. wp_step. wp_step.
  eapply wp_stable; [apply libbfio_handle_read_buffer_heap| |];
    [|intros; kept_solver].
  intros bytes w2 Hw2. simpl. wp_step; [wp_step; kept_solver|].
  wp_step. wp_step. simpl. wp_step.
  eapply wp_mono; [apply read_volumes_kept; [apply volumes_kept_refl|done]| |].
  - intros ? [w' array' local' data' reads'] [Hkept Hnone].
    simpl. wp_step. wp_step. wp_step. wp_step. kept_solver.
  - intros s' Hkept. kept_solver.
Qed.

(** ** The heap under the parse *)

Lemma open_read_on_error_releases live s :
  parsing live s -> nothing_parsed live (open_read_on_error s).
Proof.
  intros (f & Hf & [l Hl] & Hheap). unfold open_read_on_error. rewrite Hf.
  destruct f as [io h created opened hash fi fs array]; simpl in *; subst array.
  eexists; split; [done|]. simpl. repeat split.
  rewrite volumes_array_free_heap. unfold file_blocks in Hheap. simpl in Hheap.
  unfold libfvalue_value_free, libscca_file_information_free.
  destruct fi, fs; simpl; lia.
Qed.

Lemma wp_on_volumes_array {A} (m : M volumes_state A) (Q : A -> session -> Prop) E s :
  wp m
    (fun a vs => Q a (mk_session
       (Internal_file.set_volumes_array (vs_volumes_array vs) <$> s_file s) (vs_world vs)))
    (fun vs => E (mk_session
       (Internal_file.set_volumes_array (vs_volumes_array vs) <$> s_file s) (vs_world vs)))
    (mk_volumes_state (s_world s) (s_file s ≫= Internal_file.volumes_array) None None []) ->
  wp (on_volumes_array m) Q E s.
Proof.
  unfold wp, on_volumes_array.
  destruct (m _) as [[a|e|o n b] vs]; done.
Qed.

Lemma wp_get_file (Q : libscca_internal_file_t -> session -> Prop) E s f :
  s_file s = Some f -> Q f s -> wp get_file Q E s.
Proof. intros Hf HQ. unfold wp, get_file. by rewrite Hf. Qed.

Lemma wp_update_file f (Q : unit -> session -> Prop) E s :
  Q tt (mk_session (f <$> s_file s) (s_world s)) -> wp (update_file f) Q E s.
Proof. done. Qed.

Ltac parsing_solver :=
  repeat match goal with
         | H : same_heap _ _ |- _ => unfold same_heap in H
         | H : volumes_balanced _ _ |- _ => destruct H as [? ?]
         | H : _ ∧ _ |- _ => destruct H as [? ?]
         end;
  unfold parsing, nothing_parsed, file_blocks, volumes_state_blocks in *; simpl in *;
  try (eexists; split; [reflexivity|]); simpl in *; subst; simpl in *;
  rewrite ?volumes_array_blocks_nil in *;
  repeat split; eauto; try lia.

Section Parse.
Context {D : Declarations}.

Local Arguments libscca_io_handle_read_file_header : simpl never.
Local Arguments libscca_io_handle_read_filename_strings : simpl never.
Local Arguments libscca_io_handle_read_volumes_information : simpl never.
Local Arguments libfvalue_value_type_initialize : simpl never.

Lemma libscca_file_open_read_releases file_io_handle live s :
  nothing_parsed live s ->
  wp (libscca_file_open_read file_io_handle) (fun _ _ => True) (nothing_parsed live) s.
Proof.
  intros Hs. pose proof Hs as (f & Hf & Hfi & Hfs & Harray & Hheap).
  unfold libscca_file_open_read. wp_step. wp_step. rewrite Hf.
  destruct f as [[io|] h created opened hash fi fs array]; simpl in *; subst;
    [|by wp_step].
  destruct s as [file w]; simpl in *; subst file.
  wp_step.
  apply (wp_mono _ (fun _ s' => exists io', s' =
    mk_session (Some (Internal_file.mk (Some io') h created opened hash None None (Some []))) w)
    _ (nothing_parsed (heap_live w))).
  { wp_step; [apply wp_update_file|wp_step]; by eexists. }
  2: done.
  intros _ s1 [io1 ->]. wp_step.
  apply (wp_mono _ (fun _ _ => True) _ (parsing (heap_live w))); [|done|].
  2: apply open_read_on_error_releases.
  wp_step. eapply wp_get_file; [done|]. simpl.
  wp_step. wp_step. wp_step.
  eapply wp_stable; [apply libscca_io_handle_read_file_header_heap| |];
    [|intros; parsing_solver].
  intros [io2 hash2] w1 Hw1. simpl.
  wp_step. apply wp_update_file. wp_step. apply wp_update_file. simpl.
  wp_step. eapply wp_get_file; [done|]. simpl.
  wp_step. wp_step. wp_step. unfold libscca_file_information_initialize.
  wp_step. wp_step. wp_step; [|parsing_solver].
  wp_step. wp_step. apply wp_update_file. simpl.
  wp_step. wp_step. wp_step.
  eapply wp_stable; [apply libscca_file_information_read_heap| |];
    [|intros; parsing_solver].
  intros fi2 w2 Hw2. simpl.
  wp_step. apply wp_update_file. simpl. wp_step.
  apply (wp_mono _ (fun _ s' => exists fs w3, s' =
      mk_session (Some (Internal_file.mk (Some io2) h created opened hash2
                          (Some fi2) fs (Some []))) w3
      ∧ heap_live w3 - 1 - (match fs with Some _ => 1 | None => 0 end) = heap_live w)
    _ (parsing (heap_live w))).
  2: { intros _ s3 (fs & w3 & -> & Hw3).
       wp_step; [|done]. wp_step. apply wp_on_volumes_array. simpl.
       eapply wp_mono;
         [by apply libscca_io_handle_read_volumes_information_balanced|done|].
       intros [w4 array4 local4 data4 reads4] ([Hheap [l4 Harray4]] & ? & ?);
         [by eexists|].
       simpl in *. subst. unfold volumes_state_blocks in Hheap. simpl in Hheap.
       eexists; split; [done|]. unfold file_blocks. simpl. split; [done|].
       rewrite volumes_array_blocks_nil in Hheap. lia. }
  2: done.
  wp_step.
  - wp_step. wp_step. wp_step.
    apply wp_libfvalue_value_type_initialize; [intros _ value|parsing_solver].
    wp_step. apply wp_update_file. simpl. wp_step. wp_step. wp_step.
    eapply wp_stable; [apply libscca_io_handle_read_filename_strings_heap| |];
      [|intros; parsing_solver].
    intros value' w3 Hw3. simpl. apply wp_update_file. simpl.
    eexists _, _. split; [done|]. unfold same_heap in *. simpl in *. lia.
  - wp_step. eexists None, _. split; [done|]. unfold same_heap in *. simpl in *. lia.
Qed.

End Parse.

Lemma wp_failed_state {S A} (m : M S A) (Q : A -> S -> Prop) (E : S -> Prop) s :
  wp m Q E s -> failed (fst (m s)) = true -> E (snd (m s)).
Proof. unfold wp. by destruct (m s) as [[a|e|o n b] s']. Qed.

Lemma libbfio_handle_close_ignoring_heap handle w :
  heap_live (ignoring (libbfio_handle_close handle) w) = heap_live w.
Proof.
  unfold ignoring, libbfio_handle_close.
  destruct w as [live capacity hs fs], handle as [i|]; simpl; [|done].
  repeat case_match; done.
Qed.

Section Open.
Context {D : Declarations}.

Local Arguments libscca_file_open_read : simpl never.

Lemma open_file_io_handle_on_error_releases file_io_handle is_open live s :
  nothing_parsed live s ->
  nothing_parsed live (open_file_io_handle_on_error file_io_handle is_open s)
  ∧ s_file (open_file_io_handle_on_error file_io_handle is_open s)
      ≫= Internal_file.file_io_handle = None.
Proof.
  intros (f & Hf & Hfi & Hfs & Harray & Hheap).
  unfold open_file_io_handle_on_error. rewrite Hf.
  destruct f as [io h created opened hash fi fs array]; simpl in *; subst.
  case_decide; simpl; (split; [eexists; split; [done|]|done]); simpl;
    rewrite ?libbfio_handle_close_ignoring_heap; done.
Qed.

Lemma libscca_file_open_file_io_handle_releases file_io_handle access_flags live s :
  nothing_parsed live s ->
  s_file s ≫= Internal_file.file_io_handle = None ->
  wp (libscca_file_open_file_io_handle file_io_handle access_flags)
    (fun _ _ => True)
    (fun s' => nothing_parsed live s'
               ∧ s_file s' ≫= Internal_file.file_io_handle = None) s.
Proof.
  intros Hs Hhandle. pose proof Hs as (f & Hf & Hfi & Hfs & Harray & Hheap).
  unfold libscca_file_open_file_io_handle. wp_step. wp_step. rewrite Hf.
  wp_step; [by wp_step|]. wp_step; [by wp_step|].
  unfold check_access_flags. wp_step; [by wp_step|]. wp_step; [by wp_step|].
  destruct s as [file w]; simpl in *; subst file.
  destruct f as [io h created opened hash fi fs array]; simpl in *; subst.
  wp_step. apply wp_update_file. simpl. wp_step. wp_step. wp_step. wp_step.
  eapply wp_stable; [apply libbfio_handle_is_open_heap| |].
  2: { intros w1 Hw1. apply open_file_io_handle_on_error_releases.
       eexists; split; [done|]. by repeat split. }
  intros is_open w1 Hw1. wp_step.
  apply (wp_mono _ (fun _ _ => True) _ (nothing_parsed (heap_live w))); [|done|].
  2: { intros s'. apply open_file_io_handle_on_error_releases. }
  wp_step.
  apply (wp_mono _ (fun _ s' => nothing_parsed (heap_live w) s') _
           (nothing_parsed (heap_live w))); [| |done].
  { wp_step; [|wp_step; eexists; split; [done|]; by repeat split].
    wp_step. wp_step. wp_step.
    eapply wp_stable; [apply libbfio_handle_open_heap| |].
    - intros _ w2 Hw2. apply wp_update_file. simpl.
      eexists; split; [done|]. repeat split. unfold same_heap in *. simpl in *. lia.
    - intros w2 Hw2. eexists; split; [done|]. repeat split.
      unfold same_heap in *. simpl in *. lia. }
  intros _ s2 Hs2. wp_step. wp_step.
  eapply wp_mono; [by apply libscca_file_open_read_releases|done..].
Qed.

End Open.

(** * The properties of the specification *)

(** ** Release on failure *)

(** C4. When the parse fails, [libscca_file_open_read] has released the
    file information, the filename strings and every volume information
    appended to the volumes array, and every block that the parse allocated
    is freed; [libscca_file_open_file_io_handle] then also resets the file
    IO handle of the file handle, on which the number of volumes is 0 and
    the number of filenames cannot be retrieved. *)
Theorem parse_failure_releases_every_entity {D : Declarations}
    (file_io_handle : option nat) (access_flags : Z) (s : session) :
  not_parsed s ->
  (failed (fst (libscca_file_open_read file_io_handle s)) = true ->
   let s' := snd (libscca_file_open_read file_io_handle s) in
   not_parsed s' ∧ heap_live (s_world s') = heap_live (s_world s))
  ∧ (s_file s ≫= Internal_file.file_io_handle = None ->
     failed (fst (libscca_file_open_file_io_handle file_io_handle access_flags s)) = true ->
     let s' := snd (libscca_file_open_file_io_handle file_io_handle access_flags s) in
     unopened s'
     ∧ heap_live (s_world s') = heap_live (s_world s)
     ∧ fst (libscca_file_get_number_of_volumes s') = Returned 0
     ∧ failed (fst (libscca_file_get_number_of_filenames s')) = true).
Proof.
  intros (f & Hf & Hfi & Hfs & Harray).
  assert (nothing_parsed (heap_live (s_world s)) s) as Hs by (by exists f).
  split.
  - intros Hfailed. simpl.
    eapply (wp_failed_state _ (fun _ _ => True)) in Hfailed;
      [|by apply libscca_file_open_read_releases].
    destruct Hfailed as (f' & Hf' & Hfi' & Hfs' & Harray' & Hheap').
    split; [by exists f'|done].
  - intros Hhandle Hfailed. simpl.
    eapply (wp_failed_state _ (fun _ _ => True)) in Hfailed;
      [|by apply libscca_file_open_file_io_handle_releases].
    destruct Hfailed as [(f' & Hf' & Hfi' & Hfs' & Harray' & Hheap') Hhandle'].
    rewrite Hf' in Hhandle'. simpl in Hhandle'.
    split; [by exists f'|]. split; [done|].
    unfold libscca_file_get_number_of_volumes, libscca_file_get_number_of_filenames,
      mbind, M_bind, get, checked.
    rewrite Hf'. simpl. by rewrite Harray', Hfs'.
Qed.

Lemma parse_failure_releases_every_entity_witness :
  (let s' := snd (libscca_file_open_read (D := spec_declarations) (Some 0%nat)
                    (Example.ready_to_read
                       (Example.file_with_volumes 2 Example.volume_block_malformed_strings))) in
   not_parsed s' ∧ heap_live (s_world s') = 3)
  ∧ (let s' := snd (libscca_file_open_file_io_handle (D := spec_declarations)
                      (Some 0%nat) 1
                      (Example.initialized
                         (Example.file_with_volumes 2 Example.volume_block_malformed_strings))) in
     unopened s'
     ∧ heap_live (s_world s') = 3
     ∧ fst (libscca_file_get_number_of_volumes s') = Returned 0
     ∧ failed (fst (libscca_file_get_number_of_filenames s')) = true).
Proof.
  split.
  - apply (parse_failure_releases_every_entity (D := spec_declarations) (Some 0%nat) 1
             (Example.ready_to_read
                (Example.file_with_volumes 2 Example.volume_block_malformed_strings))).
    + eexists. vm_compute. repeat split.
    + vm_compute. reflexivity.
  - apply (parse_failure_releases_every_entity (D := spec_declarations) (Some 0%nat) 1
             (Example.initialized
                (Example.file_with_volumes 2 Example.volume_block_malformed_strings))).
    + eexists. vm_compute. repeat split.
    + vm_compute. reflexivity.
    + vm_compute. reflexivity.
Defined.

(** ** The life cycle of the file handle *)

(** C8. [libscca_file_initialize] returns -1 with an invalid-value argument
    error when [file] is [NULL] and with a value-already-set error when
    [*file] is not [NULL], and leaves the session as it is; when [*file] is
    [NULL] and the three allocations succeed, it returns 1 and [*file] is
    the zeroed file handle with an empty volumes array and a zeroed IO
    handle. *)
Theorem libscca_file_initialize_requires_null (s : session) :
  libscca_file_initialize None s
  = (Failed [mk_error LIBCERROR_ERROR_DOMAIN_ARGUMENTS
               LIBCERROR_ARGUMENT_ERROR_INVALID_VALUE
               "libscca_file_initialize: invalid file."], s)
  ∧ (is_Some (s_file s) ->
     libscca_file_initialize (Some tt) s
     = (Failed [mk_error LIBCERROR_ERROR_DOMAIN_RUNTIME
                  LIBCERROR_RUNTIME_ERROR_VALUE_ALREADY_SET
                  "libscca_file_initialize: invalid file value already set."], s))
  ∧ (s_file s = None ->
     heap_live (s_world s) + 3 <= heap_capacity (s_world s) ->
     libscca_file_initialize (Some tt) s
     = (Returned tt,
        mk_session (Some initialized_file)
          (set_heap_live (heap_live (s_world s) + 3) (s_world s)))).
Proof.
  split; [done|]. split.
  - intros [f Hf]. unfold libscca_file_initialize, mbind, M_bind, get. by rewrite Hf.
  - intros Hf Hheap. destruct s as [file [live capacity hs fs]]. simpl in *. subst file.
    unfold libscca_file_initialize, libscca_io_handle_initialize,
      libcdata_array_initialize, mbind, M_bind, get, put, on_error, in_session,
      checked, memory_allocate, mret, M_ret. simpl.
    repeat (case_decide; simpl; try lia).
    unfold initialized_file, zeroed_file, set_heap_live. simpl.
    do 3 f_equal. lia.
Qed.

Lemma libscca_file_initialize_requires_null_witness :
  libscca_file_initialize (Some tt) (Example.initialized Example.minimal_file)
  = (Failed [mk_error LIBCERROR_ERROR_DOMAIN_RUNTIME
               LIBCERROR_RUNTIME_ERROR_VALUE_ALREADY_SET
               "libscca_file_initialize: invalid file value already set."],
     Example.initialized Example.minimal_file)
  ∧ libscca_file_initialize (Some tt) (Example.session_with Example.minimal_file)
    = (Returned tt,
       mk_session (Some initialized_file)
         (set_heap_live 3 (Example.world_with Example.minimal_file))).
Proof.
  split.
  - apply (libscca_file_initialize_requires_null
             (Example.initialized Example.minimal_file)).
    vm_compute. by eexists.
  - apply (libscca_file_initialize_requires_null
             (Example.session_with Example.minimal_file)).
    + reflexivity.
    + vm_compute. discriminate.
Defined.

Section Access_flags.
Context {D : Declarations}.

Lemma check_access_flags_rejects {A} function access_flags (continue : M session A) s :
  rejected_access_flags access_flags ->
  exists message,
    check_access_flags function access_flags continue s
    = (Failed [mk_error LIBCERROR_ERROR_DOMAIN_ARGUMENTS
                 LIBCERROR_ARGUMENT_ERROR_UNSUPPORTED_VALUE message], s).
Proof.
  intros Hbad. unfold check_access_flags.
  repeat case_decide; try (by eexists). unfold rejected_access_flags in Hbad.
  tauto.
Qed.

Lemma libscca_file_open_rejects filename access_flags s :
  rejected_access_flags access_flags ->
  exists error, libscca_file_open filename access_flags s = (Failed error, s).
Proof.
  intros Hbad. unfold libscca_file_open, mbind, M_bind, get.
  destruct (s_file s) as [f|], filename as [name|]; try (by eexists).
  destruct (check_access_flags_rejects "libscca_file_open"
    access_flags (open_named "libscca_file_open" (narrow_name name) access_flags) s Hbad)
    as [message ->]. by eexists.
Qed.

Lemma libscca_file_open_wide_rejects filename access_flags s :
  rejected_access_flags access_flags ->
  exists error, libscca_file_open_wide filename access_flags s = (Failed error, s).
Proof.
  intros Hbad. unfold libscca_file_open_wide, mbind, M_bind, get.
  destruct (s_file s) as [f|], filename as [name|]; try (by eexists).
  destruct (check_access_flags_rejects "libscca_file_open_wide"
    access_flags (open_named "libscca_file_open_wide" (wide_name name) access_flags) s Hbad)
    as [message ->]. by eexists.
Qed.

Lemma libscca_file_open_file_io_handle_rejects file_io_handle access_flags s :
  rejected_access_flags access_flags ->
  exists error,
    libscca_file_open_file_io_handle file_io_handle access_flags s = (Failed error, s).
Proof.
  intros Hbad. unfold libscca_file_open_file_io_handle, mbind at 1, M_bind at 1, get.
  destruct (s_file s) as [f|]; [|by eexists].
  destruct (decide (Internal_file.file_io_handle f ≠ None)); [by eexists|].
  destruct (decide (file_io_handle = None)); [by eexists|].
  match goal with
  | |- context [check_access_flags ?function _ ?continue] =>
      destruct (check_access_flags_rejects function access_flags continue s Hbad)
        as [message ->]
  end. by eexists.
Qed.

End Access_flags.

(** C9. Every open function rejects access flags that include the write
    flag and access flags that include neither the read nor the write flag:
    it returns -1 and leaves the session, its file handle and the world
    with its stock of file IO handles, exactly as they were, so that no
    handle is created or opened; when the arguments checked before the
    flags are valid the error is an unsupported-value argument error. Hence
    an open function returns 1 only for access flags with the read flag and
    without the write flag. *)
Theorem open_rejects_write_and_no_access {D : Declarations}
    (access_flags : Z) (s : session) :
  (rejected_access_flags access_flags ->
   (forall filename,
      failed (fst (libscca_file_open filename access_flags s)) = true
      ∧ snd (libscca_file_open filename access_flags s) = s)
   ∧ (forall filename,
        failed (fst (libscca_file_open_wide filename access_flags s)) = true
        ∧ snd (libscca_file_open_wide filename access_flags s) = s)
   ∧ (forall file_io_handle,
        failed (fst (libscca_file_open_file_io_handle file_io_handle access_flags s)) = true
        ∧ snd (libscca_file_open_file_io_handle file_io_handle access_flags s) = s)
   ∧ (forall internal_file, s_file s = Some internal_file ->
        (forall filename, exists message,
           fst (libscca_file_open (Some filename) access_flags s)
           = Failed [mk_error LIBCERROR_ERROR_DOMAIN_ARGUMENTS
                       LIBCERROR_ARGUMENT_ERROR_UNSUPPORTED_VALUE message])
        ∧ (forall filename, exists message,
             fst (libscca_file_open_wide (Some filename) access_flags s)
             = Failed [mk_error LIBCERROR_ERROR_DOMAIN_ARGUMENTS
                         LIBCERROR_ARGUMENT_ERROR_UNSUPPORTED_VALUE message])
        ∧ (Internal_file.file_io_handle internal_file = None ->
           forall file_io_handle : nat, exists message,
             fst (libscca_file_open_file_io_handle (Some file_io_handle) access_flags s)
             = Failed [mk_error LIBCERROR_ERROR_DOMAIN_ARGUMENTS
                         LIBCERROR_ARGUMENT_ERROR_UNSUPPORTED_VALUE message])))
  ∧ (forall filename wide_filename file_io_handle,
       returned (fst (libscca_file_open filename access_flags s)) = true
       ∨ returned (fst (libscca_file_open_wide wide_filename access_flags s)) = true
       ∨ returned (fst (libscca_file_open_file_io_handle file_io_handle access_flags s)) = true ->
       Z.land access_flags LIBSCCA_ACCESS_FLAG_READ ≠ 0
       ∧ Z.land access_flags LIBSCCA_ACCESS_FLAG_WRITE = 0).
Proof.
  split.
  - intros Hbad.
    split; [intros filename;
      by destruct (libscca_file_open_rejects filename access_flags s Hbad) as [e ->]|].
    split; [intros filename;
      by destruct (libscca_file_open_wide_rejects filename access_flags s Hbad) as [e ->]|].
    split; [intros file_io_handle;
      by destruct (libscca_file_open_file_io_handle_rejects file_io_handle
                     access_flags s Hbad) as [e ->]|].
    intros internal_file Hfile. repeat split.
    + intros filename. unfold libscca_file_open, mbind, M_bind, get. rewrite Hfile.
      destruct (check_access_flags_rejects "libscca_file_open" access_flags
        (open_named "libscca_file_open" (narrow_name filename) access_flags) s Hbad)
        as [message ->]. by exists message.
    + intros filename. unfold libscca_file_open_wide, mbind, M_bind, get. rewrite Hfile.
      destruct (check_access_flags_rejects "libscca_file_open_wide" access_flags
        (open_named "libscca_file_open_wide" (wide_name filename) access_flags) s Hbad)
        as [message ->]. by exists message.
    + intros Hnone file_io_handle.
      unfold libscca_file_open_file_io_handle, mbind at 1, M_bind at 1, get.
      rewrite Hfile, Hnone. simpl.
      match goal with
      | |- context [check_access_flags ?function _ ?continue] =>
          destruct (check_access_flags_rejects function access_flags continue s Hbad)
            as [message ->]
      end. by exists message.
  - intros filename wide_filename file_io_handle Hreturned.
    destruct (decide (Z.land access_flags LIBSCCA_ACCESS_FLAG_WRITE = 0)) as [Hw|Hw];
      [destruct (decide (Z.land access_flags LIBSCCA_ACCESS_FLAG_READ = 0)) as [Hr|Hr];
       [|done]|].
    all: assert (rejected_access_flags access_flags) as Hbad
      by (unfold rejected_access_flags; tauto).
    all: destruct (libscca_file_open_rejects filename access_flags s Hbad) as [e1 H1].
    all: destruct (libscca_file_open_wide_rejects wide_filename access_flags s Hbad)
      as [e2 H2].
    all: destruct (libscca_file_open_file_io_handle_rejects file_io_handle
      access_flags s Hbad) as [e3 H3].
    all: rewrite H1, H2, H3 in Hreturned; simpl in Hreturned;
      by destruct Hreturned as [?|[?|?]].
Qed.

Lemma open_rejects_write_and_no_access_witness :
  failed (fst (libscca_file_open (D := spec_declarations) (Some "A.pf"%string) 3
                 (Example.initialized Example.minimal_file))) = true
  ∧ snd (libscca_file_open (D := spec_declarations) (Some "A.pf"%string) 3
           (Example.initialized Example.minimal_file))
    = Example.initialized Example.minimal_file.
Proof.
  apply (open_rejects_write_and_no_access (D := spec_declarations) 3
           (Example.initialized Example.minimal_file)).
  left. vm_compute. discriminate.
Defined.

(** ** The statements of [libscca_file_close] *)

(** The result is still 0 after a call only when it was 0 before and the call
    did not fail. *)
Lemma attempt_result {A} (call : M session A) domain code message c :
  cs_result (attempt call domain code message c) = 0 ->
  cs_result c = 0
  ∧ failed (fst (call (cs_session c))) = false
  ∧ cs_session (attempt call domain code message c) = snd (call (cs_session c)).
Proof.
  unfold attempt. destruct (call (cs_session c)) as [[a|e|o n b] s']; done.
Qed.

Lemma then_close_file statement f c :
  close_file c = Some f -> then_close statement c = statement f c.
Proof. unfold then_close. by intros ->. Qed.

Lemma attempt_file {A} (call : M session A) domain code message c :
  (forall s, is_Some (s_file s) -> is_Some (s_file (snd (call s)))) ->
  is_Some (close_file c) ->
  is_Some (close_file (attempt call domain code message c)).
Proof.
  intros H Hc. specialize (H _ Hc). unfold close_file, attempt in *.
  by destruct (call (cs_session c)) as [[a|e|o n b] s'].
Qed.

Lemma in_session_file {A} (m : M world A) s :
  s_file (snd (in_session m s)) = s_file s.
Proof. unfold in_session. by destruct (m (s_world s)). Qed.

Lemma in_session_update_file {A} (m : M world A) g s :
  is_Some (s_file s) ->
  is_Some (s_file (snd ((in_session m;; update_file g) s))).
Proof.
  intros [f Hf]. unfold mbind, M_bind, in_session, update_file, modify.
  destruct (m (s_world s)) as [[a|e|o n b] w]; simpl; rewrite Hf; eauto.
Qed.

Lemma proceed_closes g : closes (proceed g) g (fun _ => 0).
Proof.
  intros c f Hf. unfold close_file, proceed in *. simpl in *.
  rewrite Hf. split_and!; [by eexists|]. intros H. split_and!; [done|done|lia].
Qed.

(** The calls of libbfio end by returning: they read no buffer. *)
Lemma libbfio_handle_close_ends handle w :
  match libbfio_handle_close handle w with
  | (Returned _, w') => heap_live w' = heap_live w
  | (Failed _, w') => w' = w
  | (OutOfBounds _ _ _, _) => False
  end.
Proof.
  unfold libbfio_handle_close.
  destruct handle as [i|]; [|done].
  destruct (handle_lookup w (Some i)) as [h|]; [|done].
  by destruct (bfio_is_open h).
Qed.

Lemma libbfio_handle_free_ends handle w :
  match libbfio_handle_free handle w with
  | (Returned _, w') => heap_live w' = heap_live w - 1
  | (Failed _, w') => w' = w
  | (OutOfBounds _ _ _, _) => False
  end.
Proof.
  unfold libbfio_handle_free.
  destruct handle as [i|]; [|done].
  by destruct (handle_lookup w (Some i)) as [h|].
Qed.

Lemma close_file_io_handle_closes :
  closes (then_close close_file_io_handle)
    (Internal_file.set_file_io_handle_opened_in_library 0) (fun _ => 0).
Proof.
  intros c f Hf. rewrite (then_close_file _ f) by done.
  unfold close_file_io_handle. case_decide as Hopened.
  - split.
    { unfold proceed, close_file. simpl. apply fmap_is_Some.
      apply attempt_file; [|by eexists].
      intros s. by rewrite in_session_file. }
    intros H. simpl in H. apply attempt_result in H as (H0 & Hcall & Hs).
    unfold close_file, proceed. simpl. rewrite Hs. unfold close_file in Hf.
    unfold in_session in *.
    pose proof (libbfio_handle_close_ends (Internal_file.file_io_handle f)
                  (s_world (cs_session c))) as Hheap.
    destruct (libbfio_handle_close _ _) as [[[]|e|o n b] w]; simpl in *;
      [|done..]. rewrite Hf. split_and!; [done..|lia].
  - split; [by eexists|]. intros H. split_and!; [done| |lia].
    rewrite Hf. f_equal. destruct f as [io h created opened hash fi fs array].
    unfold Internal_file.set_file_io_handle_opened_in_library.
    simpl in *. f_equal. destruct (decide (opened = 0)); [done|].
    by destruct Hopened.
Qed.

Lemma close_free_file_io_handle_closes :
  closes (then_close close_free_file_io_handle)
    (fun f => Internal_file.set_file_io_handle_created_in_library 0
       (if decide (Internal_file.file_io_handle_created_in_library f ≠ 0)
        then Internal_file.set_file_io_handle None f else f))
    (fun f => if decide (Internal_file.file_io_handle_created_in_library f ≠ 0)
     then 1 else 0).
Proof.
  intros c f Hf. rewrite (then_close_file _ f) by done.
  unfold close_free_file_io_handle. case_decide as Hcreated.
  - split.
    { unfold proceed, close_file. simpl. apply fmap_is_Some.
      apply attempt_file; [|by eexists].
      intros s. apply in_session_update_file. }
    intros H. simpl in H. apply attempt_result in H as (H0 & Hcall & Hs).
    unfold close_file, proceed. simpl. rewrite Hs. unfold close_file in Hf.
    unfold mbind, M_bind, in_session, update_file, modify in *.
    pose proof (libbfio_handle_free_ends (Internal_file.file_io_handle f)
                  (s_world (cs_session c))) as Hheap.
    destruct (libbfio_handle_free _ _) as [[[]|e|o n b] w]; simpl in *;
      [|done..]. rewrite Hf. split_and!; [done..|lia].
  - split; [by eexists|]. intros H. split_and!; [done| |lia].
    rewrite Hf. f_equal. destruct f as [io h created opened hash fi fs array].
    unfold Internal_file.set_file_io_handle_created_in_library.
    simpl in *. f_equal. destruct (decide (created = 0)); [done|].
    by destruct Hcreated.
Qed.

Lemma close_clear_io_handle_closes :
  closes (then_close close_clear_io_handle)
    (Internal_file.set_io_handle (Some zeroed_io_handle)) (fun _ => 0).
Proof.
  intros c f Hf. rewrite (then_close_file _ f) by done.
  unfold close_clear_io_handle. split.
  { apply attempt_file; [|by eexists]. intros s [f' Hf'].
    unfold mbind, M_bind, libscca_io_handle_clear, update_file, modify.
    destruct (Internal_file.io_handle f); simpl; rewrite Hf'; by eexists. }
  intros H. apply attempt_result in H as (H0 & Hcall & Hs).
  unfold close_file. rewrite Hs. unfold close_file in Hf.
  unfold mbind, M_bind, libscca_io_handle_clear, update_file, modify in *.
  destruct (Internal_file.io_handle f); simpl in *; [|done].
  rewrite Hf. split_and!; [done..|lia].
Qed.

Lemma close_free_file_information_closes :
  closes (then_close close_free_file_information)
    (Internal_file.set_file_information None)
    (fun f => match Internal_file.file_information f with Some _ => 1 | None => 0 end).
Proof.
  intros c f Hf. rewrite (then_close_file _ f) by done.
  unfold close_free_file_information.
  destruct f as [io h created opened hash fi fs array]. simpl.
  destruct fi as [fi|].
  - split.
    { apply attempt_file; [|by eexists]. intros s. apply in_session_update_file. }
    intros H. apply attempt_result in H as (H0 & Hcall & Hs).
    unfold close_file. rewrite Hs. unfold close_file in Hf.
    unfold mbind, M_bind, in_session, update_file, modify,
      libscca_file_information_free, memory_free in *.
    simpl. rewrite Hf. split_and!; [done..|lia].
  - split; [by eexists|]. intros H. split_and!; [done..|lia].
Qed.

Lemma close_free_filename_strings_closes :
  closes (then_close close_free_filename_strings)
    (Internal_file.set_filename_strings None)
    (fun f => match Internal_file.filename_strings f with Some _ => 1 | None => 0 end).
Proof.
  intros c f Hf. rewrite (then_close_file _ f) by done.
  unfold close_free_filename_strings.
  destruct f as [io h created opened hash fi fs array]. simpl.
  destruct fs as [fs|].
  - split.
    { apply attempt_file; [|by eexists]. intros s. apply in_session_update_file. }
    intros H. apply attempt_result in H as (H0 & Hcall & Hs).
    unfold close_file. rewrite Hs. unfold close_file in Hf.
    unfold mbind, M_bind, in_session, update_file, modify,
      libfvalue_value_free, memory_free in *.
    simpl. rewrite Hf. split_and!; [done..|lia].
  - split; [by eexists|]. intros H. split_and!; [done..|lia].
Qed.

Lemma close_resize_volumes_array_closes :
  closes (then_close close_resize_volumes_array)
    (Internal_file.set_volumes_array (Some []))
    (fun f => volumes_array_blocks (Internal_file.volumes_array f)).
Proof.
  intros c f Hf. rewrite (then_close_file _ f) by done.
  unfold close_resize_volumes_array. split.
  { apply attempt_file; [|by eexists]. intros s [f' Hf'].
    unfold mbind, M_bind, in_session, update_file, modify, libcdata_array_resize.
    destruct (Internal_file.volumes_array f); simpl; rewrite Hf'; by eexists. }
  intros H. apply attempt_result in H as (H0 & Hcall & Hs).
  unfold close_file. rewrite Hs. unfold close_file in Hf.
  unfold mbind, M_bind, in_session, update_file, modify, libcdata_array_resize in *.
  destruct (Internal_file.volumes_array f) as [l|]; simpl in *; [|done].
  rewrite Hf. split_and!; [done..|]. apply volumes_array_free_heap.
Qed.

(** Two statements in a row. *)
Lemma closes_then statement statement' g g' blocks blocks' :
  closes statement g blocks -> closes statement' g' blocks' ->
  closes (fun c => statement' (statement c)) (fun f => g' (g f))
    (fun f => blocks f + blocks' (g f)).
Proof.
  intros H H' c f Hf.
  destruct (H c f Hf) as [[f1 Hf1] H1].
  destruct (H' (statement c) f1 Hf1) as [H2 H3].
  split; [done|]. intros Hresult.
  destruct (H3 Hresult) as (H4 & H5 & H6).
  destruct (H1 H4) as (H7 & H8 & H9).
  rewrite Hf1 in H8. injection H8 as ->.
  split_and!; [done..|lia].
Qed.

(** The statements of [libscca_file_close], from the first to the last. *)
Lemma close_statements_close :
  closes
    (fun c =>
       then_close close_resize_volumes_array
         (then_close close_free_filename_strings
            (then_close close_free_file_information
               (proceed (Internal_file.set_prefetch_hash 0)
                  (then_close close_clear_io_handle
                     (proceed (Internal_file.set_file_io_handle None)
                        (then_close close_free_file_io_handle
                           (then_close close_file_io_handle c))))))))
    (fun _ => initialized_file)
    (fun f => file_blocks f
              + (if decide (Internal_file.file_io_handle_created_in_library f ≠ 0)
                 then 1 else 0)).
Proof.
  pose proof (closes_then _ _ _ _ _ _ close_file_io_handle_closes
    (closes_then _ _ _ _ _ _ close_free_file_io_handle_closes
    (closes_then _ _ _ _ _ _ (proceed_closes (Internal_file.set_file_io_handle None))
    (closes_then _ _ _ _ _ _ close_clear_io_handle_closes
    (closes_then _ _ _ _ _ _ (proceed_closes (Internal_file.set_prefetch_hash 0))
    (closes_then _ _ _ _ _ _ close_free_file_information_closes
    (closes_then _ _ _ _ _ _ close_free_filename_strings_closes
       close_resize_volumes_array_closes))))))) as H.
  intros c f Hf. destruct (H c f Hf) as [H1 H2]. split; [done|].
  intros Hresult. destruct (H2 Hresult) as (H3 & H4 & H5).
  split_and!; [done| |].
  - rewrite H4. f_equal. destruct f as [io h created opened hash fi fs array].
    by case_decide.
  - rewrite H5. destruct f as [io h created opened hash fi fs array].
    unfold file_blocks. simpl. destruct (decide (created ≠ 0)), fi, fs; simpl; lia.
Qed.

(** C10. When [libscca_file_close] succeeds it returns 0, and the file
    handle is the one that [libscca_file_initialize] makes: the file IO
    handle reference is [NULL], the format version, the file size and the
    abort flag of the IO handle and the prefetch hash are 0, the file
    information and the filename strings are [NULL] and the volumes array
    is empty, so that the handle can be opened again; the blocks of the file
    information, the filename strings and the volumes are freed, and so is
    the file IO handle when the library created it. *)
Theorem libscca_file_close_resets (s : session) :
  returned (fst (libscca_file_close s)) = true ->
  fst (libscca_file_close s) = Returned 0
  ∧ s_file (snd (libscca_file_close s)) = Some initialized_file
  ∧ unopened (snd (libscca_file_close s))
  ∧ exists f, s_file s = Some f
      ∧ heap_live (s_world (snd (libscca_file_close s)))
        = heap_live (s_world s) - file_blocks f
          - (if decide (Internal_file.file_io_handle_created_in_library f ≠ 0)
             then 1 else 0).
Proof.
  unfold libscca_file_close.
  destruct (s_file s) as [f|] eqn:Hf; [|done].
  case_decide; [done|]. cbv zeta.
  destruct (close_statements_close (mk_close_state 0 [] s) f Hf) as [_ H'].
  lazymatch goal with
  | |- context [decide (cs_result ?c = 0)] =>
      destruct (decide (cs_result c = 0)) as [Hresult|]; [|done]
  end. intros _.
  destruct (H' Hresult) as (_ & Hfile & Hheap). unfold close_file in Hfile.
  cbn [fst snd]. split_and!; [done|done| |].
  - exists initialized_file. by rewrite Hfile.
  - exists f. split; [done|]. rewrite Hheap. simpl. lia.
Qed.

Lemma libscca_file_close_resets_witness :
  let s := snd (libscca_file_open_file_io_handle (D := spec_declarations)
                  (Some 0%nat) 1
                  (Example.initialized
                     (Example.file_with_volumes 1 Example.volume_block))) in
  fst (libscca_file_close s) = Returned 0
  ∧ s_file (snd (libscca_file_close s)) = Some initialized_file
  ∧ heap_live (s_world s) = 7
  ∧ heap_live (s_world (snd (libscca_file_close s))) = 3.
Proof.
  intros s.
  destruct (libscca_file_close_resets s) as (H1 & H2 & _ & f & Hf & H3);
    [by vm_compute|].
  split_and!; [done|done|by vm_compute|by vm_compute].
Defined.

(** ** The decoder of the file header *)

Lemma handle_lookup_store i h w :
  (i < length (handles w))%nat -> handle_lookup (handle_store i h w) (Some i) = h.
Proof.
  intros Hi. unfold handle_lookup, handle_store. simpl.
  by rewrite list_lookup_insert_eq.
Qed.

Lemma handle_lookup_handles i h w :
  handles w !! i = Some h -> handle_lookup w (Some i) = h.
Proof. unfold handle_lookup. by intros ->. Qed.

Lemma handles_handle_store i h w :
  (i < length (handles w))%nat -> handles (handle_store i h w) !! i = Some h.
Proof. intros Hi. unfold handle_store. simpl. by rewrite list_lookup_insert_eq. Qed.

(** The calls of libbfio on an open handle. *)
Lemma libbfio_handle_get_size_open i data offset w :
  handles w !! i = Some (Some (mk_bfio (Some data) true offset)) ->
  libbfio_handle_get_size (Some i) w = (Returned (Z.of_nat (length data)), w).
Proof.
  intros Hh. unfold libbfio_handle_get_size.
  by rewrite (handle_lookup_handles _ _ _ Hh).
Qed.

Lemma libbfio_handle_seek_offset_open i data offset w to :
  handles w !! i = Some (Some (mk_bfio (Some data) true offset)) ->
  0 <= to ->
  libbfio_handle_seek_offset (Some i) to w
  = (Returned to, handle_store i (Some (mk_bfio (Some data) true to)) w).
Proof.
  intros Hh Hto. unfold libbfio_handle_seek_offset.
  rewrite (handle_lookup_handles _ _ _ Hh). by destruct (decide (0 <= to)).
Qed.

Lemma libbfio_handle_read_buffer_open i data offset w size :
  handles w !! i = Some (Some (mk_bfio (Some data) true offset)) ->
  libbfio_handle_read_buffer (Some i) size w
  = (Returned (take (Z.to_nat size) (drop (Z.to_nat offset) data)),
     handle_store i
       (Some (mk_bfio (Some data) true
                (offset + Z.of_nat (length (take (Z.to_nat size)
                                              (drop (Z.to_nat offset) data))))))
       w).
Proof.
  intros Hh. unfold libbfio_handle_read_buffer.
  by rewrite (handle_lookup_handles _ _ _ Hh).
Qed.

(** What the decoder of the file header returns on an open handle whose
    source has the 84 bytes of a file header: the signature decides alone. *)
Lemma libscca_io_handle_read_file_header_outcome io_handle i data offset w :
  handles w !! i = Some (Some (mk_bfio (Some data) true offset)) ->
  (84 <= length data)%nat ->
  fst (libscca_io_handle_read_file_header (Some io_handle) (Some i) w)
  = if decide (file_header_signature (take 84 data) = scca_file_signature)
    then Returned
           (mk_io_handle
              (byte_stream_copy_to_uint32_little_endian
                 (file_header_format_version (take 84 data)))
              (byte_stream_copy_to_uint32_little_endian
                 (file_header_file_size (take 84 data)))
              (abort io_handle),
            byte_stream_copy_to_uint32_little_endian
              (file_header_prefetch_hash (take 84 data)))
    else Failed [mk_error LIBCERROR_ERROR_DOMAIN_RUNTIME
                   LIBCERROR_RUNTIME_ERROR_UNSUPPORTED_VALUE
                   "libscca_io_handle_read_file_header: invalid signature."].
Proof.
  intros Hh Hlen.
  assert (Hi : (i < length (handles w))%nat) by (by eapply lookup_lt_Some).
  unfold libscca_io_handle_read_file_header, mbind, M_bind, checked.
  rewrite (libbfio_handle_get_size_open _ _ _ _ Hh).
  rewrite (libbfio_handle_seek_offset_open _ _ _ _ 0 Hh) by done.
  rewrite (libbfio_handle_read_buffer_open _ _ 0 _ _ (handles_handle_store _ _ _ Hi)).
  change (Z.to_nat sizeof_scca_file_header_t) with 84%nat.
  change (Z.to_nat 0) with 0%nat. rewrite drop_0.
  rewrite length_take, Nat.min_l by done.
  change (Z.of_nat 84) with sizeof_scca_file_header_t.
  destruct (decide (sizeof_scca_file_header_t ≠ sizeof_scca_file_header_t)); [done|].
  destruct (decide (file_header_signature (take 84 data) = scca_file_signature))
    as [Heq|Hne].
  - destruct (decide (file_header_signature (take 84 data) ≠ scca_file_signature));
      done.
  - destruct (decide (file_header_signature (take 84 data) ≠ scca_file_signature));
      done.
Qed.

(** C2 (corrected). On an open handle whose source has the 84 bytes of a file
    header, the decoder of the file header fails with the error
    [invalid signature] when the bytes 4 to 7 are not [SCCA], and otherwise
    returns 1 with the format version that it decoded, whatever that version
    is; the format version is checked by the decoder of the metrics array,
    which fails with an unsupported value error, before it reads, when the
    version is not 17, 23 or 26. *)
Theorem file_header_checks_signature_only (io_handle : libscca_io_handle_t)
    (i : nat) (data : list Z) (offset : Z) (w : world) :
  handles w !! i = Some (Some (mk_bfio (Some data) true offset)) ->
  (84 <= length data)%nat ->
  let result := fst (libscca_io_handle_read_file_header (Some io_handle) (Some i) w) in
  (file_header_signature (take 84 data) ≠ scca_file_signature ->
   result = Failed [mk_error LIBCERROR_ERROR_DOMAIN_RUNTIME
                      LIBCERROR_RUNTIME_ERROR_UNSUPPORTED_VALUE
                      "libscca_io_handle_read_file_header: invalid signature."])
  ∧ (file_header_signature (take 84 data) = scca_file_signature ->
     exists decoded prefetch_hash,
       result = Returned (decoded, prefetch_hash)
       ∧ format_version decoded
         = byte_stream_copy_to_uint32_little_endian
             (file_header_format_version (take 84 data)))
  ∧ (forall file_io_handle file_offset number_of_entries w',
       format_version io_handle ≠ 17 ->
       format_version io_handle ≠ 23 ->
       format_version io_handle ≠ 26 ->
       libscca_io_handle_read_metrics_array (Some io_handle) file_io_handle
         file_offset number_of_entries w'
       = (Failed [mk_error LIBCERROR_ERROR_DOMAIN_ARGUMENTS
                    LIBCERROR_ARGUMENT_ERROR_UNSUPPORTED_VALUE
                    "libscca_io_handle_read_metrics_array: invalid IO handle - unsupported format version."],
          w')).
Proof.
  intros Hh Hlen result. subst result.
  rewrite (libscca_io_handle_read_file_header_outcome _ _ _ _ _ Hh Hlen).
  split_and!.
  - intros Hne. by destruct (decide _).
  - intros Heq. destruct (decide _); [|done]. by eexists _, _.
  - intros file_io_handle file_offset number_of_entries w' H17 H23 H26.
    unfold libscca_io_handle_read_metrics_array.
    destruct (decide _) as [|Hno]; [done|]. by destruct Hno.
Qed.

Lemma file_header_checks_signature_only_witness :
  fst (libscca_io_handle_read_file_header (Some zeroed_io_handle) (Some 0%nat)
         (s_world (Example.ready_to_read
                     (Example.file_header_with [83; 67; 67; 66] 17 84))))
  = Failed [mk_error LIBCERROR_ERROR_DOMAIN_RUNTIME
              LIBCERROR_RUNTIME_ERROR_UNSUPPORTED_VALUE
              "libscca_io_handle_read_file_header: invalid signature."].
Proof.
  apply (file_header_checks_signature_only zeroed_io_handle 0
           (Example.file_header_with [83; 67; 67; 66] 17 84) 0
           (s_world (Example.ready_to_read
                       (Example.file_header_with [83; 67; 67; 66] 17 84)))).
  - reflexivity.
  - vm_compute. lia.
  - vm_compute. discriminate.
Defined.

(** C2, counterexample. A file header with the signature [SCCA] and the
    format version 30: the decoder of the file header returns 1, with the
    format version 30 in the IO handle. *)
Lemma file_header_of_version_30_is_read :
  fst (libscca_io_handle_read_file_header (Some zeroed_io_handle) (Some 0%nat)
         (s_world (Example.ready_to_read (Example.file_header 30 84))))
  = Returned (mk_io_handle 30 84 0, 3735928559).
Proof. by vm_compute. Qed.

(** C3 (corrected). On an open handle whose source starts with a file header
    with the right signature, the decoder of the file header returns 1
    whether or not the file size in the header is the size of the source,
    and what it returns is decided by the 84 bytes of the header: on a source
    of another size with the same header it returns the same IO handle and
    the same prefetch hash. Nothing that it returns says that the sizes
    differ. *)
Theorem file_size_mismatch_is_not_recorded (io_handle : libscca_io_handle_t)
    (i : nat) (data data' : list Z) (offset offset' : Z) (w w' : world) :
  handles w !! i = Some (Some (mk_bfio (Some data) true offset)) ->
  handles w' !! i = Some (Some (mk_bfio (Some data') true offset')) ->
  (84 <= length data)%nat ->
  take 84 data' = take 84 data ->
  file_header_signature (take 84 data) = scca_file_signature ->
  returned (fst (libscca_io_handle_read_file_header (Some io_handle) (Some i) w))
  = true
  ∧ fst (libscca_io_handle_read_file_header (Some io_handle) (Some i) w')
    = fst (libscca_io_handle_read_file_header (Some io_handle) (Some i) w).
Proof.
  intros Hh Hh' Hlen Htake Hsignature.
  assert (Hlen' : (84 <= length data')%nat).
  { apply (f_equal length) in Htake. rewrite !length_take in Htake. lia. }
  rewrite (libscca_io_handle_read_file_header_outcome _ _ _ _ _ Hh Hlen).
  rewrite (libscca_io_handle_read_file_header_outcome _ _ _ _ _ Hh' Hlen').
  rewrite Htake. by destruct (decide _).
Qed.

Lemma file_size_mismatch_is_not_recorded_witness :
  fst (libscca_io_handle_read_file_header (Some zeroed_io_handle) (Some 0%nat)
         (s_world (Example.ready_to_read (Example.minimal_file ++ [0]))))
  = fst (libscca_io_handle_read_file_header (Some zeroed_io_handle) (Some 0%nat)
           (s_world (Example.ready_to_read Example.minimal_file))).
Proof.
  apply (file_size_mismatch_is_not_recorded zeroed_io_handle 0
           Example.minimal_file (Example.minimal_file ++ [0]) 0 0
           (s_world (Example.ready_to_read Example.minimal_file))
           (s_world (Example.ready_to_read (Example.minimal_file ++ [0])))).
  - reflexivity.
  - reflexivity.
  - vm_compute. lia.
  - reflexivity.
  - reflexivity.
Defined.

(** C3, counterexample. The minimal file says in its header that its size is
    240 bytes. Opened from a source of 240 bytes and from a source of 241
    bytes, it gives the same file handle: the IO handle, the file information
    and the rest are equal, and no value of the handle tells the two apart. *)
Lemma file_size_mismatch_leaves_no_trace :
  let matching := libscca_file_open_file_io_handle (D := spec_declarations)
                    (Some 0%nat) 1 (Example.initialized Example.minimal_file) in
  let differing := libscca_file_open_file_io_handle (D := spec_declarations)
                     (Some 0%nat) 1
                     (Example.initialized (Example.minimal_file ++ [0])) in
  Z.of_nat (length Example.minimal_file) = 240
  ∧ Z.of_nat (length (Example.minimal_file ++ [0])) = 241
  ∧ (s_file (snd differing) ≫= Internal_file.io_handle)
    = Some (mk_io_handle 17 240 0)
  ∧ fst matching = Returned tt
  ∧ fst differing = Returned tt
  ∧ s_file (snd differing) = s_file (snd matching).
Proof. by vm_compute. Qed.

(** C5 (corrected). [libscca_file_signal_abort] sets the abort flag of the
    IO handle to 1, and [libscca_file_open_read] clears the flag before it
    reads: a parse started after the signal runs as the parse of a file
    handle whose flag was never set, to the same return value and the same
    state. The file handle is one that can be parsed: no file information
    and no filename strings are set in it. *)
Theorem open_read_clears_abort {D : Declarations} (file_io_handle : option nat)
    (f : libscca_internal_file_t) (io_handle : libscca_io_handle_t) (w : world) :
  Internal_file.io_handle f = Some io_handle ->
  Internal_file.file_information f = None ->
  Internal_file.filename_strings f = None ->
  let with_abort := fun value =>
    mk_session
      (Some (Internal_file.set_io_handle
               (Some (mk_io_handle (format_version io_handle) (file_size io_handle)
                        value)) f)) w in
  libscca_file_signal_abort (mk_session (Some f) w) = (Returned tt, with_abort 1)
  ∧ libscca_file_open_read file_io_handle (with_abort 1)
    = libscca_file_open_read file_io_handle (with_abort 0).
Proof.
  intros Hio Hinformation Hstrings with_abort. split.
  - unfold libscca_file_signal_abort, mbind, M_bind, get. simpl. by rewrite Hio.
  - unfold libscca_file_open_read.
    set (body := on_error _ _).
    unfold mbind, M_bind, get, with_abort, update_file, modify. simpl.
    rewrite Hinformation, Hstrings. by repeat case_decide.
Qed.

Lemma open_read_clears_abort_witness :
  libscca_file_open_read (D := spec_declarations) (Some 0%nat)
    (snd (libscca_file_signal_abort (Example.ready_to_read Example.minimal_file)))
  = libscca_file_open_read (D := spec_declarations) (Some 0%nat)
      (Example.ready_to_read Example.minimal_file).
Proof.
  destruct (open_read_clears_abort (D := spec_declarations) (Some 0%nat)
              (Internal_file.set_file_io_handle_opened_in_library 1
                 (Internal_file.set_file_io_handle (Some 0%nat) initialized_file))
              zeroed_io_handle
              (s_world (Example.ready_to_read Example.minimal_file))
              eq_refl eq_refl eq_refl) as [_ H].
  exact H.
Defined.

(** C5, counterexample. After [libscca_file_signal_abort], opening the
    minimal file returns 1, the file information is set, and the abort flag
    is 0 again. *)
Lemma parse_after_signal_abort_completes :
  let s := snd (libscca_file_signal_abort (Example.initialized Example.minimal_file)) in
  let s' := snd (libscca_file_open_file_io_handle (D := spec_declarations)
                   (Some 0%nat) 1 s) in
  fst (libscca_file_signal_abort (Example.initialized Example.minimal_file))
  = Returned tt
  ∧ (s_file s ≫= Internal_file.io_handle) = Some (mk_io_handle 0 0 1)
  ∧ fst (libscca_file_open_file_io_handle (D := spec_declarations) (Some 0%nat) 1 s)
    = Returned tt
  ∧ (s_file s' ≫= Internal_file.io_handle) = Some (mk_io_handle 17 240 0)
  ∧ is_Some (s_file s' ≫= Internal_file.file_information).
Proof. vm_compute. split_and!; try done. by eexists. Qed.

(** ** The file references of a volume *)

Lemma read_data_in_bounds offset size s data :
  vs_volumes_information_data s = Some data ->
  0 <= size -> 0 <= offset -> offset + size <= Z.of_nat (length data) ->
  read_data offset size s
  = (Returned (slice (Z.to_nat offset) (Z.to_nat size) data), vs_add_read offset size s).
Proof.
  intros Hdata Hsize Hoffset Hend. unfold read_data. rewrite Hdata. change (default [] (Some data)) with data.
  destruct (decide _) as [|Hno]; [done|]. destruct Hno. lia.
Qed.

Lemma read_uint32_in_bounds offset s data :
  vs_volumes_information_data s = Some data ->
  0 <= offset -> offset + 4 <= Z.of_nat (length data) ->
  read_uint32 offset s
  = (Returned (byte_stream_copy_to_uint32_little_endian
                 (slice (Z.to_nat offset) 4 data)),
     vs_add_read offset 4 s).
Proof.
  intros Hdata Hoffset Hend. unfold read_uint32, fmap, M_fmap, mbind, M_bind.
  by rewrite (read_data_in_bounds _ _ _ data) by (done || lia).
Qed.

Lemma read_uint64_in_bounds offset s data :
  vs_volumes_information_data s = Some data ->
  0 <= offset -> offset + 8 <= Z.of_nat (length data) ->
  read_uint64 offset s
  = (Returned (byte_stream_copy_to_uint64_little_endian
                 (slice (Z.to_nat offset) 8 data)),
     vs_add_read offset 8 s).
Proof.
  intros Hdata Hoffset Hend. unfold read_uint64, fmap, M_fmap, mbind, M_bind.
  by rewrite (read_data_in_bounds _ _ _ data) by (done || lia).
Qed.

(** The loop over the file references, with its body for debug output, on
    data that holds the references: it decodes [count] values of 64 bits,
    the one of index [i] at [file_references_offset + 8 + i * 8]. *)
Lemma debug_file_references_in_bounds data file_references_offset count :
  forall file_references_index s,
    vs_volumes_information_data s = Some data ->
    0 <= file_references_offset -> 0 <= file_references_index ->
    file_references_offset + 8 + (file_references_index + Z.of_nat count) * 8
      <= Z.of_nat (length data) ->
    Z.of_nat (length data) < uint32_max ->
    exists s',
      debug_file_references file_references_offset file_references_index count s
      = (Returned
           ((fun k : nat => file_reference_at data file_references_offset
                              (file_references_index + Z.of_nat k))
              <$> seq 0 count), s')
      ∧ vs_volumes_information_data s' = Some data
      ∧ vs_reads s'
        = vs_reads s
          ++ ((fun k : nat =>
                 (file_references_offset + 8 + (file_references_index + Z.of_nat k) * 8, 8))
                <$> seq 0 count).
Proof.
  induction count as [|count IH]; intros index s Hdata Hoffset Hindex Hend Hmax.
  - exists s. simpl. by rewrite app_nil_r.
  - cbn [debug_file_references]. unfold mbind at 1, M_bind at 1.
    rewrite Z.mod_small by lia.
    rewrite (read_uint64_in_bounds _ _ data) by (done || lia).
    rewrite (Z.mod_small (index + 1)) by lia.
    destruct (IH (index + 1)
                (vs_add_read (file_references_offset + 8 + index * 8) 8 s))
      as (s' & Hrun & Hdata' & Hreads); [done|lia|lia|lia|lia|].
    exists s'. unfold mbind, M_bind. rewrite Hrun. cbn [seq fmap list_fmap].
    rewrite <- fmap_S_seq, <- !list_fmap_compose.
    split_and!; [|done|].
    + unfold mret, M_ret, file_reference_at. do 3 f_equal.
      * by replace (index + Z.of_nat 0) with index by lia.
      * apply list_fmap_ext. intros ? k ?. simpl.
        by replace (index + 1 + Z.of_nat k) with (index + Z.of_nat (S k)) by lia.
    + rewrite Hreads. simpl. rewrite <- app_assoc. simpl. do 2 f_equal.
      * by replace (index + Z.of_nat 0) with index by lia.
      * apply list_fmap_ext. intros ? k ?. simpl.
        by replace (index + 1 + Z.of_nat k) with (index + Z.of_nat (S k)) by lia.
Qed.

(** C1. The decoder of the volumes information does not validate the offsets
    that it decodes: with the file references at offset 1000, with a device
    path of 100 characters at offset 128, with the directory strings at
    offset 200 of volumes information of 136 bytes, and with two volumes in
    volumes information of 96 bytes, it reads outside of the data and does not
    fail with an error; on the volume of [Example.volume_block], whose
    offsets are inside of the data, it returns 1. *)
Theorem volumes_information_offsets_are_not_validated :
  let decode := fun (number_of_volumes : Z) (block : list Z) =>
    fst (libscca_io_handle_read_volumes_information
           (Some (mk_io_handle 23 0 0)) (Some 0%nat) 308
           (Z.of_nat (length block)) number_of_volumes
           (Example.volumes_state_with
              (Example.file_with_volumes number_of_volumes block))) in
  decode 1 Example.volume_block_file_references_outside = OutOfBounds 1000 4 136
  ∧ decode 1 Example.volume_block_device_path_outside = OutOfBounds 128 200 136
  ∧ decode 1 Example.volume_block_directory_strings_outside
    = OutOfBounds 200 4294967232 136
  ∧ decode 2 Example.volume_block_one_record = OutOfBounds 96 4 96
  ∧ decode 1 Example.volume_block = Returned tt.
Proof. by vm_compute. Qed.

(** C7. The number of filenames is that of the entries of the filename
    strings value when there is one; when the file handle has no filename
    strings value, as after the parse of a file whose filename strings offset
    is 0, [libscca_file_get_number_of_filenames] returns -1, with the error
    of libfvalue for a value that is [NULL], while
    [libscca_file_get_number_of_volumes] returns 1 and the number 0 for a
    file without volumes. *)
Theorem number_of_filenames_fails_without_filename_strings (s : session)
    (f : libscca_internal_file_t) :
  s_file s = Some f ->
  (Internal_file.filename_strings f = None ->
   libscca_file_get_number_of_filenames s
   = (Failed [mk_error LIBCERROR_ERROR_DOMAIN_RUNTIME
                LIBCERROR_RUNTIME_ERROR_GET_FAILED
                "libfvalue_value_get_number_of_value_entries";
              mk_error LIBCERROR_ERROR_DOMAIN_RUNTIME
                LIBCERROR_RUNTIME_ERROR_GET_FAILED
                "libscca_file_get_number_of_filenames: unable to retrieve number of filename strings."],
      s))
  ∧ (forall filename_strings,
       Internal_file.filename_strings f = Some filename_strings ->
       libscca_file_get_number_of_filenames s
       = (Returned (Z.of_nat (length (value_entries filename_strings))), s))
  ∧ (Internal_file.volumes_array f = Some [] ->
     libscca_file_get_number_of_volumes s = (Returned 0, s)).
Proof.
  intros Hf. unfold libscca_file_get_number_of_filenames,
    libscca_file_get_number_of_volumes, mbind, M_bind, get, checked.
  rewrite Hf. split_and!.
  - by intros ->.
  - by intros v ->.
  - by intros ->.
Qed.

Lemma number_of_filenames_fails_without_filename_strings_witness :
  let parse := libscca_file_open_file_io_handle (D := spec_declarations)
                 (Some 0%nat) 1 (Example.initialized Example.minimal_file) in
  fst parse = Returned tt
  ∧ failed (fst (libscca_file_get_number_of_filenames (snd parse))) = true
  ∧ fst (libscca_file_get_number_of_volumes (snd parse)) = Returned 0.
Proof.
  intros parse.
  destruct (s_file (snd parse)) as [f|] eqn:Hf; [|by vm_compute in Hf].
  destruct (number_of_filenames_fails_without_filename_strings (snd parse) f Hf)
    as (Hnone & _ & Hvolumes).
  split_and!.
  - by vm_compute.
  - rewrite Hnone; [done|].
    vm_compute in Hf. by injection Hf as <-.
  - rewrite Hvolumes; [done|].
    vm_compute in Hf. by injection Hf as <-.
Defined.

(** * More of the file handle and of its decoders *)

(** ** Initialize, close and free *)

(** What [libscca_file_initialize] leaves when it returns 1. *)
Lemma libscca_file_initialize_returns file s :
  returned (fst (libscca_file_initialize file s)) = true ->
  s_file s = None
  ∧ snd (libscca_file_initialize file s)
    = mk_session (Some initialized_file)
        (set_heap_live (heap_live (s_world s) + 3) (s_world s)).
Proof.
  destruct file as [[]|]; [|done].
  destruct s as [[f|] [live capacity hs fs]]; [done|].
  unfold libscca_file_initialize, libscca_io_handle_initialize,
    libcdata_array_initialize, mbind, M_bind, get, put, on_error, in_session,
    checked, memory_allocate, mret, M_ret. simpl.
  repeat (case_decide; simpl; try done).
  intros _. split; [done|].
  unfold initialized_file, zeroed_file, set_heap_live. simpl.
  do 2 f_equal. lia.
Qed.

(** What [libscca_file_close] leaves when it returns 0. *)
Lemma libscca_file_close_returns s :
  returned (fst (libscca_file_close s)) = true ->
  exists f, s_file s = Some f
    ∧ Internal_file.file_io_handle f ≠ None
    ∧ fst (libscca_file_close s) = Returned 0
    ∧ s_file (snd (libscca_file_close s)) = Some initialized_file
    ∧ heap_live (s_world (snd (libscca_file_close s)))
      = heap_live (s_world s) - file_blocks f
        - (if decide (Internal_file.file_io_handle_created_in_library f ≠ 0)
           then 1 else 0).
Proof.
  unfold libscca_file_close.
  destruct (s_file s) as [f|] eqn:Hf; [|done].
  case_decide as Hhandle; [done|]. cbv zeta.
  destruct (close_statements_close (mk_close_state 0 [] s) f Hf) as [_ H'].
  lazymatch goal with
  | |- context [decide (cs_result ?c = 0)] =>
      destruct (decide (cs_result c = 0)) as [Hresult|]; [|done]
  end. intros _.
  destruct (H' Hresult) as (_ & Hfile & Hheap). unfold close_file in Hfile.
  exists f. cbn [fst snd]. split_and!; [done..|]. rewrite Hheap. simpl. lia.
Qed.

(** [libscca_file_close] returns 0 or -1. *)
Lemma libscca_file_close_ends s :
  match fst (libscca_file_close s) with
  | OutOfBounds _ _ _ => False
  | _ => True
  end.
Proof.
  unfold libscca_file_close. destruct (s_file s) as [f|]; [|done].
  case_decide; [done|]. cbv zeta.
  lazymatch goal with
  | |- context [decide (cs_result ?c = 0)] =>
      by destruct (decide (cs_result c = 0))
  end.
Qed.

(** X1. [libscca_file_free] undoes [libscca_file_initialize]: called on the
    handle that a successful initialize has made, it returns 1 and leaves
    the session as it was before the initialize, the variable [NULL] and the
    three blocks of the handle freed. *)
Theorem libscca_file_free_undoes_initialize (s : session) :
  returned (fst (libscca_file_initialize (Some tt) s)) = true ->
  libscca_file_free (Some tt) (snd (libscca_file_initialize (Some tt) s))
  = (Returned tt, s).
Proof.
  intros Hreturned.
  destruct (libscca_file_initialize_returns _ _ Hreturned) as [Hfile ->].
  destruct s as [file [live capacity hs fs]]. simpl in Hfile. subst file.
  unfold libscca_file_free, initialized_file, libcdata_array_free,
    libscca_io_handle_free, memory_free, set_heap_live. simpl.
  do 3 f_equal. lia.
Qed.

Lemma libscca_file_free_undoes_initialize_witness :
  libscca_file_free (Some tt) (Example.initialized Example.minimal_file)
  = (Returned tt, Example.session_with Example.minimal_file).
Proof.
  apply (libscca_file_free_undoes_initialize
           (Example.session_with Example.minimal_file)).
  reflexivity.
Defined.

(** X2. [libscca_file_free] on a file handle: the variable is [NULL]
    afterwards whatever is returned; when the handle is open and 1 is
    returned, the file has been closed and every block of the handle is
    freed, those of the parsed file, the file IO handle when the library
    created it, and the three of the handle itself; when the variable is
    [NULL] already, 1 is returned and nothing changes. *)
Theorem libscca_file_free_releases (s : session) :
  s_file (snd (libscca_file_free (Some tt) s)) = None
  ∧ (s_file s = None -> libscca_file_free (Some tt) s = (Returned tt, s))
  ∧ (forall f, s_file s = Some f ->
       Internal_file.file_io_handle f ≠ None ->
       returned (fst (libscca_file_free (Some tt) s)) = true ->
       heap_live (s_world (snd (libscca_file_free (Some tt) s)))
       = heap_live (s_world s) - file_blocks f
         - (if decide (Internal_file.file_io_handle_created_in_library f ≠ 0)
            then 1 else 0)
         - 3).
Proof.
  split_and!.
  - unfold libscca_file_free. destruct (s_file s) as [f|] eqn:Hf; [|done].
    cbv zeta. by destruct (decide (_ = 1)).
  - intros Hf. unfold libscca_file_free. by rewrite Hf.
  - intros f Hf Hhandle. unfold libscca_file_free. rewrite Hf.
    destruct (decide (Internal_file.file_io_handle f ≠ None)); [|done].
    cbv zeta. unfold attempt. cbn [cs_session].
    pose proof (libscca_file_close_ends s) as Hends.
    destruct (libscca_file_close s) as [[result|e|o k b] s'] eqn:Hclose;
      cbn [cs_result cs_error cs_session]; [|by destruct (decide (-1 = 1))|done].
    intros _.
    destruct (libscca_file_close_returns s) as (f' & Hf' & _ & _ & Hfile & Hheap);
      [by rewrite Hclose|].
    rewrite Hclose in Hfile, Hheap. cbn [fst snd] in Hfile, Hheap.
    rewrite Hf in Hf'. injection Hf' as <-.
    unfold close_file. cbn [cs_session]. rewrite Hfile.
    destruct (decide (1 = 1)); [|done]. cbn [snd s_world].
    unfold initialized_file, libcdata_array_free, libscca_io_handle_free,
      memory_free. simpl. lia.
Qed.

Lemma libscca_file_free_releases_witness :
  let s := snd (libscca_file_open_file_io_handle (D := spec_declarations)
                  (Some 0%nat) 1
                  (Example.initialized
                     (Example.file_with_volumes 1 Example.volume_block))) in
  heap_live (s_world s) = 7
  ∧ s_file (snd (libscca_file_free (Some tt) s)) = None
  ∧ heap_live (s_world (snd (libscca_file_free (Some tt) s))) = 0.
Proof.
  intros s.
  destruct (libscca_file_free_releases s) as (Hnull & _ & Hheap).
  split_and!; [by vm_compute|done|].
  destruct (s_file s) as [f|] eqn:Hf; [|by vm_compute in Hf].
  rewrite (Hheap f eq_refl).
  - vm_compute in Hf. injection Hf as <-. by vm_compute.
  - vm_compute in Hf. by injection Hf as <-.
  - by vm_compute.
Defined.

(** X3. [libscca_file_close] needs an open file: on a file handle without a
    file IO handle it returns -1 with a value-missing error and changes
    nothing, and so does a second close after one that returned 0. *)
Theorem libscca_file_close_needs_open_file (s : session) :
  (forall f, s_file s = Some f -> Internal_file.file_io_handle f = None ->
     libscca_file_close s
     = (Failed [mk_error LIBCERROR_ERROR_DOMAIN_RUNTIME
                  LIBCERROR_RUNTIME_ERROR_VALUE_MISSING
                  "libscca_file_close: invalid file - missing file IO handle."], s))
  ∧ (returned (fst (libscca_file_close s)) = true ->
     libscca_file_close (snd (libscca_file_close s))
     = (Failed [mk_error LIBCERROR_ERROR_DOMAIN_RUNTIME
                  LIBCERROR_RUNTIME_ERROR_VALUE_MISSING
                  "libscca_file_close: invalid file - missing file IO handle."],
        snd (libscca_file_close s))).
Proof.
  assert (forall s f, s_file s = Some f -> Internal_file.file_io_handle f = None ->
     libscca_file_close s
     = (Failed [mk_error LIBCERROR_ERROR_DOMAIN_RUNTIME
                  LIBCERROR_RUNTIME_ERROR_VALUE_MISSING
                  "libscca_file_close: invalid file - missing file IO handle."], s))
    as Hclosed.
  { clear s. intros s f Hf Hhandle. unfold libscca_file_close. rewrite Hf.
    by destruct (decide (Internal_file.file_io_handle f = None)). }
  split; [apply Hclosed|]. intros Hreturned.
  destruct (libscca_file_close_returns s Hreturned) as (f & _ & _ & _ & Hfile & _).
  by apply (Hclosed _ initialized_file).
Qed.

Lemma libscca_file_close_needs_open_file_witness :
  let s := snd (libscca_file_open_file_io_handle (D := spec_declarations)
                  (Some 0%nat) 1 (Example.initialized Example.minimal_file)) in
  fst (libscca_file_close s) = Returned 0
  ∧ failed (fst (libscca_file_close (snd (libscca_file_close s)))) = true.
Proof.
  intros s. split; [by vm_compute|].
  destruct (libscca_file_close_needs_open_file s) as [_ Hsecond].
  rewrite Hsecond; [done|by vm_compute].
Defined.

(** The entries of the volumes array are freed without a change to the file
    IO handles. *)
Lemma volumes_array_free_handles l w :
  handles (foldr libscca_internal_volume_information_free w l) = handles w.
Proof.
  induction l as [|v l IH]; [done|]. cbn [foldr].
  unfold libscca_internal_volume_information_free, libfvalue_value_free.
  destruct (device_path v), (directory_strings v); simpl; done.
Qed.

(** A statement of [libscca_file_close] that leaves the file IO handles of
    the world as they are. *)
Lemma attempt_handles {A} (call : M session A) domain code message c :
  (forall s, handles (s_world (snd (call s))) = handles (s_world s)) ->
  handles (s_world (cs_session (attempt call domain code message c)))
  = handles (s_world (cs_session c)).
Proof.
  intros H. specialize (H (cs_session c)). unfold attempt.
  by destruct (call (cs_session c)) as [[a|e|o n b] s'].
Qed.

Lemma close_statements_handles c :
  handles (s_world (cs_session
    (then_close close_resize_volumes_array
       (then_close close_free_filename_strings
          (then_close close_free_file_information
             (proceed (Internal_file.set_prefetch_hash 0)
                (then_close close_clear_io_handle
                   (proceed (Internal_file.set_file_io_handle None) c))))))))
  = handles (s_world (cs_session c)).
Proof.
  assert (forall c, handles (s_world (cs_session (then_close close_resize_volumes_array c)))
                    = handles (s_world (cs_session c))) as H1.
  { intros c'. unfold then_close. destruct (close_file c') as [f|]; [|done].
    apply attempt_handles. intros s.
    unfold mbind, M_bind, in_session, update_file, modify, libcdata_array_resize.
    destruct (Internal_file.volumes_array f) as [l|]; simpl; [|done].
    apply volumes_array_free_handles. }
  assert (forall c, handles (s_world (cs_session (then_close close_free_filename_strings c)))
                    = handles (s_world (cs_session c))) as H2.
  { intros c'. unfold then_close. destruct (close_file c') as [f|]; [|done].
    unfold close_free_filename_strings.
    destruct (Internal_file.filename_strings f); [|done].
    by apply attempt_handles. }
  assert (forall c, handles (s_world (cs_session (then_close close_free_file_information c)))
                    = handles (s_world (cs_session c))) as H3.
  { intros c'. unfold then_close. destruct (close_file c') as [f|]; [|done].
    unfold close_free_file_information.
    destruct (Internal_file.file_information f); [|done].
    by apply attempt_handles. }
  assert (forall c, handles (s_world (cs_session (then_close close_clear_io_handle c)))
                    = handles (s_world (cs_session c))) as H4.
  { intros c'. unfold then_close. destruct (close_file c') as [f|]; [|done].
    apply attempt_handles. intros s.
    unfold mbind, M_bind, libscca_io_handle_clear, update_file, modify.
    by destruct (Internal_file.io_handle f). }
  assert (forall g c, handles (s_world (cs_session (proceed g c)))
                      = handles (s_world (cs_session c))) as H5 by done.
  by rewrite H1, H2, H3, H5, H4, H5.
Qed.

Lemma libscca_file_close_handles (s : session) (f : libscca_internal_file_t) :
  s_file s = Some f ->
  Internal_file.file_io_handle_opened_in_library f = 0 ->
  Internal_file.file_io_handle_created_in_library f = 0 ->
  handles (s_world (snd (libscca_file_close s))) = handles (s_world s).
Proof.
  intros Hf Hopened Hcreated. unfold libscca_file_close. rewrite Hf.
  case_decide; [done|]. cbv zeta.
  assert (then_close close_file_io_handle (mk_close_state 0 [] s)
          = mk_close_state 0 [] s) as ->.
  { rewrite (then_close_file _ f) by done. unfold close_file_io_handle.
    by destruct (decide (Internal_file.file_io_handle_opened_in_library f ≠ 0)). }
  assert (then_close close_free_file_io_handle (mk_close_state 0 [] s)
          = mk_close_state 0 [] s) as ->.
  { rewrite (then_close_file _ f) by done. unfold close_free_file_io_handle.
    by destruct (decide (Internal_file.file_io_handle_created_in_library f ≠ 0)). }
  lazymatch goal with
  | |- context [decide (cs_result ?c = 0)] =>
      destruct (decide (cs_result c = 0))
  end; cbn [snd]; by rewrite close_statements_handles.
Qed.

(** X5. [libscca_file_close] leaves alone a file IO handle that the library
    neither opened nor created: whatever it returns, the file IO handles of
    the world are as they were, open when they were open. *)
Theorem libscca_file_close_keeps_callers_handle (s : session)
    (f : libscca_internal_file_t) :
  s_file s = Some f ->
  Internal_file.file_io_handle_opened_in_library f = 0 ->
  Internal_file.file_io_handle_created_in_library f = 0 ->
  handles (s_world (snd (libscca_file_close s))) = handles (s_world s).
Proof. apply libscca_file_close_handles. Qed.

Lemma libscca_file_close_keeps_callers_handle_witness :
  let s := snd (libscca_file_open_read (D := spec_declarations) (Some 0%nat)
                  (mk_session
                     (Some (Internal_file.set_file_io_handle (Some 0%nat)
                              initialized_file))
                     (s_world (Example.ready_to_read Example.minimal_file)))) in
  handle_lookup (s_world s) (Some 0%nat)
  = Some (mk_bfio (Some Example.minimal_file) true 240)
  ∧ fst (libscca_file_close s) = Returned 0
  ∧ handles (s_world (snd (libscca_file_close s))) = handles (s_world s).
Proof.
  intros s. split_and!; [by vm_compute..|].
  destruct (s_file s) as [f|] eqn:Hf; [|by vm_compute in Hf].
  apply (libscca_file_close_keeps_callers_handle s f Hf).
  - vm_compute in Hf. by injection Hf as <-.
  - vm_compute in Hf. by injection Hf as <-.
Defined.

(** X9. The volumes can be retrieved by the indexes below their number: on a
    file handle with an IO handle and a volumes array,
    [libscca_file_get_number_of_volumes] returns the number of entries of the
    array, and [libscca_file_get_volume_information] returns the entry of
    the index when the index is at least 0 and below that number, and -1
    otherwise; neither changes anything. *)
Theorem volume_information_by_index (s : session) (f : libscca_internal_file_t)
    (volumes : list libscca_internal_volume_information_t) (volume_index : Z) :
  s_file s = Some f ->
  is_Some (Internal_file.io_handle f) ->
  Internal_file.volumes_array f = Some volumes ->
  libscca_file_get_number_of_volumes s = (Returned (Z.of_nat (length volumes)), s)
  ∧ snd (libscca_file_get_volume_information volume_index s) = s
  ∧ (0 <= volume_index < Z.of_nat (length volumes) ->
     exists volume_information,
       volumes !! Z.to_nat volume_index = Some volume_information
       ∧ fst (libscca_file_get_volume_information volume_index s)
         = Returned volume_information)
  ∧ (¬ (0 <= volume_index < Z.of_nat (length volumes)) ->
     failed (fst (libscca_file_get_volume_information volume_index s)) = true).
Proof.
  intros Hf [io Hio] Harray.
  unfold libscca_file_get_number_of_volumes, libscca_file_get_volume_information,
    mbind, M_bind, get, checked, libcdata_array_get_number_of_entries,
    libcdata_array_get_entry_by_index.
  rewrite Hf, Hio, Harray. split_and!.
  - done.
  - destruct (decide (0 <= volume_index)); [|done].
    by destruct (volumes !! Z.to_nat volume_index).
  - intros [Hlow Hhigh]. destruct (decide (0 <= volume_index)); [|done].
    destruct (lookup_lt_is_Some_2 volumes (Z.to_nat volume_index)) as [v Hv];
      [lia|].
    exists v. by rewrite Hv.
  - intros Hout. destruct (decide (0 <= volume_index)); [|done].
    rewrite (lookup_ge_None_2 volumes (Z.to_nat volume_index)) by lia. done.
Qed.

Lemma volume_information_by_index_witness :
  let s := snd (libscca_file_open_file_io_handle (D := spec_declarations)
                  (Some 0%nat) 1
                  (Example.initialized
                     (Example.file_with_volumes 1 Example.volume_block))) in
  fst (libscca_file_get_number_of_volumes s) = Returned 1
  ∧ fst (libscca_file_get_volume_information 0 s)
    = Returned (mk_volume_information 130000000000000000 305419896
                  (Some [67; 0; 58; 0]) 4 (Some (mk_value [[65; 0]])))
  ∧ failed (fst (libscca_file_get_volume_information 1 s)) = true.
Proof.
  intros s.
  destruct (s_file s) as [f|] eqn:Hf; [|by vm_compute in Hf].
  destruct (Internal_file.volumes_array f) as [volumes|] eqn:Harray.
  2: { vm_compute in Hf. injection Hf as <-. by vm_compute in Harray. }
  assert (is_Some (Internal_file.io_handle f)) as Hio.
  { vm_compute in Hf. injection Hf as <-. by eexists. }
  assert (length volumes = 1%nat) as Hlength.
  { vm_compute in Hf. injection Hf as <-. vm_compute in Harray.
    by injection Harray as <-. }
  destruct (volume_information_by_index s f volumes 0 Hf Hio Harray)
    as (Hnumber & _ & Hinside & _).
  destruct (volume_information_by_index s f volumes 1 Hf Hio Harray)
    as (_ & _ & _ & Houtside).
  split_and!.
  - by rewrite Hnumber, Hlength.
  - by vm_compute.
  - apply Houtside. lia.
Defined.

(** ** The number of the volumes decoded *)

Lemma wp_in_world_returns {A} (m : M world A) (Q : A -> volumes_state -> Prop) s :
  (forall a w, Q a (vs_set_world w s)) ->
  wp (in_world m) Q (fun _ => True) s.
Proof.
  intros H. unfold wp, in_world.
  destruct (m (vs_world s)) as [[a|e|o n b] w]; simpl; auto.
Qed.

Lemma wp_conj {S A} (m : M S A) (Q Q' : A -> S -> Prop) (E E' : S -> Prop) s :
  wp m Q E s -> wp m Q' E' s ->
  wp m (fun a s' => Q a s' ∧ Q' a s') (fun s' => E s' ∧ E' s') s.
Proof. unfold wp. by destruct (m s) as [[a|e|o n b] s']. Qed.

Ltac array_step :=
  lazymatch goal with
  | |- wp (read_uint32 _) _ _ _ => unfold read_uint32
  | |- wp (read_uint64 _) _ _ _ => unfold read_uint64
  | |- wp (fmap _ _) _ _ _ => apply wp_fmap
  | |- wp (read_data _ _) _ _ _ => apply wp_read_data; intros ?
  | |- wp (update_volume_information _) _ _ _ => apply wp_update_volume_information
  | |- wp (set_volume_information _) _ _ _ =>
      unfold set_volume_information; apply wp_modify
  | |- wp (set_volumes_array _) _ _ _ =>
      unfold set_volumes_array; apply wp_modify
  | |- wp (set_volumes_information_data _) _ _ _ =>
      unfold set_volumes_information_data; apply wp_modify
  | |- wp (in_world _) _ _ _ => apply wp_in_world_returns; intros ? ?
  | |- wp (libfvalue_value_type_set_data_strings_array _ _) _ _ _ =>
      apply wp_set_data_strings_array; [intros ?|done]
  | |- wp (checked _ _ _ _) _ _ _ => apply wp_checked
  | |- wp (modify _) _ _ _ => apply wp_modify
  | |- wp (mret _) _ _ _ => apply wp_ret
  | |- wp (mbind _ _) _ _ _ => apply wp_bind
  | |- wp get _ _ _ => apply wp_get
  | |- wp (fail _ _ _) _ _ _ => by apply wp_fail
  end.

Lemma read_volume_information_record_array offset s :
  wp (read_volume_information_record offset)
     (fun _ s' => vs_volumes_array s' = vs_volumes_array s
                  ∧ is_Some (vs_volume_information s'))
     (fun _ => True) s.
Proof.
  unfold read_volume_information_record.
  destruct s as [w array local data reads]. repeat array_step. simpl. by split.
Qed.

Lemma read_file_references_array offset s :
  wp (read_file_references offset) (fun _ s' => array_kept s s') (fun _ => True) s.
Proof.
  unfold read_file_references.
  destruct s as [w array local data reads]. repeat array_step. by split.
Qed.

Lemma read_device_path_array offset size s :
  wp (read_device_path offset size) (fun _ s' => array_kept s s') (fun _ => True) s.
Proof.
  unfold read_device_path.
  destruct s as [w array local data reads]. repeat array_step. simpl.
  split; [done|]. simpl. intros [v Hv]. subst local. by eexists.
Qed.

Lemma read_directory_strings_array size offset s :
  wp (read_directory_strings size offset) (fun _ s' => array_kept s s')
     (fun _ => True) s.
Proof.
  unfold read_directory_strings.
  destruct s as [w array local data reads]. repeat array_step. simpl.
  split; [done|]. simpl. intros [v Hv]. subst local. by eexists.
Qed.

(** The body of the loop appends one volume information to the array. *)
Lemma read_volume_information_appends a b c s volumes :
  vs_volumes_array s = Some volumes ->
  wp (read_volume_information a b c)
     (fun _ s' => exists volume_information,
        vs_volumes_array s' = Some (volumes ++ [volume_information]))
     (fun _ => True) s.
Proof.
  intros Hs. unfold read_volume_information. array_step.
  eapply wp_mono; [apply read_volume_information_record_array| |done].
  intros [[[device_path_offset device_size] references_offset] strings_offset] s1
    [Harray1 Hlocal1].
  simpl. array_step.
  eapply (wp_mono _ (fun _ s' => array_kept s1 s')); [| |done].
  { case_decide; [|by array_step]. array_step.
    eapply wp_mono; [apply read_file_references_array| |done].
    intros ? ? ?. by array_step. }
  intros ? s2 [Harray2 Hlocal2]. array_step.
  eapply (wp_mono _ (fun _ s' => array_kept s2 s')); [| |done].
  { case_decide; [apply read_device_path_array|by array_step]. }
  intros ? s3 [Harray3 Hlocal3]. array_step.
  eapply (wp_mono _ (fun _ s' => array_kept s3 s')); [| |done].
  { case_decide; [apply read_directory_strings_array|by array_step]. }
  intros ? s4 [Harray4 Hlocal4]. array_step.
  unfold append_volume_information. array_step. array_step.
  destruct (vs_volume_information s4) as [v|] eqn:Hv.
  2: { destruct Hlocal4 as [? ?]; [|done]. auto. }
  array_step. array_step.
  unfold wp at 1, libcdata_array_append_entry.
  rewrite Harray4, Harray3, Harray2, Harray1, Hs.
  repeat array_step. simpl. by exists v.
Qed.

Lemma read_volumes_appends a b count : forall c s volumes,
  vs_volumes_array s = Some volumes ->
  wp (read_volumes a b c count)
     (fun _ s' => exists decoded,
        vs_volumes_array s' = Some (volumes ++ decoded) ∧ length decoded = count)
     (fun _ => True) s.
Proof.
  induction count as [|count IH]; intros c s volumes Hs; simpl.
  - array_step. exists []. by rewrite app_nil_r.
  - array_step.
    eapply wp_mono; [by apply read_volume_information_appends| |done].
    intros c' s' [v Hs']. simpl.
    eapply wp_mono; [by apply IH| |done].
    intros ? s'' (decoded & Hs'' & Hlength). exists (v :: decoded).
    rewrite Hs'', <- app_assoc. simpl. by rewrite Hlength.
Qed.

(** When it returns 1, the decoder of the volumes information has appended
    one volume information for each of the [number_of_volumes] volumes. *)
Lemma libscca_io_handle_read_volumes_information_appends io_handle file_io_handle
    offset size number s volumes :
  vs_volumes_array s = Some volumes ->
  wp (libscca_io_handle_read_volumes_information io_handle file_io_handle
        offset size number)
     (fun _ s' => exists decoded,
        vs_volumes_array s' = Some (volumes ++ decoded)
        ∧ length decoded = Z.to_nat number)
     (fun _ => True) s.
Proof.
  intros Hs. unfold libscca_io_handle_read_volumes_information.
  destruct io_handle as [io_handle|]; [|by array_step].
  apply wp_on_error. destruct s as [w array local data reads].
  simpl in Hs. subst array.
  repeat array_step. case_decide; [by array_step|].
  repeat array_step. cbv zeta. repeat array_step.
  eapply wp_mono; [by apply read_volumes_appends| |done].
  intros ? s' (decoded & Hs' & Hlength). repeat array_step. simpl.
  by exists decoded.
Qed.

(** ** What a parse leaves when it returns 1 *)

Lemma wp_of_outcome {S A} (m : M S A) (R : S -> S -> Prop)
    (Q : A -> S -> Prop) s :
  stable R m ->
  (forall a s', fst (m s) = Returned a -> R s s' -> Q a s') ->
  wp m Q (fun _ => True) s.
Proof.
  intros H HQ. specialize (H s). unfold wp.
  destruct (m s) as [[a|e|o n b] s']; simpl in *; auto.
Qed.

Section Parsed.
Context {D : Declarations}.

Local Arguments libscca_io_handle_read_file_header : simpl never.
Local Arguments libscca_io_handle_read_filename_strings : simpl never.
Local Arguments libscca_io_handle_read_volumes_information : simpl never.
Local Arguments libfvalue_value_type_initialize : simpl never.

Lemma libscca_file_open_read_parsed i data offset s f io_handle :
  s_file s = Some f ->
  Internal_file.io_handle f = Some io_handle ->
  Internal_file.file_information f = None ->
  Internal_file.filename_strings f = None ->
  Internal_file.volumes_array f = Some [] ->
  handles (s_world s) !! i = Some (Some (mk_bfio (Some data) true offset)) ->
  (84 <= length data)%nat ->
  wp (libscca_file_open_read (Some i))
     (fun _ s' => parsed f (take 84 data) (heap_live (s_world s)) s')
     (fun _ => True) s.
Proof.
  intros Hf Hio Hfi Hfs Harray Hhandle Hlength.
  unfold libscca_file_open_read. wp_step. wp_step. rewrite Hf, Hio.
  destruct f as [io h created opened hash fi fs array]; simpl in *; subst.
  destruct s as [file w]; simpl in *; subst file.
  wp_step.
  apply (wp_mono _ (fun _ s' => exists io', s' =
    mk_session (Some (Internal_file.mk (Some io') h created opened hash None None (Some []))) w
    ∧ abort io' = 0) _ (fun _ => True)).
  { wp_step; [apply wp_update_file|wp_step]; eexists; by split. }
  2: done.
  intros _ s1 (io1 & -> & Habort). apply wp_on_error.
  wp_step. eapply wp_get_file; [done|]. simpl.
  wp_step. wp_step. wp_step.
  eapply wp_of_outcome; [apply libscca_io_handle_read_file_header_heap|].
  intros [io2 hash2] w1 Hheader Hw1. simpl in Hheader, Hw1.
  rewrite (libscca_io_handle_read_file_header_outcome _ _ _ _ _ Hhandle Hlength)
    in Hheader.
  destruct (decide _) as [Hsignature|]; [|done]. injection Hheader as <- <-.
  rewrite Habort. simpl.
  wp_step. apply wp_update_file. wp_step. apply wp_update_file. simpl.
  wp_step. eapply wp_get_file; [done|]. simpl.
  wp_step. wp_step. wp_step. unfold libscca_file_information_initialize.
  wp_step. wp_step. wp_step; [|done].
  wp_step. wp_step. apply wp_update_file. simpl.
  wp_step. wp_step. wp_step.
  eapply wp_stable; [apply libscca_file_information_read_heap| |done].
  intros fi2 w2 Hw2. simpl.
  wp_step. apply wp_update_file. simpl. wp_step.
  apply (wp_mono _ (fun _ s' => exists fs w3, s' =
      mk_session (Some (Internal_file.mk
        (Some (mk_io_handle
           (byte_stream_copy_to_uint32_little_endian
              (file_header_format_version (take 84 data)))
           (byte_stream_copy_to_uint32_little_endian
              (file_header_file_size (take 84 data))) 0))
        h created opened
        (byte_stream_copy_to_uint32_little_endian
           (file_header_prefetch_hash (take 84 data)))
        (Some fi2) fs (Some []))) w3
      ∧ (fs = None <-> filename_strings_offset fi2 = 0)
      ∧ heap_live w3 - 1 - (match fs with Some _ => 1 | None => 0 end) = heap_live w)
    _ (fun _ => True)).
  2: { intros _ s3 (fs & w3 & -> & Hfs & Hw3).
       wp_step.
       - wp_step. apply wp_on_volumes_array. simpl.
         eapply wp_mono;
           [apply wp_conj;
              [by apply libscca_io_handle_read_volumes_information_balanced
              |by apply (libscca_io_handle_read_volumes_information_appends
                           _ _ _ _ _ _ [])]
           | |done].
         intros _ [w4 array4 local4 data4 reads4]
           [([Hheap _] & ? & ?) (decoded & Harray4 & Hdecoded)].
         simpl in *. subst. unfold volumes_state_blocks in Hheap. simpl in Hheap.
         exists fi2, fs, decoded. rewrite decide_True by done.
         split_and!; [done..|].
         rewrite volumes_array_blocks_nil in Hheap. simpl in *. lia.
       - wp_step. exists fi2, fs, []. rewrite decide_False by tauto.
         split_and!; [done..|]. rewrite volumes_array_blocks_nil. simpl. lia. }
  2: done.
  wp_step.
  - wp_step. wp_step. wp_step.
    apply wp_libfvalue_value_type_initialize; [intros _ value|done].
    wp_step. apply wp_update_file. simpl. wp_step. wp_step. wp_step.
    eapply wp_stable; [apply libscca_io_handle_read_filename_strings_heap| |done].
    intros value' w3 Hw3. simpl. apply wp_update_file. simpl.
    eexists (Some value'), _. split; [done|]. split; [done|].
    unfold same_heap in *. simpl in *. lia.
  - wp_step. eexists None, _. split; [done|]. split; [tauto|].
    unfold same_heap in *. simpl in *. lia.
Qed.

Lemma wp_of_run {S A} (m : M S A) (Q : A -> S -> Prop) E s a s' :
  m s = (Returned a, s') -> Q a s' -> wp m Q E s.
Proof. unfold wp. by intros ->. Qed.

Local Arguments libscca_file_open_read : simpl never.

Lemma libscca_file_open_file_io_handle_parsed i access_flags data is_open offset s f :
  s_file s = Some f ->
  is_Some (Internal_file.io_handle f) ->
  Internal_file.file_information f = None ->
  Internal_file.filename_strings f = None ->
  Internal_file.volumes_array f = Some [] ->
  handles (s_world s) !! i = Some (Some (mk_bfio (Some data) is_open offset)) ->
  (84 <= length data)%nat ->
  wp (libscca_file_open_file_io_handle (Some i) access_flags)
     (fun _ s' =>
        parsed
          (Internal_file.set_file_io_handle_opened_in_library
             (if is_open then Internal_file.file_io_handle_opened_in_library f else 1)
             (Internal_file.set_file_io_handle (Some i) f))
          (take 84 data) (heap_live (s_world s)) s')
     (fun _ => True) s.
Proof.
  intros Hf [io_handle Hio] Hfi Hfs Harray Hhandle Hlength.
  assert (Hi : (i < length (handles (s_world s)))%nat) by (by eapply lookup_lt_Some).
  unfold libscca_file_open_file_io_handle. wp_step. wp_step. rewrite Hf.
  wp_step; [by wp_step|]. wp_step; [by wp_step|].
  unfold check_access_flags. wp_step; [by wp_step|]. wp_step; [by wp_step|].
  destruct s as [file w]; simpl in *; subst file.
  destruct f as [io h created opened hash fi fs array]; simpl in *; subst.
  wp_step. apply wp_update_file. simpl. wp_step. wp_step. wp_step. wp_step.
  eapply wp_of_run.
  { unfold libbfio_handle_is_open. cbn [s_world]. by rewrite (handle_lookup_handles _ _ _ Hhandle). }
  simpl. apply wp_on_error. wp_step.
  apply (wp_mono _ (fun _ s' => exists offset' w',
    s' = mk_session
           (Some (Internal_file.mk (Some io_handle) (Some i) created
                    (if is_open then opened else 1) hash None None (Some []))) w'
    ∧ handles w' !! i = Some (Some (mk_bfio (Some data) true offset'))
    ∧ heap_live w' = heap_live w) _ (fun _ => True)); [| |done].
  { destruct is_open; simpl.
    - wp_step. by eexists _, _.
    - wp_step. wp_step. wp_step.
      eapply wp_of_run.
      { unfold libbfio_handle_open. cbn [s_world]. by rewrite (handle_lookup_handles _ _ _ Hhandle). }
      apply wp_update_file. simpl. eexists _, _. split; [done|].
      split; [by apply handles_handle_store|done]. }
  intros _ s2 (offset' & w' & -> & Hhandle' & Hheap'). wp_step. wp_step.
  eapply wp_mono;
    [by eapply (libscca_file_open_read_parsed i data offset')| |done].
  intros _ s3 (fi3 & fs3 & volumes & Hfile & ? & ? & ?).
  apply wp_update_file. exists fi3, fs3, volumes. simpl in *.
  rewrite Hfile. simpl. split_and!; [done..|]. lia.
Qed.

End Parsed.

(** ** Byte streams as numbers *)

Lemma lor_shiftl_low a b n :
  0 <= n -> 0 <= b < 2 ^ n -> Z.lor (Z.shiftl a n) b = a * 2 ^ n + b.
Proof.
  intros Hn Hb. rewrite <- Z.shiftl_mul_pow2 by done.
  rewrite <- Z.add_lor_land.
  assert (Z.land (Z.shiftl a n) b = 0) as ->; [|lia].
  apply Z.bits_inj'. intros k Hk. rewrite Z.land_spec, Z.bits_0.
  destruct (decide (k < n)).
  - by rewrite Z.shiftl_spec_low.
  - rewrite <- (Z.mod_small b (2 ^ n)) by done.
    rewrite Z.mod_pow2_bits_high by lia. apply andb_false_r.
Qed.

Lemma byte_at_bytes data index : bytes data -> 0 <= byte_at data index < 256.
Proof.
  intros Hdata. unfold byte_at. destruct (data !! index) as [b|] eqn:Hb; simpl.
  - by apply (Forall_lookup_1 _ _ _ _ Hdata Hb).
  - lia.
Qed.

Lemma byte_at_slice data offset size index :
  (index < size)%nat -> byte_at (slice offset size data) index = byte_at data (offset + index).
Proof.
  intros Hindex. unfold byte_at, slice.
  by rewrite lookup_take_lt, lookup_drop by done.
Qed.

Lemma slice_take data offset size n :
  (offset + size <= n)%nat -> slice offset size (take n data) = slice offset size data.
Proof.
  intros Hn. unfold slice.
  replace n with (offset + (n - offset))%nat by lia.
  rewrite <- take_drop_commute, take_take. f_equal. lia.
Qed.

(** The macro [byte_stream_copy_to_uint32_little_endian] on bytes gives the
    number that they are in little-endian order. *)
Lemma byte_stream_copy_to_uint32_little_endian_slice data offset :
  bytes data ->
  byte_stream_copy_to_uint32_little_endian (slice offset 4 data)
  = little_endian_uint32 data offset.
Proof.
  intros Hdata. unfold byte_stream_copy_to_uint32_little_endian, little_endian_uint32.
  rewrite !byte_at_slice by lia. rewrite Nat.add_0_r.
  pose proof (byte_at_bytes data offset Hdata).
  pose proof (byte_at_bytes data (offset + 1) Hdata).
  pose proof (byte_at_bytes data (offset + 2) Hdata).
  pose proof (byte_at_bytes data (offset + 3) Hdata).
  rewrite !lor_shiftl_low by lia. lia.
Qed.

Lemma little_endian_uint32_range data offset :
  bytes data -> 0 <= little_endian_uint32 data offset < uint32_max.
Proof.
  intros Hdata. unfold little_endian_uint32, uint32_max.
  pose proof (byte_at_bytes data offset Hdata).
  pose proof (byte_at_bytes data (offset + 1) Hdata).
  pose proof (byte_at_bytes data (offset + 2) Hdata).
  pose proof (byte_at_bytes data (offset + 3) Hdata).
  lia.
Qed.

(** ** The file handle after a parse *)

Lemma wp_returned_state {S A} (m : M S A) (Q : A -> S -> Prop) (E : S -> Prop) s :
  wp m Q E s -> returned (fst (m s)) = true ->
  exists a, fst (m s) = Returned a ∧ Q a (snd (m s)).
Proof. unfold wp. destruct (m s) as [[a|e|o n b] s']; [by eexists|done..]. Qed.

Lemma file_header_values data :
  bytes data ->
  byte_stream_copy_to_uint32_little_endian (file_header_format_version (take 84 data))
  = little_endian_uint32 data 0
  ∧ byte_stream_copy_to_uint32_little_endian (file_header_file_size (take 84 data))
    = little_endian_uint32 data 12
  ∧ byte_stream_copy_to_uint32_little_endian (file_header_prefetch_hash (take 84 data))
    = little_endian_uint32 data 76.
Proof.
  intros Hdata.
  unfold file_header_format_version, file_header_file_size, file_header_prefetch_hash.
  rewrite !slice_take by lia.
  by rewrite !byte_stream_copy_to_uint32_little_endian_slice.
Qed.

(** What [libscca_file_open_file_io_handle] leaves when it returns 1. *)
Lemma libscca_file_open_file_io_handle_returns {D : Declarations} i access_flags
    s f data :
  ready_to_open s f i data ->
  returned (fst (libscca_file_open_file_io_handle (Some i) access_flags s)) = true ->
  exists opened,
    parsed
      (Internal_file.set_file_io_handle_opened_in_library opened
         (Internal_file.set_file_io_handle (Some i) f))
      (take 84 data) (heap_live (s_world s))
      (snd (libscca_file_open_file_io_handle (Some i) access_flags s))
    ∧ forall source offset,
        handles (s_world s) !! i = Some (Some (mk_bfio source true offset)) ->
        opened = Internal_file.file_io_handle_opened_in_library f.
Proof.
  intros (Hf & Hio & Hfi & Hfs & Harray & Hlength & is_open & offset & Hhandle)
    Hreturned.
  destruct (wp_returned_state _ _ _ _
              (libscca_file_open_file_io_handle_parsed i access_flags data is_open
                 offset s f Hf Hio Hfi Hfs Harray Hhandle Hlength) Hreturned)
    as (_ & _ & Hparsed).
  eexists. split; [exact Hparsed|].
  intros source offset' Hopen. rewrite Hhandle in Hopen.
  injection Hopen as _ Hopen _. by rewrite Hopen.
Qed.

(** The example of a file with one volume, ready to be opened. *)
Lemma ready_to_open_example :
  ready_to_open
    (Example.initialized (Example.file_with_volumes 1 Example.volume_block))
    initialized_file 0 (Example.file_with_volumes 1 Example.volume_block).
Proof.
  split_and!; [reflexivity|by eexists|reflexivity..| |by eexists _, _].
  vm_compute. lia.
Qed.

Lemma bytes_example : bytes (Example.file_with_volumes 1 Example.volume_block).
Proof. apply (bool_decide_unpack _). by vm_compute. Qed.

(** X6. The format version and the prefetch hash that the file handle gives
    after [libscca_file_open_file_io_handle] has returned 1 are the numbers
    that the bytes 0 to 3 and 76 to 79 of the source are in little-endian
    order. *)
Theorem parsed_file_has_header_values {D : Declarations} (i : nat)
    (access_flags : Z) (s : session) (f : libscca_internal_file_t) (data : list Z) :
  ready_to_open s f i data ->
  bytes data ->
  returned (fst (libscca_file_open_file_io_handle (Some i) access_flags s)) = true ->
  let s' := snd (libscca_file_open_file_io_handle (Some i) access_flags s) in
  libscca_file_get_format_version s' = (Returned (little_endian_uint32 data 0), s')
  ∧ libscca_file_get_prefetch_hash s' = (Returned (little_endian_uint32 data 76), s').
Proof.
  intros Hready Hdata Hreturned s'.
  destruct (libscca_file_open_file_io_handle_returns _ _ _ _ _ Hready Hreturned)
    as (opened & (fi & fs & volumes & Hfile & _) & _).
  destruct (file_header_values data Hdata) as (Hversion & _ & Hhash).
  fold s' in Hfile.
  unfold libscca_file_get_format_version, libscca_file_get_prefetch_hash,
    mbind, M_bind, get. rewrite Hfile. simpl.
  by rewrite Hversion, Hhash.
Qed.

Lemma parsed_file_has_header_values_witness :
  let s' := snd (libscca_file_open_file_io_handle (D := spec_declarations)
                   (Some 0%nat) 1
                   (Example.initialized
                      (Example.file_with_volumes 1 Example.volume_block))) in
  libscca_file_get_format_version s' = (Returned 23, s')
  ∧ libscca_file_get_prefetch_hash s' = (Returned 3735928559, s').
Proof.
  apply (parsed_file_has_header_values (D := spec_declarations) 0 1 _ _ _
           ready_to_open_example bytes_example).
  by vm_compute.
Defined.


(** X7. After [libscca_file_open_file_io_handle] has returned 1 there is a
    file information, and [libscca_file_get_number_of_filenames] returns the
    number of the filename strings when the filename strings offset of the
    file information is not 0, and -1 when it is 0. *)
Theorem parsed_file_number_of_filenames {D : Declarations} (i : nat)
    (access_flags : Z) (s : session) (f : libscca_internal_file_t) (data : list Z) :
  ready_to_open s f i data ->
  returned (fst (libscca_file_open_file_io_handle (Some i) access_flags s)) = true ->
  let s' := snd (libscca_file_open_file_io_handle (Some i) access_flags s) in
  exists file_information,
    s_file s' ≫= Internal_file.file_information = Some file_information
    ∧ (filename_strings_offset file_information = 0 ->
       failed (fst (libscca_file_get_number_of_filenames s')) = true)
    ∧ (filename_strings_offset file_information ≠ 0 ->
       exists filename_strings,
         s_file s' ≫= Internal_file.filename_strings = Some filename_strings
         ∧ libscca_file_get_number_of_filenames s'
           = (Returned (Z.of_nat (length (value_entries filename_strings))), s')).
Proof.
  intros Hready Hreturned s'.
  destruct (libscca_file_open_file_io_handle_returns _ _ _ _ _ Hready Hreturned)
    as (opened & (fi & fs & volumes & Hfile & Hstrings & _) & _).
  exists fi. fold s' in Hfile.
  unfold libscca_file_get_number_of_filenames, mbind, M_bind, get, checked.
  rewrite Hfile. simpl. split_and!; [done| |].
  - intros Hzero. apply Hstrings in Hzero. by subst fs.
  - intros Hoffset. destruct fs as [v|]; [by exists v|].
    destruct Hoffset. by apply Hstrings.
Qed.

Lemma parsed_file_number_of_filenames_witness :
  let s' := snd (libscca_file_open_file_io_handle (D := spec_declarations)
                   (Some 0%nat) 1
                   (Example.initialized
                      (Example.file_with_volumes 1 Example.volume_block))) in
  exists file_information,
    s_file s' ≫= Internal_file.file_information = Some file_information
    ∧ (filename_strings_offset file_information = 0 ->
       failed (fst (libscca_file_get_number_of_filenames s')) = true).
Proof.
  intros s'.
  destruct (parsed_file_number_of_filenames (D := spec_declarations) 0 1 _ _ _
              ready_to_open_example) as (fi & Hfi & Hzero & _); [by vm_compute|].
  exists fi. by split.
Defined.


(** X8. After [libscca_file_open_file_io_handle] has returned 1,
    [libscca_file_get_number_of_volumes] returns the number of volumes of
    the file information when its volumes information offset is not 0, and
    0 when it is 0. *)
Theorem parsed_file_number_of_volumes {D : Declarations} (i : nat)
    (access_flags : Z) (s : session) (f : libscca_internal_file_t) (data : list Z) :
  ready_to_open s f i data ->
  returned (fst (libscca_file_open_file_io_handle (Some i) access_flags s)) = true ->
  let s' := snd (libscca_file_open_file_io_handle (Some i) access_flags s) in
  exists file_information,
    s_file s' ≫= Internal_file.file_information = Some file_information
    ∧ libscca_file_get_number_of_volumes s'
      = (Returned (if decide (volumes_information_offset file_information ≠ 0)
                   then Z.max 0 (number_of_volumes file_information) else 0), s').
Proof.
  intros Hready Hreturned s'.
  destruct (libscca_file_open_file_io_handle_returns _ _ _ _ _ Hready Hreturned)
    as (opened & (fi & fs & volumes & Hfile & _ & Hvolumes & _) & _).
  exists fi. fold s' in Hfile.
  unfold libscca_file_get_number_of_volumes, mbind, M_bind, get, checked.
  rewrite Hfile. simpl. split; [done|]. rewrite Hvolumes.
  do 2 f_equal. case_decide; lia.
Qed.

Lemma parsed_file_number_of_volumes_witness :
  let s' := snd (libscca_file_open_file_io_handle (D := spec_declarations)
                   (Some 0%nat) 1
                   (Example.initialized
                      (Example.file_with_volumes 1 Example.volume_block))) in
  exists file_information,
    s_file s' ≫= Internal_file.file_information = Some file_information
    ∧ libscca_file_get_number_of_volumes s'
      = (Returned (if decide (volumes_information_offset file_information ≠ 0)
                   then Z.max 0 (number_of_volumes file_information) else 0), s').
Proof.
  apply (parsed_file_number_of_volumes (D := spec_declarations) 0 1 _ _ _
           ready_to_open_example).
  by vm_compute.
Defined.


(** X10. Open and close leave no block behind: after
    [libscca_file_open_file_io_handle] has returned 1 on a file IO handle of
    the caller and [libscca_file_close] has returned 0, the file handle is
    as [libscca_file_initialize] makes it and as many blocks are allocated as
    before the open; the library has set the flag that it opened the file IO
    handle only when the handle was not open, and when it was open, the
    close leaves the file IO handles of the world as they are. *)
Theorem open_and_close_leave_no_block {D : Declarations} (i : nat)
    (access_flags : Z) (s : session) (f : libscca_internal_file_t) (data : list Z) :
  ready_to_open s f i data ->
  Internal_file.file_io_handle_created_in_library f = 0 ->
  Internal_file.file_io_handle_opened_in_library f = 0 ->
  returned (fst (libscca_file_open_file_io_handle (Some i) access_flags s)) = true ->
  let s' := snd (libscca_file_open_file_io_handle (Some i) access_flags s) in
  returned (fst (libscca_file_close s')) = true ->
  s_file (snd (libscca_file_close s')) = Some initialized_file
  ∧ heap_live (s_world (snd (libscca_file_close s'))) = heap_live (s_world s)
  ∧ (forall source offset,
       handles (s_world s) !! i = Some (Some (mk_bfio source true offset)) ->
       handles (s_world (snd (libscca_file_close s'))) = handles (s_world s')).
Proof.
  intros Hready Hcreated Hopened Hreturned s' Hclosed.
  destruct (libscca_file_open_file_io_handle_returns _ _ _ _ _ Hready Hreturned)
    as (opened & (fi & fs & volumes & Hfile & _ & _ & Hheap) & Hflag).
  fold s' in Hfile, Hheap.
  destruct (libscca_file_close_returns s' Hclosed)
    as (f' & Hf' & _ & _ & Hinitialized & Hheap').
  rewrite Hfile in Hf'. injection Hf' as <-. simpl in Hheap'.
  rewrite Hcreated in Hheap'. unfold file_blocks in Hheap'. simpl in Hheap'.
  split_and!; [done| |].
  - destruct (decide (0 ≠ 0)); [done|]. lia.
  - intros source offset Hopen.
    eapply libscca_file_close_handles; [done|simpl..]; [|done].
    rewrite (Hflag _ _ Hopen). done.
Qed.

Lemma open_and_close_leave_no_block_witness :
  let s := Example.initialized (Example.file_with_volumes 1 Example.volume_block) in
  let s' := snd (libscca_file_open_file_io_handle (D := spec_declarations)
                   (Some 0%nat) 1 s) in
  s_file (snd (libscca_file_close s')) = Some initialized_file
  ∧ heap_live (s_world (snd (libscca_file_close s'))) = heap_live (s_world s).
Proof.
  intros s s'.
  destruct (open_and_close_leave_no_block (D := spec_declarations) 0 1 _ _ _
              ready_to_open_example) as (Hfile & Hheap & _);
    [reflexivity|reflexivity|by vm_compute|by vm_compute|].
  by split.
Defined.

(** ** The decoders on an open source *)


Lemma read_length (data : list Z) offset size :
  0 <= offset -> 0 <= size ->
  Z.of_nat (length (take (Z.to_nat size) (drop (Z.to_nat offset) data))) = size
  <-> readable offset size (Z.of_nat (length data)).
Proof.
  intros Hoffset Hsize. rewrite length_take, length_drop. unfold readable. lia.
Qed.

(** The world after a seek and the allocation of a buffer still has the
    source, at the offset. *)
Lemma handles_after_seek i h live w :
  (i < length (handles w))%nat ->
  handles (set_heap_live live (handle_store i h w)) !! i = Some h.
Proof. intros Hi. simpl. by apply list_lookup_insert_eq. Qed.

Ltac read_section Hhandle Hi :=
  unfold mbind, M_bind, checked, on_error;
  rewrite (libbfio_handle_seek_offset_open _ _ _ _ _ Hhandle) by done;
  unfold memory_allocate at 1;
  cbn [heap_live heap_capacity handle_store set_handles];
  lazymatch goal with
  | |- context [decide (?a < ?b)] => destruct (decide (a < b)); [|done]
  end;
  erewrite libbfio_handle_read_buffer_open by (by apply handles_after_seek).

(** X17. On an open source and with a block to allocate, the decoder of the
    metrics array of a file of version 17, 23 or 26 returns 1 when the
    entries, of 20 bytes for version 17 and of 32 bytes otherwise, lie inside
    of the source from the offset on, or when there is no entry, and
    otherwise -1 with a read error; every block that it allocates is freed
    again. *)
Theorem metrics_array_is_read_inside_of_the_source (io_handle : libscca_io_handle_t)
    (i : nat) (data : list Z) (current : Z) (w : world)
    (file_offset number_of_entries : Z) :
  handles w !! i = Some (Some (mk_bfio (Some data) true current)) ->
  format_version io_handle = 17 ∨ format_version io_handle = 23
    ∨ format_version io_handle = 26 ->
  0 <= file_offset -> 0 <= number_of_entries ->
  heap_live w < heap_capacity w ->
  let read_size :=
    number_of_entries * (if decide (format_version io_handle = 17) then 20 else 32) in
  let run := libscca_io_handle_read_metrics_array (Some io_handle) (Some i)
               file_offset number_of_entries w in
  (readable file_offset read_size (Z.of_nat (length data)) -> fst run = Returned tt)
  ∧ (¬ readable file_offset read_size (Z.of_nat (length data)) ->
     fst run = Failed [mk_error LIBCERROR_ERROR_DOMAIN_IO LIBCERROR_IO_ERROR_READ_FAILED
                         "libscca_io_handle_read_metrics_array: unable to read metrics array data."])
  ∧ heap_live (snd run) = heap_live w.
Proof.
  intros Hhandle Hversion Hoffset Hnumber Hheap read_size run.
  assert (Hi : (i < length (handles w))%nat) by (by eapply lookup_lt_Some).
  assert (0 <= read_size) as Hsize by (subst read_size; case_decide; lia).
  pose proof (read_length data file_offset read_size Hoffset Hsize) as Hread.
  assert (exists w',
    run = (if decide (readable file_offset read_size (Z.of_nat (length data)))
           then Returned tt
           else Failed [mk_error LIBCERROR_ERROR_DOMAIN_IO LIBCERROR_IO_ERROR_READ_FAILED
                          "libscca_io_handle_read_metrics_array: unable to read metrics array data."],
           w')
    ∧ heap_live w' = heap_live w) as (w' & Hrun & Hw').
  { subst run. unfold libscca_io_handle_read_metrics_array.
    destruct (decide (_ ∧ _)) as [Hno|_]; [lia|].
    cbv zeta.
    unfold sizeof_scca_metrics_array_entry_v17_t, sizeof_scca_metrics_array_entry_v23_t.
    fold read_size. read_section Hhandle Hi.
    destruct (decide (_ ≠ read_size)) as [Hshort|Hfull]; eexists.
    - rewrite decide_False by (by rewrite <- Hread). split; [done|]. simpl. lia.
    - rewrite decide_True by (apply Hread; lia). split; [done|]. simpl. lia. }
  rewrite Hrun. cbn [fst snd]. split_and!; [|  |done].
  - intros Hinside. by rewrite decide_True.
  - intros Houtside. by rewrite decide_False.
Qed.

Lemma metrics_array_is_read_inside_of_the_source_witness :
  fst (libscca_io_handle_read_metrics_array (Some (mk_io_handle 17 240 0)) (Some 0%nat)
         84 7 (s_world (Example.ready_to_read Example.minimal_file)))
  = Returned tt
  ∧ fst (libscca_io_handle_read_metrics_array (Some (mk_io_handle 17 240 0)) (Some 0%nat)
           84 8 (s_world (Example.ready_to_read Example.minimal_file)))
    = Failed [mk_error LIBCERROR_ERROR_DOMAIN_IO LIBCERROR_IO_ERROR_READ_FAILED
                "libscca_io_handle_read_metrics_array: unable to read metrics array data."].
Proof.
  split.
  - apply (metrics_array_is_read_inside_of_the_source (mk_io_handle 17 240 0) 0
             Example.minimal_file 0
             (s_world (Example.ready_to_read Example.minimal_file)) 84 7);
      [reflexivity|by left|lia|lia|simpl; lia|].
    right. vm_compute. discriminate.
  - apply (metrics_array_is_read_inside_of_the_source (mk_io_handle 17 240 0) 0
             Example.minimal_file 0
             (s_world (Example.ready_to_read Example.minimal_file)) 84 8);
      [reflexivity|by left|lia|lia|simpl; lia|].
    intros [Hzero|Hinside]; [done|]. vm_compute in Hinside. by apply Hinside.
Defined.

(** X18. On an open source and with a block to allocate, the decoder of the
    trace chain array returns 1 when the entries, of 12 bytes each, lie
    inside of the source from the offset on, or when there is no entry, and
    otherwise -1 with a read error; every block that it allocates is freed
    again. *)
Theorem trace_chain_array_is_read_inside_of_the_source
    (io_handle : libscca_io_handle_t) (i : nat) (data : list Z) (current : Z)
    (w : world) (file_offset number_of_entries : Z) :
  handles w !! i = Some (Some (mk_bfio (Some data) true current)) ->
  0 <= file_offset -> 0 <= number_of_entries ->
  heap_live w < heap_capacity w ->
  let run := libscca_io_handle_read_trace_chain_array (Some io_handle) (Some i)
               file_offset number_of_entries w in
  (readable file_offset (number_of_entries * 12) (Z.of_nat (length data)) ->
   fst run = Returned tt)
  ∧ (¬ readable file_offset (number_of_entries * 12) (Z.of_nat (length data)) ->
     fst run = Failed [mk_error LIBCERROR_ERROR_DOMAIN_IO LIBCERROR_IO_ERROR_READ_FAILED
                         "libscca_io_handle_read_trace_chain_array: unable to read trace chain array data."])
  ∧ heap_live (snd run) = heap_live w.
Proof.
  intros Hhandle Hoffset Hnumber Hheap run.
  assert (Hi : (i < length (handles w))%nat) by (by eapply lookup_lt_Some).
  assert (0 <= number_of_entries * 12) as Hsize by lia.
  pose proof (read_length data file_offset _ Hoffset Hsize) as Hread.
  assert (exists w',
    run = (if decide (readable file_offset (number_of_entries * 12)
                        (Z.of_nat (length data)))
           then Returned tt
           else Failed [mk_error LIBCERROR_ERROR_DOMAIN_IO LIBCERROR_IO_ERROR_READ_FAILED
                          "libscca_io_handle_read_trace_chain_array: unable to read trace chain array data."],
           w')
    ∧ heap_live w' = heap_live w) as (w' & Hrun & Hw').
  { subst run. unfold libscca_io_handle_read_trace_chain_array.
    cbv zeta. read_section Hhandle Hi.
    destruct (decide (_ ≠ number_of_entries * 12)) as [Hshort|Hfull]; eexists.
    - rewrite decide_False by (by rewrite <- Hread). split; [done|]. simpl. lia.
    - rewrite decide_True by (apply Hread; lia). split; [done|]. simpl. lia. }
  rewrite Hrun. cbn [fst snd]. split_and!; [| |done].
  - intros Hinside. by rewrite decide_True.
  - intros Houtside. by rewrite decide_False.
Qed.

Lemma trace_chain_array_is_read_inside_of_the_source_witness :
  fst (libscca_io_handle_read_trace_chain_array (Some (mk_io_handle 17 240 0))
         (Some 0%nat) 84 13 (s_world (Example.ready_to_read Example.minimal_file)))
  = Returned tt
  ∧ fst (libscca_io_handle_read_trace_chain_array (Some (mk_io_handle 17 240 0))
           (Some 0%nat) 84 14 (s_world (Example.ready_to_read Example.minimal_file)))
    = Failed [mk_error LIBCERROR_ERROR_DOMAIN_IO LIBCERROR_IO_ERROR_READ_FAILED
                "libscca_io_handle_read_trace_chain_array: unable to read trace chain array data."].
Proof.
  split.
  - apply (trace_chain_array_is_read_inside_of_the_source (mk_io_handle 17 240 0) 0
             Example.minimal_file 0
             (s_world (Example.ready_to_read Example.minimal_file)) 84 13);
      [reflexivity|lia|lia|simpl; lia|].
    right. vm_compute. discriminate.
  - apply (trace_chain_array_is_read_inside_of_the_source (mk_io_handle 17 240 0) 0
             Example.minimal_file 0
             (s_world (Example.ready_to_read Example.minimal_file)) 84 14);
      [reflexivity|lia|lia|simpl; lia|].
    intros [Hzero|Hinside]; [done|]. vm_compute in Hinside. by apply Hinside.
Defined.

(** X14. On an open source and with a block to allocate, the decoder of the
    filename strings hands the [filename_string_size] bytes at
    [filename_string_offset] to the strings value: it returns the value with
    the strings of these bytes when they lie inside of the source and are a
    table of UTF-16 strings, -1 with a set error when they are not such a
    table, and -1 with a read error when they do not lie inside of the
    source; the buffer that it allocates is freed again. *)
Theorem filename_strings_are_read_inside_of_the_source
    (io_handle : libscca_io_handle_t) (i : nat) (data : list Z) (current : Z)
    (w : world) (filename_string_offset filename_string_size : Z)
    (filename_strings : libfvalue_value_t) :
  handles w !! i = Some (Some (mk_bfio (Some data) true current)) ->
  0 <= filename_string_offset -> 0 <= filename_string_size ->
  heap_live w < heap_capacity w ->
  let run := libscca_io_handle_read_filename_strings (Some io_handle) (Some i)
               filename_string_offset filename_string_size (Some filename_strings) w in
  let table := slice (Z.to_nat filename_string_offset) (Z.to_nat filename_string_size)
                 data in
  (readable filename_string_offset filename_string_size (Z.of_nat (length data)) ->
   forall strings, utf16_strings table [] = Some strings ->
   fst run = Returned (mk_value strings))
  ∧ (readable filename_string_offset filename_string_size (Z.of_nat (length data)) ->
     utf16_strings table [] = None ->
     fst run
     = Failed [mk_error LIBCERROR_ERROR_DOMAIN_RUNTIME LIBCERROR_RUNTIME_ERROR_GET_FAILED
                 "libfvalue_value_type_set_data_strings_array";
               mk_error LIBCERROR_ERROR_DOMAIN_RUNTIME LIBCERROR_RUNTIME_ERROR_SET_FAILED
                 "libscca_io_handle_read_filename_strings: unable to set data of filename strings value."])
  ∧ (¬ readable filename_string_offset filename_string_size (Z.of_nat (length data)) ->
     fst run
     = Failed [mk_error LIBCERROR_ERROR_DOMAIN_IO LIBCERROR_IO_ERROR_READ_FAILED
                 "libscca_io_handle_read_filename_strings: unable to read filename strings data."])
  ∧ heap_live (snd run) = heap_live w.
Proof.
  intros Hhandle Hoffset Hsize Hheap run table.
  assert (Hi : (i < length (handles w))%nat) by (by eapply lookup_lt_Some).
  pose proof (read_length data _ _ Hoffset Hsize) as Hread.
  assert (exists w',
    run = (if decide (readable filename_string_offset filename_string_size
                        (Z.of_nat (length data)))
           then match utf16_strings table [] with
                | Some strings => Returned (mk_value strings)
                | None =>
                    Failed [mk_error LIBCERROR_ERROR_DOMAIN_RUNTIME
                              LIBCERROR_RUNTIME_ERROR_GET_FAILED
                              "libfvalue_value_type_set_data_strings_array";
                            mk_error LIBCERROR_ERROR_DOMAIN_RUNTIME
                              LIBCERROR_RUNTIME_ERROR_SET_FAILED
                              "libscca_io_handle_read_filename_strings: unable to set data of filename strings value."]
                end
           else Failed [mk_error LIBCERROR_ERROR_DOMAIN_IO LIBCERROR_IO_ERROR_READ_FAILED
                          "libscca_io_handle_read_filename_strings: unable to read filename strings data."],
           w')
    ∧ heap_live w' = heap_live w) as (w' & Hrun & Hw').
  { subst run. unfold libscca_io_handle_read_filename_strings.
    read_section Hhandle Hi.
    destruct (decide (_ ≠ filename_string_size)) as [Hshort|Hfull].
    - eexists. rewrite decide_False by (by rewrite <- Hread).
      split; [done|]. simpl. lia.
    - rewrite decide_True by (apply Hread; lia).
      unfold libfvalue_value_type_set_data_strings_array. fold (slice (Z.to_nat filename_string_offset) (Z.to_nat filename_string_size) data).
      fold table. destruct (utf16_strings table []); eexists; (split; [done|]);
        simpl; lia. }
  rewrite Hrun. cbn [fst snd]. split_and!; [| | |done].
  - intros Hinside strings ->. by rewrite decide_True.
  - intros Hinside ->. by rewrite decide_True.
  - intros Houtside. by rewrite decide_False.
Qed.

Lemma filename_strings_are_read_inside_of_the_source_witness :
  fst (libscca_io_handle_read_filename_strings (Some zeroed_io_handle) (Some 0%nat)
         128 8 (Some (mk_value []))
         (s_world (Example.ready_to_read Example.volume_block)))
  = Returned (mk_value [[67; 0; 58; 0; 65; 0]])
  ∧ fst (libscca_io_handle_read_filename_strings (Some zeroed_io_handle) (Some 0%nat)
           128 10 (Some (mk_value []))
           (s_world (Example.ready_to_read Example.volume_block)))
    = Failed [mk_error LIBCERROR_ERROR_DOMAIN_IO LIBCERROR_IO_ERROR_READ_FAILED
                "libscca_io_handle_read_filename_strings: unable to read filename strings data."].
Proof.
  split.
  - apply (filename_strings_are_read_inside_of_the_source zeroed_io_handle 0
             Example.volume_block 0
             (s_world (Example.ready_to_read Example.volume_block)) 128 8
             (mk_value []));
      [reflexivity|lia|lia|simpl; lia| |reflexivity].
    right. vm_compute. discriminate.
  - apply (filename_strings_are_read_inside_of_the_source zeroed_io_handle 0
             Example.volume_block 0
             (s_world (Example.ready_to_read Example.volume_block)) 128 10
             (mk_value []));
      [reflexivity|lia|lia|simpl; lia|].
    intros [Hzero|Hinside]; [done|]. vm_compute in Hinside. by apply Hinside.
Defined.

(** X12. On an open source of bytes that starts with a file header with the
    signature [SCCA], the decoder of the file header returns 1, and the
    format version, the file size and the prefetch hash that it gives are the
    numbers that the bytes 0 to 3, 12 to 15 and 76 to 79 are in little-endian
    order, each at least 0 and below 2^32; the abort flag of the IO handle is
    as it was. *)
Theorem file_header_values_are_little_endian (io_handle : libscca_io_handle_t)
    (i : nat) (data : list Z) (current : Z) (w : world) :
  handles w !! i = Some (Some (mk_bfio (Some data) true current)) ->
  (84 <= length data)%nat ->
  bytes data ->
  slice 4 4 data = scca_file_signature ->
  fst (libscca_io_handle_read_file_header (Some io_handle) (Some i) w)
  = Returned (mk_io_handle (little_endian_uint32 data 0) (little_endian_uint32 data 12)
                (abort io_handle),
              little_endian_uint32 data 76)
  ∧ 0 <= little_endian_uint32 data 0 < uint32_max
  ∧ 0 <= little_endian_uint32 data 12 < uint32_max
  ∧ 0 <= little_endian_uint32 data 76 < uint32_max.
Proof.
  intros Hhandle Hlength Hdata Hsignature.
  rewrite (libscca_io_handle_read_file_header_outcome _ _ _ _ _ Hhandle Hlength).
  unfold file_header_signature, file_header_format_version, file_header_file_size,
    file_header_prefetch_hash.
  rewrite !slice_take by lia. rewrite decide_True by done.
  rewrite !byte_stream_copy_to_uint32_little_endian_slice by done.
  split_and!; [done|by apply little_endian_uint32_range..].
Qed.

Lemma file_header_values_are_little_endian_witness :
  fst (libscca_io_handle_read_file_header (Some zeroed_io_handle) (Some 0%nat)
         (s_world (Example.ready_to_read Example.minimal_file)))
  = Returned (mk_io_handle 17 240 0, 3735928559).
Proof.
  apply (file_header_values_are_little_endian zeroed_io_handle 0
           Example.minimal_file 0
           (s_world (Example.ready_to_read Example.minimal_file))).
  - reflexivity.
  - vm_compute. lia.
  - apply (bool_decide_unpack _). by vm_compute.
  - reflexivity.
Defined.

(** X13. The decoder of the file header does not read past the end of the
    source: on an open source of fewer than 84 bytes it returns -1 with a
    read error, and on a file IO handle that is not open, -1 with the error
    that the file size cannot be retrieved; in both cases as many blocks are
    allocated as before. *)
Theorem file_header_needs_84_bytes (io_handle : libscca_io_handle_t)
    (i : nat) (source : option (list Z)) (is_open : bool) (current : Z) (w : world) :
  handles w !! i = Some (Some (mk_bfio source is_open current)) ->
  let run := libscca_io_handle_read_file_header (Some io_handle) (Some i) w in
  (forall data, source = Some data -> is_open = true -> (length data < 84)%nat ->
     fst run
     = Failed [mk_error LIBCERROR_ERROR_DOMAIN_IO LIBCERROR_IO_ERROR_READ_FAILED
                 "libscca_io_handle_read_file_header: unable to read file header data."])
  ∧ (is_open = false ->
     fst run
     = Failed [mk_error LIBCERROR_ERROR_DOMAIN_RUNTIME LIBCERROR_RUNTIME_ERROR_GET_FAILED
                 "libbfio_handle_get_size";
               mk_error LIBCERROR_ERROR_DOMAIN_RUNTIME LIBCERROR_RUNTIME_ERROR_GET_FAILED
                 "libscca_io_handle_read_file_header: unable to retrieve file size."]
     ∧ snd run = w)
  ∧ heap_live (snd run) = heap_live w.
Proof.
  intros Hhandle run.
  assert (Hi : (i < length (handles w))%nat) by (by eapply lookup_lt_Some).
  split_and!.
  - intros data -> -> Hlength. subst run.
    unfold libscca_io_handle_read_file_header, mbind, M_bind, checked.
    rewrite (libbfio_handle_get_size_open _ _ _ _ Hhandle).
    rewrite (libbfio_handle_seek_offset_open _ _ _ _ 0 Hhandle) by done.
    rewrite (libbfio_handle_read_buffer_open _ _ 0 _ _ (handles_handle_store _ _ _ Hi)).
    change (Z.to_nat sizeof_scca_file_header_t) with 84%nat.
    change (Z.to_nat 0) with 0%nat. rewrite drop_0.
    rewrite take_ge by lia.
    destruct (decide (Z.of_nat (length data) ≠ sizeof_scca_file_header_t))
      as [|Hno]; [done|].
    destruct Hno. unfold sizeof_scca_file_header_t. lia.
  - intros ->. subst run.
    unfold libscca_io_handle_read_file_header, mbind, M_bind, checked,
      libbfio_handle_get_size.
    rewrite (handle_lookup_handles _ _ _ Hhandle). by destruct source.
  - pose proof (libscca_io_handle_read_file_header_heap (Some io_handle) (Some i) w)
      as Hheap.
    subst run.
    assert (match fst (libscca_io_handle_read_file_header (Some io_handle) (Some i) w)
            with OutOfBounds _ _ _ => False | _ => True end) as Hends.
    { unfold libscca_io_handle_read_file_header, mbind, M_bind, checked.
      destruct source as [data|], is_open.
      - rewrite (libbfio_handle_get_size_open _ _ _ _ Hhandle).
        rewrite (libbfio_handle_seek_offset_open _ _ _ _ 0 Hhandle) by done.
        rewrite (libbfio_handle_read_buffer_open _ _ 0 _ _
                   (handles_handle_store _ _ _ Hi)).
        by repeat case_decide.
      - unfold libbfio_handle_get_size.
        by rewrite (handle_lookup_handles _ _ _ Hhandle).
      - unfold libbfio_handle_get_size.
        by rewrite (handle_lookup_handles _ _ _ Hhandle).
      - unfold libbfio_handle_get_size.
        by rewrite (handle_lookup_handles _ _ _ Hhandle). }
    destruct (libscca_io_handle_read_file_header _ _ _) as [[a|e|o n b] w'];
      [done..|by destruct Hends].
Qed.

Lemma file_header_needs_84_bytes_witness :
  fst (libscca_io_handle_read_file_header (Some zeroed_io_handle) (Some 0%nat)
         (s_world (Example.ready_to_read (take 83 Example.minimal_file))))
  = Failed [mk_error LIBCERROR_ERROR_DOMAIN_IO LIBCERROR_IO_ERROR_READ_FAILED
              "libscca_io_handle_read_file_header: unable to read file header data."].
Proof.
  destruct (file_header_needs_84_bytes zeroed_io_handle 0
              (Some (take 83 Example.minimal_file)) true 0
              (s_world (Example.ready_to_read (take 83 Example.minimal_file)))
              eq_refl) as (Hshort & _).
  apply (Hshort _ eq_refl eq_refl). vm_compute. lia.
Defined.

(** X15. When the decoder of the volumes information returns 1, the volumes
    array holds the entries that it held, in their order, followed by one
    volume information for each of the [number_of_volumes] volumes. *)
Theorem volumes_information_appends_every_volume (io_handle : option libscca_io_handle_t)
    (file_io_handle : option nat)
    (volumes_information_offset volumes_information_size number_of_volumes : Z)
    (s : volumes_state) (volumes : list libscca_internal_volume_information_t) :
  vs_volumes_array s = Some volumes ->
  let run := libscca_io_handle_read_volumes_information io_handle file_io_handle
               volumes_information_offset volumes_information_size number_of_volumes s in
  returned (fst run) = true ->
  exists decoded,
    vs_volumes_array (snd run) = Some (volumes ++ decoded)
    ∧ length decoded = Z.to_nat number_of_volumes.
Proof.
  intros Hs run Hreturned.
  destruct (wp_returned_state _ _ _ _
              (libscca_io_handle_read_volumes_information_appends io_handle
                 file_io_handle volumes_information_offset volumes_information_size
                 number_of_volumes s volumes Hs) Hreturned) as (_ & _ & H).
  exact H.
Qed.

Lemma volumes_information_appends_every_volume_witness :
  exists decoded,
    vs_volumes_array
      (snd (libscca_io_handle_read_volumes_information
              (Some (mk_io_handle 23 444 0)) (Some 0%nat) 308 136 1
              (Example.volumes_state_with
                 (Example.file_with_volumes 1 Example.volume_block))))
    = Some ([] ++ decoded)
    ∧ length decoded = 1%nat.
Proof.
  apply (volumes_information_appends_every_volume (Some (mk_io_handle 23 444 0))
           (Some 0%nat) 308 136 1
           (Example.volumes_state_with
              (Example.file_with_volumes 1 Example.volume_block)) []).
  - reflexivity.
  - by vm_compute.
Defined.

(** ** Opening a file handle that is open *)

(** X4. A file handle that has a file IO handle cannot be opened again:
    [libscca_file_open_file_io_handle] returns -1 with a value-already-set
    error and changes nothing, and [libscca_file_open] and
    [libscca_file_open_wide] return -1 and leave the file handle and the
    number of allocated blocks as they are, the file IO handle that they
    create being freed again. *)
Theorem open_file_handle_is_not_opened_again {D : Declarations} (s : session)
    (f : libscca_internal_file_t) (access_flags : Z) :
  s_file s = Some f ->
  Internal_file.file_io_handle f ≠ None ->
  (forall file_io_handle,
     libscca_file_open_file_io_handle file_io_handle access_flags s
     = (Failed [mk_error LIBCERROR_ERROR_DOMAIN_RUNTIME
                  LIBCERROR_RUNTIME_ERROR_VALUE_ALREADY_SET
                  "libscca_file_open_file_io_handle: invalid file - file IO handle already set."],
        s))
  ∧ (forall filename,
       let run := libscca_file_open filename access_flags s in
       failed (fst run) = true ∧ s_file (snd run) = Some f
       ∧ heap_live (s_world (snd run)) = heap_live (s_world s))
  ∧ (forall filename,
       let run := libscca_file_open_wide filename access_flags s in
       failed (fst run) = true ∧ s_file (snd run) = Some f
       ∧ heap_live (s_world (snd run)) = heap_live (s_world s)).
Proof.
  intros Hf Hhandle.
  assert (forall file_io_handle s', s_file s' = Some f ->
     libscca_file_open_file_io_handle file_io_handle access_flags s'
     = (Failed [mk_error LIBCERROR_ERROR_DOMAIN_RUNTIME
                  LIBCERROR_RUNTIME_ERROR_VALUE_ALREADY_SET
                  "libscca_file_open_file_io_handle: invalid file - file IO handle already set."],
        s')) as Hopen.
  { intros file_io_handle s' Hs'.
    unfold libscca_file_open_file_io_handle, mbind, M_bind, get.
    rewrite Hs'. by destruct (decide (Internal_file.file_io_handle f ≠ None)). }
  assert (forall function name,
    let run := check_access_flags function access_flags
                 (open_named function name access_flags) s in
    failed (fst run) = true ∧ s_file (snd run) = Some f
    ∧ heap_live (s_world (snd run)) = heap_live (s_world s)) as Hnamed.
  { intros function name. unfold check_access_flags.
    case_decide; [done|]. case_decide; [done|].
    unfold open_named, mbind, M_bind, checked, on_error, in_session,
      libbfio_file_initialize, memory_allocate.
    destruct s as [file w]. simpl in Hf. subst file. cbn [s_world s_file].
    case_decide; [|done]. cbn [fst snd s_world s_file].
    unfold libbfio_file_set_name, handle_lookup. cbn [handles set_handles set_heap_live].
    rewrite lookup_app_r by done. rewrite Nat.sub_diag. cbn [lookup list_lookup default from_option id].
    rewrite Hopen by done. cbn [fst snd].
    split_and!; [done..|].
    unfold update_world, ignoring, libbfio_handle_free, handle_lookup, handle_store.
    cbn [s_world handles set_handles].
    rewrite list_lookup_insert_eq by (rewrite length_app; simpl; lia).
    simpl. lia. }
  split_and!; [intros; by apply Hopen| |].
  - intros [filename|]; unfold libscca_file_open, mbind, M_bind, get;
      rewrite Hf; [apply Hnamed|done].
  - intros [filename|]; unfold libscca_file_open_wide, mbind, M_bind, get;
      rewrite Hf; [apply Hnamed|done].
Qed.

Lemma open_file_handle_is_not_opened_again_witness :
  let s := snd (libscca_file_open_file_io_handle (D := spec_declarations)
                  (Some 0%nat) 1 (Example.initialized Example.minimal_file)) in
  failed (fst (libscca_file_open_file_io_handle (D := spec_declarations)
                 (Some 0%nat) 1 s)) = true
  ∧ snd (libscca_file_open_file_io_handle (D := spec_declarations) (Some 0%nat) 1 s)
    = s.
Proof.
  intros s.
  destruct (s_file s) as [f|] eqn:Hf; [|by vm_compute in Hf].
  destruct (open_file_handle_is_not_opened_again (D := spec_declarations) s f 1 Hf)
    as (Hopen & _).
  - vm_compute in Hf. by injection Hf as <-.
  - by rewrite Hopen.
Defined.

(** ** Opening a file by its name *)

Section Named.
Context {D : Declarations}.

Local Arguments libscca_file_open_file_io_handle : simpl never.

(** What [libscca_file_open] and [libscca_file_open_wide] leave when they
    return 1: the file IO handle is a new one, created and opened by the
    library. *)
Lemma open_named_parsed function name access_flags s f data :
  ready_to_open_named s f name data ->
  wp (check_access_flags function access_flags (open_named function name access_flags))
     (fun _ s' =>
        parsed
          (Internal_file.set_file_io_handle_created_in_library 1
             (Internal_file.set_file_io_handle_opened_in_library 1
                (Internal_file.set_file_io_handle
                   (Some (length (handles (s_world s)))) f)))
          (take 84 data) (heap_live (s_world s) + 1) s')
     (fun _ => True) s.
Proof.
  intros (Hf & Hio & Hfi & Hfs & Harray & Hlength & Hname).
  unfold check_access_flags. wp_step; [by wp_step|]. wp_step; [by wp_step|].
  unfold open_named. wp_step. wp_step. wp_step.
  unfold libbfio_file_initialize, memory_allocate.
  destruct s as [file w]. simpl in Hf, Hname. subst file. cbn [s_world s_file].
  unfold wp at 1. case_decide; [|done]. cbn [set_heap_live set_handles handles].
  apply wp_on_error. wp_step. wp_step. wp_step.
  eapply wp_of_run.
  { unfold libbfio_file_set_name, handle_lookup.
    cbn [s_world handles set_handles set_heap_live].
    rewrite lookup_app_r by done. rewrite Nat.sub_diag. done. }
  cbn [s_world filesystem set_handles set_heap_live bfio_is_open bfio_offset].
  rewrite Hname. wp_step. wp_step.
  eapply wp_mono;
    [eapply (libscca_file_open_file_io_handle_parsed _ _ data false 0 _ f);
       try done| |done].
  { cbn [s_world handle_store set_handles handles]. apply list_lookup_insert_eq.
    rewrite length_app. simpl. lia. }
  intros _ s' (fi' & fs' & volumes & Hfile & ? & ? & Hheap).
  apply wp_update_file. exists fi', fs', volumes. rewrite Hfile.
  simpl in *. split_and!; [done..|]. lia.
Qed.

Lemma libscca_file_open_returns filename access_flags s f data :
  ready_to_open_named s f (narrow_name filename) data ->
  returned (fst (libscca_file_open (Some filename) access_flags s)) = true ->
  parsed
    (Internal_file.set_file_io_handle_created_in_library 1
       (Internal_file.set_file_io_handle_opened_in_library 1
          (Internal_file.set_file_io_handle
             (Some (length (handles (s_world s)))) f)))
    (take 84 data) (heap_live (s_world s) + 1)
    (snd (libscca_file_open (Some filename) access_flags s)).
Proof.
  intros Hready Hreturned. pose proof Hready as (Hf & _).
  unfold libscca_file_open, mbind, M_bind, get in *. rewrite Hf in *.
  by destruct (wp_returned_state _ _ _ _
                 (open_named_parsed "libscca_file_open" _ access_flags _ _ _ Hready)
                 Hreturned) as (_ & _ & Hparsed).
Qed.

End Named.

(** X11. [libscca_file_open] on the name of a file makes a file IO handle of
    its own: when it has returned 1, the file handle says that the library
    created and opened its file IO handle, and the format version is that
    of the file; when [libscca_file_close] then returns 0, the file handle
    is as [libscca_file_initialize] makes it and as many blocks are allocated
    as before the open, the file IO handle freed with the rest. *)
Theorem open_by_name_and_close_leave_no_block {D : Declarations} (filename : string)
    (access_flags : Z) (s : session) (f : libscca_internal_file_t) (data : list Z) :
  ready_to_open_named s f (narrow_name filename) data ->
  bytes data ->
  returned (fst (libscca_file_open (Some filename) access_flags s)) = true ->
  let s' := snd (libscca_file_open (Some filename) access_flags s) in
  (exists f', s_file s' = Some f'
     ∧ Internal_file.file_io_handle f' = Some (length (handles (s_world s)))
     ∧ Internal_file.file_io_handle_created_in_library f' = 1
     ∧ Internal_file.file_io_handle_opened_in_library f' = 1)
  ∧ libscca_file_get_format_version s' = (Returned (little_endian_uint32 data 0), s')
  ∧ (returned (fst (libscca_file_close s')) = true ->
     s_file (snd (libscca_file_close s')) = Some initialized_file
     ∧ heap_live (s_world (snd (libscca_file_close s'))) = heap_live (s_world s)).
Proof.
  intros Hready Hdata Hreturned s'.
  destruct (libscca_file_open_returns _ _ _ _ _ Hready Hreturned)
    as (fi & fs & volumes & Hfile & _ & _ & Hheap).
  fold s' in Hfile, Hheap.
  destruct (file_header_values data Hdata) as (Hversion & _ & _).
  split_and!.
  - eexists. by split.
  - unfold libscca_file_get_format_version, mbind, M_bind, get. rewrite Hfile.
    simpl. by rewrite Hversion.
  - intros Hclosed.
    destruct (libscca_file_close_returns s' Hclosed)
      as (f' & Hf' & _ & _ & Hinitialized & Hheap').
    rewrite Hfile in Hf'. injection Hf' as <-. simpl in Hheap'.
    unfold file_blocks in Hheap'. simpl in Hheap'.
    split; [done|]. lia.
Qed.

Lemma open_by_name_and_close_leave_no_block_witness :
  let s := mk_session (Some initialized_file)
             (mk_world 3 100 []
                (fun _ => Some (Example.file_with_volumes 1 Example.volume_block))) in
  let s' := snd (libscca_file_open (D := spec_declarations) (Some "A.pf"%string) 1 s) in
  libscca_file_get_format_version s' = (Returned 23, s')
  ∧ heap_live (s_world s') = 8
  ∧ heap_live (s_world (snd (libscca_file_close s'))) = 3.
Proof.
  intros s s'.
  destruct (open_by_name_and_close_leave_no_block (D := spec_declarations)
              "A.pf" 1 s initialized_file
              (Example.file_with_volumes 1 Example.volume_block))
    as (_ & Hversion & Hclose).
  - split_and!; [reflexivity|by eexists|reflexivity..| |reflexivity].
    vm_compute. lia.
  - apply bytes_example.
  - by vm_compute.
  - split_and!; [exact Hversion|by vm_compute|].
    destruct Hclose as [_ Hheap]; [by vm_compute|]. exact Hheap.
Defined.

(** ** The volumes that the decoder makes of the records *)

Lemma wp_read_data_value offset size (Q : list Z -> volumes_state -> Prop) E s :
  Q (slice (Z.to_nat offset) (Z.to_nat size) (default [] (vs_volumes_information_data s)))
    (vs_add_read offset size s) ->
  wp (read_data offset size) Q E s.
Proof. intros H. unfold wp, read_data. by case_decide. Qed.

Lemma wp_volume_information_initialize domain code message
    (Q : libscca_internal_volume_information_t -> volumes_state -> Prop) s :
  (forall w, Q (mk_volume_information 0 0 None 0 None) (vs_set_world w s)) ->
  wp (in_world (checked (libscca_volume_information_initialize None)
                  domain code message)) Q (fun _ => True) s.
Proof.
  intros H. unfold wp, in_world, libscca_volume_information_initialize,
    mbind, M_bind, checked, memory_allocate.
  destruct (decide (heap_live (vs_world s) < heap_capacity (vs_world s)));
    simpl; auto.
Qed.

Lemma wp_set_data_strings_array_value {S} value data
    (Q : libfvalue_value_t -> S -> Prop) s :
  (forall strings, utf16_strings data [] = Some strings -> Q (mk_value strings) s) ->
  wp (libfvalue_value_type_set_data_strings_array value data) Q (fun _ => True) s.
Proof.
  intros H. unfold wp, libfvalue_value_type_set_data_strings_array.
  destruct value; [|done]. destruct (utf16_strings data []); simpl; auto.
Qed.

Ltac decode_step :=
  lazymatch goal with
  | |- wp (read_uint32 _) _ _ _ => unfold read_uint32
  | |- wp (read_uint64 _) _ _ _ => unfold read_uint64
  | |- wp (fmap _ _) _ _ _ => apply wp_fmap
  | |- wp (read_data _ _) _ _ _ => apply wp_read_data_value
  | |- wp (update_volume_information _) _ _ _ => apply wp_update_volume_information
  | |- wp (set_volume_information _) _ _ _ =>
      unfold set_volume_information; apply wp_modify
  | |- wp (set_volumes_array _) _ _ _ =>
      unfold set_volumes_array; apply wp_modify
  | |- wp (modify _) _ _ _ => apply wp_modify
  | |- wp (in_world (checked (libscca_volume_information_initialize None) _ _ _)) _ _ _ =>
      apply wp_volume_information_initialize; intros ?
  | |- wp (in_world _) _ _ _ => apply wp_in_world_returns; intros ? ?
  | |- wp (libfvalue_value_type_set_data_strings_array _ _) _ _ _ =>
      apply wp_set_data_strings_array_value; intros ? ?
  | |- wp (checked _ _ _ _) _ _ _ => apply wp_checked
  | |- wp (mret _) _ _ _ => apply wp_ret
  | |- wp (mbind _ _) _ _ _ => apply wp_bind
  | |- wp get _ _ _ => apply wp_get
  | |- wp (fail _ _ _) _ _ _ => by apply wp_fail
  | |- wp (if decide ?P then _ else _) _ _ _ => destruct (decide P)
  | |- wp (libcdata_array_append_entry _ _) _ _ _ =>
      unfold wp, libcdata_array_append_entry
  end.

(** The body of the loop makes of the record at the offset the volume
    information that it appends. *)
Lemma read_volume_information_decodes size record_size offset w volumes data reads :
  wp (read_volume_information size record_size offset)
     (fun next s' =>
        next = (offset + record_size) mod uint32_max
        ∧ vs_volumes_information_data s' = Some data
        ∧ vs_volume_information s' = None
        ∧ vs_reads s' = reads ++ reads_of_record data size offset
        ∧ exists v, vs_volumes_array s' = Some (volumes ++ [v])
                    ∧ volume_of_record data size offset v)
     (fun _ => True)
     (mk_volumes_state w (Some volumes) None (Some data) reads).
Proof.
  unfold read_volume_information, read_volume_information_record,
    read_file_references, read_device_path, read_directory_strings,
    append_volume_information.
  repeat (decode_step; cbn [vs_volume_information vs_volumes_information_data
                              vs_set_world vs_add_read vs_set_volume_information
                              vs_volumes_array vs_world vs_reads default
                              from_option id fmap option_fmap option_map]).
  all: unfold mbind, M_bind, set_volumes_array, modify, mret, M_ret;
    cbn [vs_set_volumes_array vs_set_volume_information vs_volumes_array
         vs_volume_information vs_volumes_information_data vs_world vs_reads
         vs_add_read vs_set_world];
    change (Z.to_nat 4) with 4%nat in *; change (Z.to_nat 8) with 8%nat in *.
  all: split_and!; [reflexivity..| |].
  all: try (unfold reads_of_record; cbv zeta;
            repeat first [rewrite decide_True by assumption
                         |rewrite decide_False by assumption];
            rewrite <- ?app_assoc; reflexivity).
  all: eexists; (split; [reflexivity|]).
  all: unfold volume_of_record; cbv zeta;
    cbn [creation_time serial_number device_path device_path_size directory_strings
         with_directory_strings with_device_path with_device_path_size
         with_serial_number with_creation_time].
  all: split; [reflexivity|split; [reflexivity|split]].
  all: try (rewrite decide_True by assumption);
    try (rewrite decide_False by assumption).
  all: try (split; reflexivity); try reflexivity.
  all: eexists; split; [eassumption|reflexivity].
Qed.

Lemma read_volumes_decodes size record_size (data : list Z) count :
  forall offset w volumes reads,
  0 <= offset < uint32_max ->
  wp (read_volumes size record_size offset count)
     (fun _ s' =>
        vs_reads s'
        = reads ++ concat ((fun k : nat =>
                              reads_of_record data size
                                ((offset + Z.of_nat k * record_size) mod uint32_max))
                             <$> seq 0 count)
        ∧ exists decoded,
            vs_volumes_array s' = Some (volumes ++ decoded)
            ∧ length decoded = count
            ∧ forall (k : nat) v, decoded !! k = Some v ->
                volume_of_record data size
                  ((offset + Z.of_nat k * record_size) mod uint32_max) v)
     (fun _ => True)
     (mk_volumes_state w (Some volumes) None (Some data) reads).
Proof.
  induction count as [|count IH]; intros offset w volumes reads Hoffset;
    cbn [read_volumes].
  - apply wp_ret. split; [by rewrite app_nil_r|].
    exists []. rewrite app_nil_r. by split_and!.
  - apply wp_bind.
    eapply wp_mono; [apply read_volume_information_decodes| |done].
    intros next [w' array' local' data' reads']
      (-> & Hdata & Hlocal & Hreads' & v & Harray & Hv).
    simpl in Hdata, Hlocal, Hreads', Harray. subst array' local' data' reads'.
    eapply wp_mono; [apply IH| |done].
    { by apply Z.mod_pos_bound. }
    intros ? s'' (Hreads & decoded & Harray & Hlength & Hdecoded).
    assert (Hnext : forall k : nat,
              ((offset + record_size) mod uint32_max + Z.of_nat k * record_size)
                mod uint32_max
              = (offset + Z.of_nat (S k) * record_size) mod uint32_max).
    { intros k. rewrite Z.add_mod_idemp_l by done. f_equal. lia. }
    split.
    { rewrite Hreads, <- app_assoc. f_equal.
      cbn [seq fmap list_fmap concat].
      change (Z.of_nat 0) with 0.
      rewrite Z.mul_0_l, Z.add_0_r, (Z.mod_small offset) by done. f_equal.
      rewrite <- fmap_S_seq, <- list_fmap_compose. f_equal.
      apply list_fmap_ext. intros ? k ?. simpl. by rewrite Hnext. }
    exists (v :: decoded). rewrite Harray, <- app_assoc. split_and!; [done|..].
    { simpl. by rewrite Hlength. }
    intros [|k] v' Hk; simpl in Hk.
    + injection Hk as <-. rewrite Z.mul_0_l, Z.add_0_r, Z.mod_small by done. done.
    + specialize (Hdecoded k v' Hk). by rewrite Hnext in Hdecoded.
Qed.

Lemma wp_seek_offset_open i source current to domain code message
    (Q : Z -> volumes_state -> Prop) s :
  handles (vs_world s) !! i = Some (Some (mk_bfio (Some source) true current)) ->
  Q to (vs_set_world (handle_store i (Some (mk_bfio (Some source) true to)) (vs_world s)) s) ->
  wp (in_world (checked (libbfio_handle_seek_offset (Some i) to) domain code message))
     Q (fun _ => True) s.
Proof.
  intros Hhandle HQ. unfold wp, in_world, checked, libbfio_handle_seek_offset.
  rewrite (handle_lookup_handles _ _ _ Hhandle).
  by destruct (decide (0 <= to)).
Qed.

Lemma wp_read_buffer_open i source current size domain code message
    (Q : list Z -> volumes_state -> Prop) E s :
  handles (vs_world s) !! i = Some (Some (mk_bfio (Some source) true current)) ->
  (forall w, Q (slice (Z.to_nat current) (Z.to_nat size) source) (vs_set_world w s)) ->
  wp (in_world (checked (libbfio_handle_read_buffer (Some i) size) domain code message))
     Q E s.
Proof.
  intros Hhandle HQ. unfold wp, in_world, checked.
  rewrite (libbfio_handle_read_buffer_open _ _ _ _ _ Hhandle). apply HQ.
Qed.

(** The decoder of the volumes information on an open source: what it has
    read of the volumes information and what it has appended to the volumes
    array when it returns 1. *)
Lemma libscca_io_handle_read_volumes_information_decodes
    (io_handle : libscca_io_handle_t) (i : nat) (source : list Z) (current : Z)
    (volumes_information_offset volumes_information_size number_of_volumes : Z)
    (s : volumes_state) (volumes : list libscca_internal_volume_information_t) :
  handles (vs_world s) !! i = Some (Some (mk_bfio (Some source) true current)) ->
  vs_volumes_array s = Some volumes ->
  vs_volume_information s = None ->
  let data := slice (Z.to_nat volumes_information_offset)
                (Z.to_nat volumes_information_size) source in
  let record_size := if decide (format_version io_handle = 17)
                     then sizeof_scca_volume_information_v17_t
                     else sizeof_scca_volume_information_v23_t in
  wp (libscca_io_handle_read_volumes_information (Some io_handle) (Some i)
        volumes_information_offset volumes_information_size number_of_volumes)
     (fun _ s' =>
        vs_reads s'
        = vs_reads s ++ reads_of_records data volumes_information_size record_size
                          (Z.to_nat number_of_volumes)
        ∧ exists decoded,
            vs_volumes_array s' = Some (volumes ++ decoded)
            ∧ length decoded = Z.to_nat number_of_volumes
            ∧ forall (k : nat) v, decoded !! k = Some v ->
                volume_of_record data volumes_information_size
                  ((Z.of_nat k * record_size) mod uint32_max) v)
     (fun _ => True) s.
Proof.
  intros Hhandle Hs Hlocal data record_size.
  assert (Hi : (i < length (handles (vs_world s)))%nat) by (by eapply lookup_lt_Some).
  unfold libscca_io_handle_read_volumes_information.
  apply wp_on_error. destruct s as [w array local block reads].
  simpl in Hs, Hlocal, Hhandle, Hi. subst array local.
  apply wp_bind. eapply wp_seek_offset_open; [exact Hhandle|].
  cbn [vs_set_world vs_world].
  apply wp_bind, wp_in_world, wp_checked, wp_memory_allocate; [|done].
  cbn [vs_set_world vs_world].
  apply wp_bind. array_step. apply wp_bind.
  eapply wp_read_buffer_open.
  { cbn [vs_set_world vs_world vs_set_volumes_information_data].
    by apply list_lookup_insert_eq. }
  intros w2. fold data. case_decide; [by array_step|].
  repeat array_step. cbv zeta. fold record_size. repeat array_step.
  cbn [vs_set_world vs_world vs_set_volumes_information_data].
  eapply wp_mono; [by apply (read_volumes_decodes _ _ data)| |done].
  intros ? s' (Hreads & decoded & Hs' & Hlength & Hdecoded). repeat array_step.
  simpl. split.
  { rewrite Hreads. reflexivity. }
  exists decoded. split_and!; [done..|].
  intros k v Hk. specialize (Hdecoded k v Hk). by rewrite Z.add_0_l in Hdecoded.
Qed.

(** X16. When the decoder of the volumes information returns 1 on an open
    source, the volume information that it has appended for the volume [k] is
    what the record [k] of the volumes information says, the bytes of the
    source of [volumes_information_size] from [volumes_information_offset]
    on. The records follow each other from the start of the volumes
    information on, each of the size of the volume information of the
    version 17 when the format version is 17 and of the version 23
    otherwise, their offsets being reduced modulo 2^32. *)
Theorem volumes_are_decoded_from_their_records (io_handle : libscca_io_handle_t)
    (i : nat) (source : list Z) (current : Z)
    (volumes_information_offset volumes_information_size number_of_volumes : Z)
    (s : volumes_state) (volumes : list libscca_internal_volume_information_t) :
  handles (vs_world s) !! i = Some (Some (mk_bfio (Some source) true current)) ->
  vs_volumes_array s = Some volumes ->
  vs_volume_information s = None ->
  let run := libscca_io_handle_read_volumes_information (Some io_handle) (Some i)
               volumes_information_offset volumes_information_size number_of_volumes s in
  let data := slice (Z.to_nat volumes_information_offset)
                (Z.to_nat volumes_information_size) source in
  let record_size := if decide (format_version io_handle = 17)
                     then sizeof_scca_volume_information_v17_t
                     else sizeof_scca_volume_information_v23_t in
  returned (fst run) = true ->
  exists decoded,
    vs_volumes_array (snd run) = Some (volumes ++ decoded)
    ∧ length decoded = Z.to_nat number_of_volumes
    ∧ forall (k : nat) v, decoded !! k = Some v ->
        volume_of_record data volumes_information_size
          ((Z.of_nat k * record_size) mod uint32_max) v.
Proof.
  intros Hhandle Hs Hlocal run data record_size Hreturned.
  destruct (wp_returned_state _ _ _ _
              (libscca_io_handle_read_volumes_information_decodes io_handle i
                 source current volumes_information_offset volumes_information_size
                 number_of_volumes s volumes Hhandle Hs Hlocal) Hreturned)
    as (_ & _ & _ & H).
  exact H.
Qed.

Lemma volumes_are_decoded_from_their_records_witness :
  exists decoded,
    vs_volumes_array
      (snd (libscca_io_handle_read_volumes_information
              (Some (mk_io_handle 23 444 0)) (Some 0%nat) 308 136 1
              (Example.volumes_state_with
                 (Example.file_with_volumes 1 Example.volume_block))))
    = Some ([] ++ decoded)
    ∧ length decoded = Z.to_nat 1
    ∧ forall (k : nat) v, decoded !! k = Some v ->
        volume_of_record
          (slice (Z.to_nat 308) (Z.to_nat 136)
             (Example.file_with_volumes 1 Example.volume_block))
          136 ((Z.of_nat k * sizeof_scca_volume_information_v23_t) mod uint32_max) v.
Proof.
  apply (volumes_are_decoded_from_their_records (mk_io_handle 23 444 0) 0%nat
           (Example.file_with_volumes 1 Example.volume_block) 0 308 136 1
           (Example.volumes_state_with
              (Example.file_with_volumes 1 Example.volume_block)) []).
  - reflexivity.
  - reflexivity.
  - reflexivity.
  - by vm_compute.
Defined.

(** ** The file references of a volume, in the decoder *)

(** C6 (corrected). When the decoder of the volumes information returns 1 on
    an open source, what it has read of the volumes information is, record
    after record: the eight fields of the record; when the file references
    offset of the record is not 0, the version and the number of file
    references, 4 bytes each, at that offset; the device path; the directory
    strings. Of the file references it reads this header of 8 bytes and
    nothing more, the loop that follows having an empty body, and the volume
    information that it appends is made of the creation time, the serial
    number, the device path and the directory strings of the record: no file
    reference is stored. Only with its body for debug output does the loop
    decode references, on volumes information data that holds them: one
    value of 64 bits for each index from 1 below the number, the one of
    index [i] at [file_references_offset + 8 + i * 8], that is, none when the
    number is 0 or 1, and the number minus 1 of them, from 16 bytes after
    the offset on, otherwise. *)
Theorem file_references_decoded_for_debug_output_only
    (io_handle : libscca_io_handle_t) (i : nat) (source : list Z) (current : Z)
    (volumes_information_offset volumes_information_size number_of_volumes : Z)
    (s : volumes_state) (volumes : list libscca_internal_volume_information_t) :
  handles (vs_world s) !! i = Some (Some (mk_bfio (Some source) true current)) ->
  vs_volumes_array s = Some volumes ->
  vs_volume_information s = None ->
  let run := libscca_io_handle_read_volumes_information (Some io_handle) (Some i)
               volumes_information_offset volumes_information_size number_of_volumes s in
  let data := slice (Z.to_nat volumes_information_offset)
                (Z.to_nat volumes_information_size) source in
  let record_size := if decide (format_version io_handle = 17)
                     then sizeof_scca_volume_information_v17_t
                     else sizeof_scca_volume_information_v23_t in
  returned (fst run) = true ->
  vs_reads (snd run)
  = vs_reads s ++ reads_of_records data volumes_information_size record_size
                    (Z.to_nat number_of_volumes)
  ∧ (exists decoded,
       vs_volumes_array (snd run) = Some (volumes ++ decoded)
       ∧ length decoded = Z.to_nat number_of_volumes
       ∧ forall (k : nat) v, decoded !! k = Some v ->
           volume_of_record data volumes_information_size
             ((Z.of_nat k * record_size) mod uint32_max) v)
  ∧ (forall (file_references_offset : Z) (s0 : volumes_state),
       let number_of_file_references :=
         byte_stream_copy_to_uint32_little_endian
           (slice (Z.to_nat (file_references_offset + 4)) 4 data) in
       vs_volumes_information_data s0 = Some data ->
       0 <= file_references_offset ->
       0 <= number_of_file_references ->
       file_references_offset + 8 + number_of_file_references * 8
         <= Z.of_nat (length data) ->
       Z.of_nat (length data) < uint32_max ->
       (exists s',
          debug_file_references file_references_offset 1
            (file_references_iterations number_of_file_references) s0
          = (Returned
               ((fun k : nat =>
                   file_reference_at data file_references_offset (1 + Z.of_nat k))
                  <$> seq 0 (Z.to_nat (number_of_file_references - 1))), s')
          ∧ vs_reads s'
            = vs_reads s0
              ++ ((fun k : nat => (file_references_offset + 16 + 8 * Z.of_nat k, 8))
                    <$> seq 0 (Z.to_nat (number_of_file_references - 1))))
       ∧ (number_of_file_references <= 1 ->
          debug_file_references file_references_offset 1
            (file_references_iterations number_of_file_references) s0
          = (Returned [], s0))).
Proof.
  intros Hhandle Hs Hlocal run data record_size Hreturned.
  destruct (wp_returned_state _ _ _ _
              (libscca_io_handle_read_volumes_information_decodes io_handle i
                 source current volumes_information_offset volumes_information_size
                 number_of_volumes s volumes Hhandle Hs Hlocal) Hreturned)
    as (_ & _ & Hreads & Hdecoded).
  split_and!; [exact Hreads|exact Hdecoded|].
  intros file_references_offset s0 n Hdata Hoffset Hn Hend Hmax. split.
  - destruct (decide (n <= 1)) as [Hone|Hmore].
    { exists s0. unfold file_references_iterations.
      replace (Z.to_nat (n - 1)) with 0%nat by lia. simpl.
      by rewrite app_nil_r. }
    destruct (debug_file_references_in_bounds data file_references_offset
                (file_references_iterations n) 1 s0)
      as (s' & Hrun & _ & Hreads'); [done|lia|lia| |lia|].
    { unfold file_references_iterations. lia. }
    exists s'. split; [done|]. rewrite Hreads'. f_equal.
    apply list_fmap_ext. intros ? k ?. f_equal. lia.
  - intros Hone. unfold file_references_iterations.
    by replace (Z.to_nat (n - 1)) with 0%nat by lia.
Qed.

Lemma file_references_decoded_for_debug_output_only_witness :
  vs_reads
    (snd (libscca_io_handle_read_volumes_information
            (Some (mk_io_handle 23 444 0)) (Some 0%nat) 308 136 1
            (Example.volumes_state_with
               (Example.file_with_volumes 1 Example.volume_block))))
  = [(0, 4); (4, 4); (8, 8); (16, 4); (20, 4); (24, 4); (28, 4); (32, 4);
     (96, 4); (100, 4); (128, 4); (132, 4)]
  ∧ exists s',
      debug_file_references 96 1 (file_references_iterations 3)
        (Example.volumes_state_with_data Example.volume_block)
      = (Returned [281474976710722; 562949953421379], s')
      ∧ vs_reads s' = [(112, 8); (120, 8)].
Proof.
  destruct (file_references_decoded_for_debug_output_only (mk_io_handle 23 444 0)
              0%nat (Example.file_with_volumes 1 Example.volume_block) 0 308 136 1
              (Example.volumes_state_with
                 (Example.file_with_volumes 1 Example.volume_block)) [])
    as (Hreads & _ & Hdebug).
  - reflexivity.
  - reflexivity.
  - reflexivity.
  - by vm_compute.
  - split; [exact Hreads|].
    destruct (Hdebug 96 (Example.volumes_state_with_data Example.volume_block))
      as [(s' & Hrun & Hreads') _].
    + reflexivity.
    + lia.
    + vm_compute. discriminate.
    + vm_compute. discriminate.
    + by vm_compute.
    + exists s'. split; [exact Hrun | exact Hreads'].
Defined.

(** C6, counterexample. The volume of [Example.volume_block] has its file
    references at offset 96, and their number is 3. The decoder returns 1,
    and at and after offset 96 it has read the two values of 4 bytes at the
    offsets 96 and 100, the device path offset apart: no reference is
    decoded, and the volume information that it appends holds none. *)
Lemma file_references_are_not_decoded :
  let decode := libscca_io_handle_read_volumes_information
    (Some (mk_io_handle 23 444 0)) (Some 0%nat) 308 136 1
    (Example.volumes_state_with
       (Example.file_with_volumes 1 Example.volume_block)) in
  byte_stream_copy_to_uint32_little_endian (slice 100 4 Example.volume_block) = 3
  ∧ fst decode = Returned tt
  ∧ vs_reads (snd decode)
    = [(0, 4); (4, 4); (8, 8); (16, 4); (20, 4); (24, 4); (28, 4); (32, 4);
       (96, 4); (100, 4); (128, 4); (132, 4)]
  ∧ vs_volumes_array (snd decode)
    = Some [mk_volume_information 130000000000000000 305419896
              (Some [67; 0; 58; 0]) 4 (Some (mk_value [[65; 0]]))].
Proof. by vm_compute. Qed.
